(** * Make_HardLink: the batch hard-link creator

    A shallow embedding of the Python program (one source file, classes
    [RecentPathManager] and [HardlinkCreator]) and the properties of its
    batch loop, its input validation and its recent-path list.

    Conventions of the embedding:
    - Python [str] is [string]; [int] is [nat] where the code only counts
      upwards from zero and [Z] where the value is a free parameter;
    - paths are handled with [os.path] as on a POSIX host ([posixpath]):
      the separator is the slash;
    - the operating system (file existence, hard links, directory creation,
      file contents) and the JSON codec are a record of operations, so that
      every statement holds for any behaviour of these collaborators; an
      in-memory directory table instantiates the record;
    - the batch is embedded twice.  First with Tk widget operations and
      [logging] calls that append an event to the observable trace and
      return; then, in module [Tk], with the widgets and the log as
      collaborators whose calls can raise and can change the world, for
      the statements that depend on it.  The first is the second beside
      windows that stay open ([process_files_steady]). *)

From Stdlib Require Import List String Ascii Bool Arith ZArith Lia.
From Stdlib Require Import DecimalString DecimalNat.
From Stdlib Require Import Sorted.
From Stdlib Require Floats.SpecFloat.
Import ListNotations.

Local Open Scope string_scope.
Local Open Scope list_scope.

(** ** Python strings *)

Module PyStr.

(** [s.startswith(c)] for a one-character [c]. *)
Definition startswith (s : string) (c : ascii) : bool :=
  match s with
  | String a _ => Ascii.eqb a c
  | EmptyString => false
  end.

(** [s.endswith(c)] for a one-character [c]. *)
Fixpoint endswith (s : string) (c : ascii) : bool :=
  match s with
  | EmptyString => false
  | String a EmptyString => Ascii.eqb a c
  | String _ rest => endswith rest c
  end.

(** [s.rfind(c)], as an option: [None] stands for Python's [-1]. *)
Fixpoint rfind (s : string) (c : ascii) : option nat :=
  match s with
  | EmptyString => None
  | String a rest =>
      match rfind rest c with
      | Some i => Some (S i)
      | None => if Ascii.eqb a c then Some 0 else None
      end
  end.

(** The slices [s[:n]] and [s[n:]]. *)
Fixpoint take (n : nat) (s : string) : string :=
  match n, s with
  | S n', String a rest => String a (take n' rest)
  | _, _ => EmptyString
  end.

Fixpoint drop (n : nat) (s : string) : string :=
  match n, s with
  | S n', String _ rest => drop n' rest
  | _, _ => s
  end.

(** [s.rstrip(c)]. *)
Fixpoint rstrip (s : string) (c : ascii) : string :=
  match s with
  | EmptyString => EmptyString
  | String a rest =>
      match rstrip rest c with
      | EmptyString => if Ascii.eqb a c then EmptyString else String a EmptyString
      | r => String a r
      end
  end.

(** Whether every character of [s] is [c]. *)
Fixpoint all_chars (s : string) (c : ascii) : bool :=
  match s with
  | EmptyString => true
  | String a rest => Ascii.eqb a c && all_chars rest c
  end.

(** [str(n)] for a non-negative [int]: its decimal numeral. *)
Definition str (n : nat) : string := NilEmpty.string_of_uint (Nat.to_uint n).

End PyStr.

(** ** [os.path] on a POSIX host *)

Module posixpath.

Definition sep : ascii := "/"%char.
Definition extsep : ascii := "."%char.

(** [i = p.rfind(sep) + 1]. *)
Definition after_last_sep (p : string) : nat :=
  match PyStr.rfind p sep with
  | Some i => S i
  | None => 0
  end.

(** [basename(p)]: [p[i:]] with [i = p.rfind('/') + 1]. *)
Definition basename (p : string) : string := PyStr.drop (after_last_sep p) p.

(** [dirname(p)]: [p[:i]], with trailing slashes stripped unless the head
    consists of slashes only. *)
Definition dirname (p : string) : string :=
  let head := PyStr.take (after_last_sep p) p in
  if negb (String.eqb head "") && negb (PyStr.all_chars head sep)
  then PyStr.rstrip head sep
  else head.

(** [join(a, b)] with one component [b]. *)
Definition join (a b : string) : string :=
  if PyStr.startswith b sep then b
  else if String.eqb a "" || PyStr.endswith a sep then a ++ b
  else a ++ String sep b.

(** [splitext(p)], that is [genericpath._splitext(p, '/', None, '.')]: the
    extension starts at the last dot of the last component, unless only
    dots precede it there. *)
Definition splitext (p : string) : string * string :=
  let filenameIndex := after_last_sep p in
  match PyStr.rfind p extsep with
  | Some dotIndex =>
      if (filenameIndex <=? dotIndex)%nat
         && negb (PyStr.all_chars
                    (PyStr.take (dotIndex - filenameIndex) (PyStr.drop filenameIndex p))
                    extsep)
      then (PyStr.take dotIndex p, PyStr.drop dotIndex p)
      else (p, "")
  | None => (p, "")
  end.

End posixpath.

(** ** The progress percentage

    [int((i + 1) / total * 100)] is computed in binary64 arithmetic: a true
    division of two [int]s, a multiplication by [100.0], a truncation
    towards zero.  The division raises [ZeroDivisionError] on a zero
    divisor; that case is decided by the caller ([progress_percent]
    below). *)

Module PyFloat.
Import Floats.SpecFloat.

Definition prec : Z := 53.
Definition emax : Z := 1024.

(** [float(n)] for an [int] within range. *)
Definition of_int (n : Z) : spec_float := binary_normalize prec emax n 0 false.

Definition truediv (a b : Z) : spec_float := SFdiv prec emax (of_int a) (of_int b).

Definition mul (x y : spec_float) : spec_float := SFmul prec emax x y.

(** [int(x)] for a finite [x]: truncation towards zero. *)
Definition to_int (x : spec_float) : Z :=
  match x with
  | S754_finite s m e =>
      let a := match e with
               | Zneg k => Z.shiftr (Zpos m) (Zpos k)
               | _ => Z.shiftl (Zpos m) e
               end in
      if s then Z.opp a else a
  | _ => 0%Z
  end.

(** [int(a / b * 100)] for [b <> 0]. *)
Definition percent (a b : Z) : Z := to_int (mul (truediv a b) (of_int 100)).

End PyFloat.

(** ** Exceptions, values and observable events *)

Inductive errno : Set :=
  ENOENT | EEXIST | EACCES | EPERM | EXDEV | ENOTDIR | EISDIR | EINVAL.

(** The exceptions the modelled code can meet; all derive from
    [Exception], so [except Exception] catches each of them. *)
Inductive exn : Set :=
| ZeroDivisionError
| OSError (code : errno)
| UnicodeDecodeError
| JSONDecodeError
| TclError.

Inductive result (A : Type) : Type :=
| Ok (a : A)
| Raise (e : exn).
Arguments Ok {A} a.
Arguments Raise {A} e.

(** What [json.load] can hand back. *)
#[warnings="-register-all"]
Inductive json : Type :=
| JNull
| JBool (b : bool)
| JNumber (n : Z)
| JString (s : string)
| JArray (items : list json)
| JObject (members : list (string * json)).

(** A line given to [log_status]: the success line carries the output
    path, the error line the source path and [str(e)]. *)
Inductive log_line : Set :=
| Success (output_path : string)
| Failure (file : string) (e : exn).

(** The three [messagebox.showerror] alerts of [validate_inputs], in the
    order of its checks: no file in the list box, an empty output entry,
    [os.makedirs] raising [e] on the output directory. *)
Inductive alert : Set :=
| EmptyInput
| NoDestination
| DestinationCreateError (e : exn).

(** Everything the program does that an observer can see, in the order it
    happens.  An operating-system call is recorded with its answer:
    [None] for a call that returned, [Some e] for one that raised [e]. *)
Inductive event : Set :=
| EvExists (path : string) (answer : bool)
| EvLink (src dst : string) (raised : option exn)
| EvMakedirs (path : string) (raised : option exn)
| EvRead (path : string) (raised : option exn)
| EvWrite (path content : string) (raised : option exn)
| EvProgressBar (value : Z)
| EvStatusLabel (current total : nat)
| EvLogStatus (line : log_line)
| EvLoggingError (e : exn)
| EvShowError (a : alert)
| EvShowInfo (success failure : nat)
| EvProgressWindow (opened : bool)
| EvRootUpdate.

(** ** The collaborators: operating system and JSON codec *)

Record platform (fs : Type) : Type := {
  sys_exists : fs -> string -> bool;              (* os.path.exists *)
  sys_link : fs -> string -> string -> result fs; (* os.link *)
  sys_makedirs : fs -> string -> result fs;       (* os.makedirs *)
  sys_read : fs -> string -> result string;       (* open(p, 'r') and read *)
  sys_write : fs -> string -> string -> result fs;(* open(p, 'w') and write *)
  json_loads : string -> result json;             (* json.load's decoder *)
  json_dumps : list string -> string              (* json.dump's encoder *)
}.
Arguments sys_exists {fs}.
Arguments sys_link {fs}.
Arguments sys_makedirs {fs}.
Arguments sys_read {fs}.
Arguments sys_write {fs}.
Arguments json_loads {fs}.
Arguments json_dumps {fs}.

(** A file system holds finitely many paths. *)
Definition finite_support {fs} (os : platform fs) : Prop :=
  forall d : fs, exists l : list string,
    forall p, sys_exists os d p = true -> In p l.


(** ** Machine state and the monad of the embedding *)

Record state (fs : Type) : Type := mkState {
  disk : fs;                 (* the file system *)
  trace : list event;        (* observable events, oldest first *)
  success_count : nat;       (* locals of [process_files] *)
  error_count : nat
}.
Arguments mkState {fs}.
Arguments disk {fs}.
Arguments trace {fs}.
Arguments success_count {fs}.
Arguments error_count {fs}.

(** The state once the events [evs] have been seen. *)
Definition observe {fs} (evs : list event) (s : state fs) : state fs :=
  mkState (disk s) (trace s ++ evs) (success_count s) (error_count s).

Inductive outcome (fs A : Type) : Type :=
| Returns (a : A) (s : state fs)
| Raises (e : exn) (s : state fs)
| Diverges.   (* the loop budget ran out *)
Arguments Returns {fs A}.
Arguments Raises {fs A}.
Arguments Diverges {fs A}.

Definition M (fs A : Type) : Type := state fs -> outcome fs A.

Definition ret {fs A} (a : A) : M fs A := fun s => Returns a s.

Definition bind {fs A B} (c : M fs A) (k : A -> M fs B) : M fs B :=
  fun s =>
    match c s with
    | Returns a s' => k a s'
    | Raises e s' => Raises e s'
    | Diverges => Diverges
    end.

(** [try: body except Exception as e: handler]; what the body did to the
    state before raising stays done. *)
Definition try_except {fs A} (body : M fs A) (handler : exn -> M fs A) : M fs A :=
  fun s =>
    match body s with
    | Returns a s' => Returns a s'
    | Raises e s' => handler e s'
    | Diverges => Diverges
    end.

Declare Scope py_scope.
Delimit Scope py_scope with py.
Notation "x <- c1 ;; c2" := (bind c1 (fun x => c2))
  (at level 61, c1 at next level, right associativity) : py_scope.
Notation "c1 ;; c2" := (bind c1 (fun _ => c2))
  (at level 61, right associativity) : py_scope.
Local Open Scope py_scope.

(** [while cond(a): a = body(a)], with a budget of condition tests. *)
Fixpoint while_ {fs A} (fuel : nat) (cond : A -> M fs bool) (body : A -> M fs A)
  (a : A) : M fs A :=
  match fuel with
  | O => fun _ => Diverges
  | S fuel' =>
      b <- cond a ;;
      if b then a' <- body a ;; while_ fuel' cond body a' else ret a
  end.

(** [for i, x in enumerate(l, start): body(i, x)]. *)
Fixpoint for_enumerate {fs A} (body : nat -> A -> M fs unit) (start : nat)
  (l : list A) : M fs unit :=
  match l with
  | [] => ret tt
  | x :: rest => body start x ;; for_enumerate body (S start) rest
  end.

(** ** The program *)

(** [RecentPathManager]'s attributes.  [recent_paths] is a list of
    strings: what [__init__] stores when [load_recent_paths] fell back to
    the empty list or decoded an array of strings.  A file that holds
    other valid JSON (an object, a number) leaves a value on which
    [add_path] raises; such managers are outside the embedding. *)
Record RecentPathManager : Type := {
  file_path : string;
  max_entries : Z;
  recent_paths : list string
}.

(** What [validate_inputs] and [create_hardlinks] read of [HardlinkCreator]:
    the rows of the file list box and the text of the output entry. *)
Record HardlinkCreator : Type := {
  files_list : list string;
  output_dir : string
}.

(** [l.remove(x)]: drops the first occurrence of [x]. *)
Fixpoint list_remove (x : string) (l : list string) : list string :=
  match l with
  | [] => []
  | y :: rest => if String.eqb x y then rest else y :: list_remove x rest
  end.

(** [x in l]. *)
Definition list_contains (x : string) (l : list string) : bool :=
  existsb (String.eqb x) l.

Section Program.

Context {fs : Type} (os : platform fs).

(** *** State access *)

Definition emit (ev : event) : M fs unit :=
  fun s => Returns tt (observe [ev] s).

Definition raise {A} (e : exn) : M fs A := fun s => Raises e s.

Definition set_disk (d : fs) : M fs unit :=
  fun s => Returns tt (mkState d (trace s) (success_count s) (error_count s)).

Definition get_disk : M fs fs := fun s => Returns (disk s) s.

Definition set_success_count (n : nat) : M fs unit :=
  fun s => Returns tt (mkState (disk s) (trace s) n (error_count s)).

Definition set_error_count (n : nat) : M fs unit :=
  fun s => Returns tt (mkState (disk s) (trace s) (success_count s) n).

Definition get_success_count : M fs nat := fun s => Returns (success_count s) s.

Definition get_error_count : M fs nat := fun s => Returns (error_count s) s.

(** *** Calls to the operating system, each recorded with its answer *)

Definition os_path_exists (p : string) : M fs bool :=
  d <- get_disk ;;
  let r := sys_exists os d p in
  emit (EvExists p r) ;; ret r.

Definition os_link (src dst : string) : M fs unit :=
  d <- get_disk ;;
  match sys_link os d src dst with
  | Ok d' => emit (EvLink src dst None) ;; set_disk d'
  | Raise e => emit (EvLink src dst (Some e)) ;; raise e
  end.

Definition os_makedirs (p : string) : M fs unit :=
  d <- get_disk ;;
  match sys_makedirs os d p with
  | Ok d' => emit (EvMakedirs p None) ;; set_disk d'
  | Raise e => emit (EvMakedirs p (Some e)) ;; raise e
  end.

Definition read_file (p : string) : M fs string :=
  d <- get_disk ;;
  match sys_read os d p with
  | Ok text => emit (EvRead p None) ;; ret text
  | Raise e => emit (EvRead p (Some e)) ;; raise e
  end.

Definition write_file (p content : string) : M fs unit :=
  d <- get_disk ;;
  match sys_write os d p content with
  | Ok d' => emit (EvWrite p content None) ;; set_disk d'
  | Raise e => emit (EvWrite p content (Some e)) ;; raise e
  end.

Definition json_load (text : string) : M fs json :=
  match json_loads os text with
  | Ok v => ret v
  | Raise e => raise e
  end.

(** *** [RecentPathManager] *)

(** [load_recent_paths]: the [try] block either returns the decoded
    document ([Some]) or falls through ([None]) to the final [return []]. *)
Definition load_recent_paths (self : RecentPathManager) : M fs json :=
  r <- try_except
         (b <- os_path_exists (file_path self) ;;
          if b then
            text <- read_file (file_path self) ;;
            v <- json_load text ;;
            ret (Some v)
          else ret None)
         (fun e => emit (EvLoggingError e) ;; ret None) ;;
  match r with
  | Some v => ret v
  | None => ret (JArray [])
  end.

Definition save_recent_paths (self : RecentPathManager) : M fs unit :=
  try_except
    (write_file (file_path self) (json_dumps os (recent_paths self)))
    (fun e => emit (EvLoggingError e)).

(** [add_path]; the manager is returned with its list as the method
    leaves it. *)
Definition add_path (self : RecentPathManager) (path : string) : M fs RecentPathManager :=
  let paths := recent_paths self in
  let paths := if list_contains path paths then list_remove path paths else paths in
  let paths := path :: paths in                              (* insert(0, path) *)
  let paths := if (Z.of_nat (List.length paths) >? max_entries self)%Z
               then removelast paths                         (* pop() *)
               else paths in
  let self := {| file_path := file_path self;
                 max_entries := max_entries self;
                 recent_paths := paths |} in
  save_recent_paths self ;;
  ret self.

(** *** [HardlinkCreator] *)

(** [log_status], seen as the line it shows; [Tk.log_status] has its
    three calls one by one. *)
Definition log_status (line : log_line) : M fs unit := emit (EvLogStatus line).

(** [progress = int((i + 1) / total * 100)]. *)
Definition progress_percent (i total : nat) : M fs Z :=
  if (total =? 0)%nat then raise ZeroDivisionError
  else ret (PyFloat.percent (Z.of_nat (i + 1)) (Z.of_nat total)).

(** The name tried at round [count] of the collision loop. *)
Definition numbered_path (output_dir base ext : string) (count : nat) : string :=
  let new_name := (base ++ "_" ++ PyStr.str count ++ ext)%string in
  posixpath.join output_dir new_name.

(** The output path of one file: the block of [process_files] between the
    progress update and the link call. *)
Definition resolve_output_path (fuel : nat) (output_dir file : string) : M fs string :=
  let file_name := posixpath.basename file in
  let output_path := posixpath.join output_dir file_name in
  b <- os_path_exists output_path ;;
  if b then
    let '(base, ext) := posixpath.splitext file_name in
    let count := 1 in
    r <- while_ fuel
           (fun '(output_path, count) => os_path_exists output_path)
           (fun '(output_path, count) =>
              ret (numbered_path output_dir base ext count, count + 1))
           (output_path, count) ;;
    ret (fst r)
  else ret output_path.

(** One round of the [for] loop of [process_files]. *)
Definition process_file (fuel total : nat) (output_dir : string) (i : nat)
  (file : string) : M fs unit :=
  try_except
    (progress <- progress_percent i total ;;
     emit (EvProgressBar progress) ;;
     emit (EvStatusLabel (i + 1) total) ;;
     output_path <- resolve_output_path fuel output_dir file ;;
     os_link file output_path ;;
     n <- get_success_count ;; set_success_count (n + 1) ;;
     log_status (Success output_path))
    (fun e =>
       n <- get_error_count ;; set_error_count (n + 1) ;;
       log_status (Failure file e)) ;;
  emit EvRootUpdate.

Definition process_files (fuel : nat) (files : list string) (output_dir : string) : M fs unit :=
  let total := List.length files in
  set_success_count 0 ;;
  set_error_count 0 ;;
  for_enumerate (process_file fuel total output_dir) 0 files ;;
  success <- get_success_count ;;
  failure <- get_error_count ;;
  emit (EvShowInfo success failure) ;;
  emit (EvProgressWindow false).

Definition validate_inputs (self : HardlinkCreator) : M fs bool :=
  if (List.length (files_list self) =? 0)%nat then
    emit (EvShowError EmptyInput) ;; ret false
  else if String.eqb (output_dir self) "" then
    emit (EvShowError NoDestination) ;; ret false
  else
    b <- os_path_exists (output_dir self) ;;
    if negb b then
      try_except
        (os_makedirs (output_dir self) ;; ret true)
        (fun e => emit (EvShowError (DestinationCreateError e)) ;; ret false)
    else ret true.

(** [create_hardlinks]; the worker thread it starts is run to its end. *)
Definition create_hardlinks (fuel : nat) (self : HardlinkCreator) : M fs unit :=
  ok <- validate_inputs self ;;
  if negb ok then ret tt
  else
    let files := files_list self in
    let output_dir := output_dir self in
    emit (EvProgressWindow true) ;;
    process_files fuel files output_dir.

End Program.

(** ** The batch beside widgets that can fail

    [process_files] runs on a worker thread, started by [create_hardlinks]
    and left to itself, while the user is free to close the windows it
    writes to; a write to a destroyed widget raises [TclError].  Here the
    widgets and the log are collaborators like the operating system: each
    call is given the world as it stands and either returns the world it
    leaves or raises.  The world is everything outside the program's
    variables: the file system, the windows and the log file. *)

Record toolkit (world : Type) : Type := {
  progressbar_set : world -> Z -> result world;     (* progress_bar['value'] = v *)
  label_set : world -> nat -> nat -> result world;  (* status_label['text'] = ... *)
  text_insert : world -> log_line -> result world;  (* status_text.insert(tk.END, ...) *)
  text_see : world -> result world;                 (* status_text.see(tk.END) *)
  logging_info : world -> log_line -> result world; (* logging.info(message) *)
  root_update : world -> result world;              (* root.update() *)
  showinfo : world -> nat -> nat -> result world;   (* messagebox.showinfo *)
  window_destroy : world -> result world            (* progress_window.destroy() *)
}.
Arguments progressbar_set {world}.
Arguments label_set {world}.
Arguments text_insert {world}.
Arguments text_see {world}.
Arguments logging_info {world}.
Arguments root_update {world}.
Arguments showinfo {world}.
Arguments window_destroy {world}.

(** Every widget and logging call returns: the windows stay open for as
    long as the batch runs. *)
Definition toolkit_returns {world} (tk : toolkit world) : Prop :=
  (forall d v, exists d', progressbar_set tk d v = Ok d')
  /\ (forall d i n, exists d', label_set tk d i n = Ok d')
  /\ (forall d line, exists d', text_insert tk d line = Ok d')
  /\ (forall d, exists d', text_see tk d = Ok d')
  /\ (forall d line, exists d', logging_info tk d line = Ok d')
  /\ (forall d, exists d', root_update tk d = Ok d')
  /\ (forall d a b, exists d', showinfo tk d a b = Ok d')
  /\ (forall d, exists d', window_destroy tk d = Ok d').

(** Windows that stay open and a log kept out of the world: every call
    returns and leaves the world as it found it.  With this toolkit the
    batch of [Tk] is the batch embedded above. *)
Definition steady {world} : toolkit world := {|
  progressbar_set := fun d _ => Ok d;
  label_set := fun d _ _ => Ok d;
  text_insert := fun d _ => Ok d;
  text_see := fun d => Ok d;
  logging_info := fun d _ => Ok d;
  root_update := fun d => Ok d;
  showinfo := fun d _ _ => Ok d;
  window_destroy := fun d => Ok d
|}.

Module Tk.

Section Batch.

Context {world : Type} (os : platform world) (tk : toolkit world).

(** A call to the toolkit; the events [evs] are seen when it returns. *)
Definition call (op : world -> result world) (evs : list event) : M world unit :=
  fun s =>
    match op (disk s) with
    | Ok d' => Returns tt (mkState d' (trace s ++ evs) (success_count s) (error_count s))
    | Raise e => Raises e s
    end.

Definition log_status (line : log_line) : M world unit :=
  call (fun d => text_insert tk d line) [EvLogStatus line] ;;
  call (text_see tk) [] ;;
  call (fun d => logging_info tk d line) [].

(** One round of the [for] loop of [process_files]: the two progress
    writes stand inside the [try], the handler's [log_status] and
    [root.update()] outside of any. *)
Definition process_file (fuel total : nat) (output_dir : string) (i : nat)
  (file : string) : M world unit :=
  try_except
    (progress <- progress_percent i total ;;
     call (fun d => progressbar_set tk d progress) [EvProgressBar progress] ;;
     call (fun d => label_set tk d (i + 1) total) [EvStatusLabel (i + 1) total] ;;
     output_path <- resolve_output_path os fuel output_dir file ;;
     os_link os file output_path ;;
     n <- get_success_count ;; set_success_count (n + 1) ;;
     log_status (Success output_path))
    (fun e =>
       n <- get_error_count ;; set_error_count (n + 1) ;;
       log_status (Failure file e)) ;;
  call (root_update tk) [EvRootUpdate].

Definition process_files (fuel : nat) (files : list string) (output_dir : string) :
  M world unit :=
  let total := List.length files in
  set_success_count 0 ;;
  set_error_count 0 ;;
  for_enumerate (process_file fuel total output_dir) 0 files ;;
  success <- get_success_count ;;
  failure <- get_error_count ;;
  call (fun d => showinfo tk d success failure) [EvShowInfo success failure] ;;
  call (window_destroy tk) [EvProgressWindow false].

(** [create_hardlinks] returns as soon as the worker thread is started:
    its answer is the thread's target, the closure [process_files] over
    the rows and the entry text read before the progress window was made
    ([None] when validation stopped it).  The target takes the budget of
    its collision loops. *)
Definition create_hardlinks (self : HardlinkCreator) :
  M world (option (nat -> M world unit)) :=
  ok <- validate_inputs os self ;;
  if negb ok then ret None
  else
    let files := files_list self in
    let output_dir := output_dir self in
    emit (EvProgressWindow true) ;;
    ret (Some (fun fuel => process_files fuel files output_dir)).

End Batch.

End Tk.

(** ** An in-memory file system

    One instance of [platform]: a table of paths, each a directory or a
    regular file with its text.  The root always exists; a relative path
    is resolved against a working directory that always exists.  It is the
    stage on which the scenarios below are run. *)

Module MemFS.

Inductive node : Set :=
| Dir
| File (content : string).

Record t : Set := {
  nodes : list (string * node);
  readonly : list string;     (* directories and files that refuse writes *)
  unreadable : list string    (* files that refuse to be opened *)
}.

Definition lookup (d : t) (p : string) : option node :=
  match find (fun n => String.eqb (fst n) p) (nodes d) with
  | Some n => Some (snd n)
  | None => None
  end.

Definition mem (p : string) (l : list string) : bool := existsb (String.eqb p) l.

Definition exists_ (d : t) (p : string) : bool :=
  String.eqb p "/" || match lookup d p with Some _ => true | None => false end.

Definition is_dir (d : t) (p : string) : bool :=
  String.eqb p "/" || String.eqb p ""
  || match lookup d p with Some Dir => true | _ => false end.

Definition add (d : t) (p : string) (n : node) : t :=
  {| nodes := (p, n) :: nodes d; readonly := readonly d; unreadable := unreadable d |}.

(** Whether a new entry may appear at [p]. *)
Definition check_create (d : t) (p : string) : option errno :=
  let parent := posixpath.dirname p in
  if exists_ d p then Some EEXIST
  else if negb (is_dir d parent) then
    Some (if exists_ d parent then ENOTDIR else ENOENT)
  else if mem parent (readonly d) then Some EACCES
  else None.

Definition link (d : t) (src dst : string) : result t :=
  match lookup d src with
  | None => Raise (OSError (if String.eqb src "/" then EPERM else ENOENT))
  | Some Dir => Raise (OSError EPERM)
  | Some (File text) =>
      match check_create d dst with
      | Some code => Raise (OSError code)
      | None => Ok (add d dst (File text))
      end
  end.

Definition mkdir (d : t) (p : string) : result t :=
  match check_create d p with
  | Some code => Raise (OSError code)
  | None => Ok (add d p Dir)
  end.

(** [os.makedirs]: missing parents first, then the directory itself. *)
Fixpoint makedirs_rec (fuel : nat) (d : t) (name : string) : result t :=
  match fuel with
  | O => Raise (OSError EINVAL)
  | S fuel' =>
      let head := posixpath.dirname name in
      if negb (String.eqb head "") && negb (String.eqb head name) && negb (exists_ d head)
      then match makedirs_rec fuel' d head with
           | Ok d' => mkdir d' name
           | Raise e => Raise e
           end
      else mkdir d name
  end.

Definition makedirs (d : t) (name : string) : result t :=
  makedirs_rec (S (String.length name)) d name.

Definition read (d : t) (p : string) : result string :=
  match lookup d p with
  | None => Raise (OSError (if String.eqb p "/" then EISDIR else ENOENT))
  | Some Dir => Raise (OSError EISDIR)
  | Some (File text) => if mem p (unreadable d) then Raise (OSError EACCES) else Ok text
  end.

Definition write (d : t) (p text : string) : result t :=
  match lookup d p with
  | Some Dir => Raise (OSError EISDIR)
  | Some (File _) =>
      if mem p (readonly d) then Raise (OSError EACCES) else Ok (add d p (File text))
  | None =>
      match check_create d p with
      | Some code => Raise (OSError code)
      | None => Ok (add d p (File text))
      end
  end.

(** A codec for arrays of strings that need no escaping. *)
Definition quote : ascii := "034"%char.

Definition dumps (l : list string) : string :=
  ("[" ++ String.concat ", " (map (fun s => String quote (s ++ String quote "")) l) ++ "]")%string.

Definition is_space (c : ascii) : bool :=
  Ascii.eqb c " "%char || Ascii.eqb c "010"%char.

Fixpoint skip_spaces (s : string) : string :=
  match s with
  | String c rest => if is_space c then skip_spaces rest else s
  | EmptyString => s
  end.

(** The text up to the closing quote, and what follows it. *)
Fixpoint string_body (s : string) : option (string * string) :=
  match s with
  | EmptyString => None
  | String c rest =>
      if Ascii.eqb c quote then Some (EmptyString, rest)
      else if Ascii.eqb c "092"%char then None
      else match string_body rest with
           | Some (body, after) => Some (String c body, after)
           | None => None
           end
  end.

(** The items of an array after its opening bracket. *)
Fixpoint array_items (fuel : nat) (s : string) : option (list json) :=
  match fuel, skip_spaces s with
  | S fuel', String c rest =>
      if Ascii.eqb c quote then
        match string_body rest with
        | Some (body, after) =>
            match skip_spaces after with
            | String c' rest' =>
                if Ascii.eqb c' ","%char then
                  option_map (cons (JString body)) (array_items fuel' rest')
                else if Ascii.eqb c' "]"%char then
                  match skip_spaces rest' with
                  | EmptyString => Some [JString body]
                  | _ => None
                  end
                else None
            | EmptyString => None
            end
        | None => None
        end
      else None
  | _, _ => None
  end.

Definition loads (s : string) : result json :=
  match skip_spaces s with
  | String c rest =>
      if Ascii.eqb c "["%char then
        match skip_spaces rest with
        | String "]" rest' =>
            match skip_spaces rest' with
            | EmptyString => Ok (JArray [])
            | _ => Raise JSONDecodeError
            end
        | _ =>
            match array_items (String.length rest) rest with
            | Some items => Ok (JArray items)
            | None => Raise JSONDecodeError
            end
        end
      else Raise JSONDecodeError
  | EmptyString => Raise JSONDecodeError
  end.

Definition os : platform t := {|
  sys_exists := exists_;
  sys_link := link;
  sys_makedirs := makedirs;
  sys_read := read;
  sys_write := write;
  json_loads := loads;
  json_dumps := dumps
|}.

(** A machine that has done nothing yet. *)
Definition boot (d : t) : state t :=
  {| disk := d; trace := []; success_count := 0; error_count := 0 |}.

(** A disk of plain entries, nothing write-protected. *)
Definition plain (l : list (string * node)) : t :=
  {| nodes := l; readonly := []; unreadable := [] |}.

End MemFS.

(** ** A desk: the in-memory file system, the log file and two windows

    The world of the scenarios with widgets: the table of paths and, kept
    apart from it, the records of the dated log file.  Which windows are
    still open is fixed for a run: a write to a widget of the progress
    window raises [TclError] once that window is closed, and so does any
    Tk call once the main window is gone. *)

Module Desk.

Record t : Set := {
  files : MemFS.t;
  log_file : list log_line
}.

Record windows : Set := {
  progress_window : bool;
  main_window : bool
}.

Definition all_open : windows := {| progress_window := true; main_window := true |}.

Definition on_files (w : t) (r : result MemFS.t) : result t :=
  match r with
  | Ok d => Ok {| files := d; log_file := log_file w |}
  | Raise e => Raise e
  end.

Definition os : platform t := {|
  sys_exists := fun w p => MemFS.exists_ (files w) p;
  sys_link := fun w src dst => on_files w (MemFS.link (files w) src dst);
  sys_makedirs := fun w p => on_files w (MemFS.makedirs (files w) p);
  sys_read := fun w p => MemFS.read (files w) p;
  sys_write := fun w p text => on_files w (MemFS.write (files w) p text);
  json_loads := MemFS.loads;
  json_dumps := MemFS.dumps
|}.

(** A call on a widget of a window that is open or not. *)
Definition widget (open : bool) (w : t) : result t :=
  if open then Ok w else Raise TclError.

Definition tk (g : windows) : toolkit t := {|
  progressbar_set := fun w _ => widget (progress_window g) w;
  label_set := fun w _ _ => widget (progress_window g) w;
  text_insert := fun w _ => widget (main_window g) w;
  text_see := fun w => widget (main_window g) w;
  logging_info := fun w line => Ok {| files := files w; log_file := log_file w ++ [line] |};
  root_update := fun w => widget (main_window g) w;
  showinfo := fun w _ _ => widget (main_window g) w;
  window_destroy := fun w => widget (main_window g) w
|}.

(** A desk on which nothing has happened yet. *)
Definition boot (d : MemFS.t) : state t :=
  {| disk := {| files := d; log_file := [] |};
     trace := []; success_count := 0; error_count := 0 |}.

End Desk.

(** ** Vocabulary of the statements *)

(** A computation that takes a loop budget settles on [(a, s')] when every
    large enough budget makes it return [a] in state [s']. *)
Definition settles {fs A} (c : nat -> M fs A) (s : state fs) (a : A) (s' : state fs) : Prop :=
  exists fuel0, forall fuel, fuel0 <= fuel -> c fuel s = Returns a s'.

(** A computation whose answer no longer depends on the budget once the
    budget suffices. *)
Definition stable {fs A} (c : nat -> M fs A) : Prop :=
  forall fuel fuel' s, fuel <= fuel' -> c fuel s <> Diverges -> c fuel' s = c fuel s.

(** [k] is the least index from [start] on whose name is not taken. *)
Definition first_free_from (taken : string -> bool) (name : nat -> string)
  (start k : nat) : Prop :=
  start <= k /\ taken (name k) = false /\
  forall j, start <= j < k -> taken (name j) = true.

(** The existence tests of rounds [start, start + n) of the collision loop,
    each answered yes. *)
Definition taken_probes (name : nat -> string) (start n : nat) : list event :=
  map (fun j => EvExists (name j) true) (seq start n).

(** How one file's output path comes about on a file system where [taken]
    tells which paths exist: the path, and the existence tests made. *)
Inductive resolves (taken : string -> bool) (output_dir file : string) :
  string -> list event -> Prop :=
| resolves_plain :
    let output_path := posixpath.join output_dir (posixpath.basename file) in
    taken output_path = false ->
    resolves taken output_dir file output_path [EvExists output_path false]
| resolves_numbered (k : nat) :
    let file_name := posixpath.basename file in
    let output_path := posixpath.join output_dir file_name in
    let name := numbered_path output_dir (fst (posixpath.splitext file_name))
                  (snd (posixpath.splitext file_name)) in
    taken output_path = true ->
    first_free_from taken name 1 k ->
    resolves taken output_dir file (name k)
      (EvExists output_path true :: EvExists output_path true
         :: taken_probes name 1 (k - 1) ++ [EvExists (name k) false]).

(** The hard-link calls of a trace, the lines logged, the progress values. *)
Definition link_calls (evs : list event) : list (string * string * option exn) :=
  flat_map (fun ev => match ev with EvLink src dst r => [(src, dst, r)] | _ => [] end) evs.

Definition log_lines (evs : list event) : list log_line :=
  flat_map (fun ev => match ev with EvLogStatus line => [line] | _ => [] end) evs.

Definition progress_values (evs : list event) : list Z :=
  flat_map (fun ev => match ev with EvProgressBar v => [v] | _ => [] end) evs.

(** The line [process_files] logs for a link call. *)
Definition line_of_call (call : string * string * option exn) : log_line :=
  match call with
  | (src, dst, None) => Success dst
  | (src, dst, Some e) => Failure src e
  end.

Definition is_success (line : log_line) : bool :=
  match line with Success _ => true | Failure _ _ => false end.

Definition is_failure (line : log_line) : bool := negb (is_success line).

(** [line] is an outcome of the source [file]: a failure names the source,
    a success names the source's base name in the output directory,
    possibly numbered. *)
Definition outcome_of (output_dir file : string) (line : log_line) : Prop :=
  match line with
  | Failure f _ => f = file
  | Success out =>
      let file_name := posixpath.basename file in
      out = posixpath.join output_dir file_name
      \/ exists k, 1 <= k /\
           out = numbered_path output_dir (fst (posixpath.splitext file_name))
                   (snd (posixpath.splitext file_name)) k
  end.

(** The events of one round of the batch loop around its existence
    tests [probes] and its link call. *)
Definition round_events (total i : nat) (file out : string) (probes : list event)
  (raised : option exn) : list event :=
  [EvProgressBar (PyFloat.percent (Z.of_nat (i + 1)) (Z.of_nat total));
   EvStatusLabel (i + 1) total]
  ++ probes
  ++ [EvLink file out raised; EvLogStatus (line_of_call (file, out, raised)); EvRootUpdate].

(** One round of the batch loop, as a relation between the states before
    and after it. *)
Definition round {fs} (os : platform fs) (total : nat) (output_dir : string)
  (i : nat) (file : string) (s s' : state fs) : Prop :=
  exists out probes,
    resolves (sys_exists os (disk s)) output_dir file out probes /\
    match sys_link os (disk s) file out with
    | Ok d' =>
        s' = mkState d' (trace s ++ round_events total i file out probes None)
               (success_count s + 1) (error_count s)
    | Raise e =>
        s' = mkState (disk s) (trace s ++ round_events total i file out probes (Some e))
               (success_count s) (error_count s + 1)
    end.

(** The rounds of the batch loop over [files], from index [i] on. *)
Inductive rounds {fs} (os : platform fs) (total : nat) (output_dir : string) :
  nat -> list string -> state fs -> state fs -> Prop :=
| rounds_nil i s : rounds os total output_dir i [] s s
| rounds_cons i file rest s s1 s2 :
    round os total output_dir i file s s1 ->
    rounds os total output_dir (S i) rest s1 s2 ->
    rounds os total output_dir i (file :: rest) s s2.

(** The state [process_files] starts its loop in. *)
Definition counters_reset {fs} (s : state fs) : state fs := mkState (disk s) (trace s) 0 0.

(** The state [process_files] ends in, given the state after its loop. *)
Definition reported {fs} (s : state fs) : state fs :=
  observe [EvShowInfo (success_count s) (error_count s); EvProgressWindow false] s.

(** Whether a link call raised. *)
Definition call_raised (call : string * string * option exn) : bool :=
  match snd call with Some _ => true | None => false end.

(** ** The main window

    The rest of [HardlinkCreator] and [DragDropListbox]: the rows of the
    file list box, the output entry, the recent-path manager and the list
    box that shows its paths.  What a dialog or a drop hands over, and
    what [curselection()] answers, are arguments of the handlers. *)

(** [listbox.insert(tk.END, row)]. *)
Definition listbox_insert_end (row : string) (rows : list string) : list string :=
  rows ++ [row].

(** [listbox.delete(index)]: the row at [index] goes, the rows after it
    move up; an index past the last row deletes nothing. *)
Fixpoint listbox_delete (index : nat) (rows : list string) : list string :=
  match rows, index with
  | [], _ => []
  | _ :: rest, O => rest
  | row :: rest, S index' => row :: listbox_delete index' rest
  end.

(** [listbox.delete(0, tk.END)]. *)
Definition listbox_delete_all (rows : list string) : list string := [].

(** [for x in l: rows = step(x, rows)]. *)
Definition for_each {A} (step : A -> list string -> list string) (l : list A)
  (rows : list string) : list string :=
  fold_left (fun rows x => step x rows) l rows.

Record Window : Type := {
  creator : HardlinkCreator;          (* file list rows and output entry *)
  recent_manager : RecentPathManager;
  recent_listbox : list string
}.

Definition with_files (w : Window) (rows : list string) : Window :=
  {| creator := {| files_list := rows; output_dir := output_dir (creator w) |};
     recent_manager := recent_manager w;
     recent_listbox := recent_listbox w |}.

(** [get_all_files]. *)
Definition get_all_files (w : Window) : list string := files_list (creator w).

(** [add_files], with [files] what [askopenfilenames] returned. *)
Definition add_files (files : list string) (w : Window) : Window :=
  with_files w (for_each listbox_insert_end files (files_list (creator w))).

(** [on_drop], with [files] what [splitlist(event.data)] returned; the
    two debugging [print]s are left out. *)
Definition on_drop (files : list string) (w : Window) : Window :=
  with_files w (for_each listbox_insert_end files (files_list (creator w))).

(** [remove_selected], with [selection] what [curselection()] returned. *)
Definition remove_selected (selection : list nat) (w : Window) : Window :=
  with_files w (for_each listbox_delete (rev selection) (files_list (creator w))).

(** [clear_all]. *)
Definition clear_all (w : Window) : Window :=
  with_files w (listbox_delete_all (files_list (creator w))).

(** [update_recent_paths]. *)
Definition update_recent_paths (w : Window) : Window :=
  {| creator := creator w;
     recent_manager := recent_manager w;
     recent_listbox :=
       for_each listbox_insert_end (recent_paths (recent_manager w))
         (listbox_delete_all (recent_listbox w)) |}.

(** [select_output_dir], with [dir_path] what [askdirectory] returned (the
    empty string when the dialog is cancelled). *)
Definition select_output_dir {fs} (os : platform fs) (dir_path : string) (w : Window) :
  M fs Window :=
  if negb (String.eqb dir_path "") then
    manager <- add_path os (recent_manager w) dir_path ;;
    ret (update_recent_paths
           {| creator := {| files_list := files_list (creator w); output_dir := dir_path |};
              recent_manager := manager;
              recent_listbox := recent_listbox w |})
  else ret w.

(** A series of calls to [add_path], one per path, oldest first. *)
Fixpoint add_paths {fs} (os : platform fs) (self : RecentPathManager)
  (paths : list string) : M fs RecentPathManager :=
  match paths with
  | [] => ret self
  | path :: rest => self' <- add_path os self path ;; add_paths os self' rest
  end.

(** ** [ThemeManager]

    A theme is the dictionary of nine colours.  A widget is seen through
    the options a theme can set; whether [configure] accepts [bg] and [fg]
    depends on the widget (a [tk.Listbox] accepts both, other widgets may
    reject either with a [TclError]).  The [ttk.Style] table is seen
    through the seven entries [toggle_theme] configures. *)

Module ThemeManager.

Record theme : Set := {
  bg : string; fg : string;
  select_bg : string; select_fg : string;
  button : string; button_fg : string;
  frame : string;
  entry : string; entry_fg : string
}.

Definition light : theme :=
  {| bg := "#ffffff"; fg := "#000000"; select_bg := "#0078d7"; select_fg := "#ffffff";
     button := "#f0f0f0"; button_fg := "#000000"; frame := "#f5f5f5";
     entry := "#ffffff"; entry_fg := "#000000" |}.

Definition dark : theme :=
  {| bg := "#2d2d2d"; fg := "#ffffff"; select_bg := "#0078d7"; select_fg := "#ffffff";
     button := "#3d3d3d"; button_fg := "#ffffff"; frame := "#363636";
     entry := "#1e1e1e"; entry_fg := "#ffffff" |}.

(** [isinstance(widget, tk.Listbox)], and for the other widgets whether
    [configure(bg=...)] and [configure(fg=...)] are accepted. *)
Inductive kind : Set :=
| Listbox
| Other (accepts_bg accepts_fg : bool).

Record options : Set := {
  background : string;
  foreground : string;
  selectbackground : string;
  selectforeground : string
}.

#[warnings="-register-all"]
Inductive widget : Set :=
| Widget (k : kind) (o : options) (winfo_children : list widget).

Record style : Set := {
  TFrame_background : string;
  TLabel_background : string; TLabel_foreground : string;
  TButton_background : string; TButton_foreground : string;
  TEntry_fieldbackground : string; TEntry_foreground : string
}.

(** [get_current_theme]. *)
Definition get_current_theme (dark_mode : bool) : theme :=
  if dark_mode then dark else light.

Definition set_bg (c : string) (o : options) : options :=
  {| background := c; foreground := foreground o;
     selectbackground := selectbackground o; selectforeground := selectforeground o |}.

Definition set_fg (c : string) (o : options) : options :=
  {| background := background o; foreground := c;
     selectbackground := selectbackground o; selectforeground := selectforeground o |}.

(** [try: configure(bg=...); configure(fg=...) except: pass]: a rejected
    [bg] ends the block before [fg] is tried. *)
Definition try_bg_fg (k : kind) (th : theme) (o : options) : options :=
  match k with
  | Listbox => set_fg (fg th) (set_bg (bg th) o)
  | Other accepts_bg accepts_fg =>
      if accepts_bg then
        if accepts_fg then set_fg (fg th) (set_bg (bg th) o) else set_bg (bg th) o
      else o
  end.

(** [if isinstance(widget, tk.Listbox): widget.configure(...)]. *)
Definition configure_listbox (k : kind) (th : theme) (o : options) : options :=
  match k with
  | Listbox => {| background := entry th; foreground := entry_fg th;
                  selectbackground := select_bg th; selectforeground := select_fg th |}
  | Other _ _ => o
  end.

(** [_update_widget_colors]. *)
Fixpoint _update_widget_colors (w : widget) (th : theme) : widget :=
  match w with
  | Widget k o children =>
      Widget k (configure_listbox k th (try_bg_fg k th o))
        (map (fun child => _update_widget_colors child th) children)
  end.

(** [toggle_theme]: the flag, the style table and the root window, before
    and after. *)
Definition toggle_theme (dark_mode : bool) (st : style) (root : widget) :
  bool * style * widget :=
  let dark_mode := negb dark_mode in
  let th := get_current_theme dark_mode in
  let st := {| TFrame_background := frame th;
               TLabel_background := frame th; TLabel_foreground := fg th;
               TButton_background := button th; TButton_foreground := button_fg th;
               TEntry_fieldbackground := entry th; TEntry_foreground := entry_fg th |} in
  match root with
  | Widget k o children =>
      (dark_mode, st,
       Widget k o (map (fun widget => _update_widget_colors widget th) children))
  end.

(** The kinds of a widget tree, without the colours. *)
Fixpoint shape (w : widget) : widget :=
  match w with
  | Widget k _ children =>
      Widget k {| background := ""; foreground := ""; selectbackground := "";
                  selectforeground := "" |} (map shape children)
  end.

(** The widgets of a tree, the root first. *)
Fixpoint widgets (w : widget) : list (kind * options) :=
  match w with
  | Widget k o children => (k, o) :: flat_map widgets children
  end.

End ThemeManager.

(** ** More vocabulary *)

(** The rows whose index, counted from [i], is not selected. *)
Fixpoint unselected_rows (selection : list nat) (i : nat) (rows : list string) :
  list string :=
  match rows with
  | [] => []
  | row :: rest =>
      if existsb (Nat.eqb i) selection then unselected_rows selection (S i) rest
      else row :: unselected_rows selection (S i) rest
  end.

(** The distinct paths of a history of uses, most recently used first. *)
Definition most_recent_first (history : list string) : list string :=
  rev (nodup string_dec history).

(** Whether the character [c] occurs in [s]. *)
Fixpoint occurs (c : ascii) (s : string) : bool :=
  match s with
  | EmptyString => false
  | String a rest => Ascii.eqb a c || occurs c rest
  end.

(** The output paths of the link calls that returned. *)
Definition linked_paths (evs : list event) : list string :=
  flat_map (fun call => match call with (_, dst, None) => [dst] | _ => [] end)
    (link_calls evs).

(** A link call that returns leaves its destination in existence and
    takes no path away. *)
Definition link_adds_destination {fs} (os : platform fs) : Prop :=
  forall d src dst d', sys_link os d src dst = Ok d' ->
    sys_exists os d' dst = true
    /\ forall p, sys_exists os d p = true -> sys_exists os d' p = true.

(** Whether an event is a call to the operating system that can change
    it, other than a hard link. *)
Definition is_foreign_write (ev : event) : bool :=
  match ev with
  | EvMakedirs _ _ | EvWrite _ _ _ => true
  | _ => false
  end.

(** The shape of a resolved output path: the output directory, at most
    one separator, and a separator-free name that is the source's base
    name, or that name with [_k] put before its extension. *)
Definition lands_in (output_dir file out : string) : Prop :=
  exists name,
    occurs posixpath.sep name = false
    /\ (out = (output_dir ++ name)%string \/ out = (output_dir ++ "/" ++ name)%string)
    /\ (name = posixpath.basename file
        \/ exists k stem ext,
             1 <= k
             /\ (stem ++ ext)%string = posixpath.basename file
             /\ (ext = "" \/ exists rest, ext = String posixpath.extsep rest)
             /\ name = (stem ++ "_" ++ PyStr.str k ++ ext)%string).

(** One more [toggle_theme], on what the last one left. *)
Definition toggled (x : bool * ThemeManager.style * ThemeManager.widget) :
  bool * ThemeManager.style * ThemeManager.widget :=
  ThemeManager.toggle_theme (fst (fst x)) (snd (fst x)) (snd x).

(** What [_update_widget_colors] does to the options of one widget. *)
Definition recoloured (th : ThemeManager.theme) (before after : ThemeManager.kind * ThemeManager.options) :
  Prop :=
  fst after = fst before
  /\ match fst before with
     | ThemeManager.Listbox =>
         snd after = {| ThemeManager.background := ThemeManager.entry th;
                        ThemeManager.foreground := ThemeManager.entry_fg th;
                        ThemeManager.selectbackground := ThemeManager.select_bg th;
                        ThemeManager.selectforeground := ThemeManager.select_fg th |}
     | ThemeManager.Other true true =>
         snd after = ThemeManager.set_fg (ThemeManager.fg th)
                       (ThemeManager.set_bg (ThemeManager.bg th) (snd before))
     | ThemeManager.Other true false =>
         snd after = ThemeManager.set_bg (ThemeManager.bg th) (snd before)
     | ThemeManager.Other false _ => snd after = snd before
     end.

(** ** Scenario data *)

(** Two sources of the same base name and an output directory that is
    empty at first. *)
Definition fresh_disk : MemFS.t :=
  MemFS.plain [("/a", MemFS.Dir); ("/a/report.txt", MemFS.File "one");
               ("/b", MemFS.Dir); ("/b/report.txt", MemFS.File "two");
               ("/out", MemFS.Dir)].

(** A disk for the scenarios: two sources of the same base name, an output
    directory that already holds that name and its first numbered
    variant, and a corrupt recent-paths file. *)
Definition scenario_disk : MemFS.t :=
  MemFS.plain [("/a", MemFS.Dir); ("/a/report.txt", MemFS.File "one");
               ("/b", MemFS.Dir); ("/b/report.txt", MemFS.File "two");
               ("/out", MemFS.Dir); ("/out/report.txt", MemFS.File "old");
               ("/out/report_1.txt", MemFS.File "older");
               ("recent_paths.json", MemFS.File "{oops")].

(** The same paths, with the output directory write-protected. *)
Definition protected_disk : MemFS.t :=
  {| MemFS.nodes := MemFS.nodes scenario_disk;
     MemFS.readonly := ["/out"];
     MemFS.unreadable := [] |}.


(** An output directory three levels deep, none of which exists yet. *)
Definition deep_request : HardlinkCreator :=
  {| files_list := ["/a/report.txt"]; output_dir := "/x/y/z" |}.

(** A manager on the default file, and one whose list is full. *)
Definition recent_file : RecentPathManager :=
  {| file_path := "recent_paths.json"; max_entries := 10; recent_paths := [] |}.

Definition recent_three : RecentPathManager :=
  {| file_path := "recent_paths.json"; max_entries := 3;
     recent_paths := ["/out"; "/x/y"; "/a"] |}.

(** A window with five files listed. *)
Definition five_rows : Window :=
  {| creator := {| files_list := ["/a"; "/b"; "/c"; "/d"; "/e"]; output_dir := "/out" |};
     recent_manager := recent_three;
     recent_listbox := recent_paths recent_three |}.

(** * Properties *)

(** ** Strings and candidate names *)

Lemma append_cancel_l (s a b : string) : (s ++ a)%string = (s ++ b)%string -> a = b.
Proof.
  induction s as [|c s IH]; simpl; intros H.
  - exact H.
  - injection H as H. auto.
Qed.

Lemma length_append (a b : string) :
  String.length (a ++ b) = String.length a + String.length b.
Proof.
  induction a as [|c a IH]; simpl; [reflexivity | now rewrite IH].
Qed.

Lemma append_cancel_r (t a b : string) : (a ++ t)%string = (b ++ t)%string -> a = b.
Proof.
  revert b. induction a as [|c a IH]; intros [|c' b] H; simpl in H.
  - reflexivity.
  - apply (f_equal String.length) in H. simpl in H.
    rewrite length_append in H. lia.
  - apply (f_equal String.length) in H. simpl in H.
    rewrite length_append in H. lia.
  - injection H as Hc H. subst c'. f_equal. now apply IH.
Qed.

Lemma str_inj (a b : nat) : PyStr.str a = PyStr.str b -> a = b.
Proof.
  unfold PyStr.str. intros H.
  apply DecimalNat.Unsigned.to_uint_inj.
  apply (f_equal NilEmpty.uint_of_string) in H.
  rewrite !NilEmpty.usu in H. now injection H.
Qed.

Lemma join_cancel (a x y : string) :
  PyStr.startswith x posixpath.sep = PyStr.startswith y posixpath.sep ->
  posixpath.join a x = posixpath.join a y -> x = y.
Proof.
  unfold posixpath.join. intros <-.
  destruct (PyStr.startswith x posixpath.sep); [auto|].
  destruct (String.eqb a "" || PyStr.endswith a posixpath.sep); intros H.
  - now apply append_cancel_l in H.
  - apply append_cancel_l in H. now injection H.
Qed.

Lemma startswith_numbered (base ext : string) (j k : nat) (c : ascii) :
  PyStr.startswith (base ++ "_" ++ PyStr.str j ++ ext) c
  = PyStr.startswith (base ++ "_" ++ PyStr.str k ++ ext) c.
Proof. destruct base; reflexivity. Qed.

(** Two rounds of the collision loop never try the same name. *)
Lemma numbered_path_inj (output_dir base ext : string) (j k : nat) :
  numbered_path output_dir base ext j = numbered_path output_dir base ext k -> j = k.
Proof.
  unfold numbered_path. intros H.
  apply join_cancel in H; [|apply startswith_numbered].
  apply append_cancel_l in H. apply append_cancel_l in H.
  apply append_cancel_r in H. now apply str_inj.
Qed.

(** ** The first free name

    On a file system of finitely many paths some numbered name is free, and
    hence a least one. *)

Section FirstFree.

Variable taken : string -> bool.
Variable name : nat -> string.
Hypothesis name_inj : forall j k, name j = name k -> j = k.

Lemma first_free_unique (start k k' : nat) :
  first_free_from taken name start k -> first_free_from taken name start k' -> k = k'.
Proof.
  intros (Hk & Hf & Hlt) (Hk' & Hf' & Hlt').
  destruct (Nat.lt_trichotomy k k') as [H|[H|H]]; [|assumption|].
  - rewrite Hlt' in Hf by lia. discriminate.
  - rewrite Hlt in Hf' by lia. discriminate.
Qed.

Lemma first_free_search (n start : nat) :
  (exists k, start <= k < start + n /\ taken (name k) = false) ->
  exists k, first_free_from taken name start k.
Proof.
  revert start. induction n as [|n IH]; intros start (k & Hk & Hfree).
  - lia.
  - destruct (taken (name start)) eqn:Hs.
    + destruct (IH (S start)) as (k' & Hk' & Hf' & Hlt').
      * exists k. split; [|assumption].
        assert (k <> start) by (intros ->; congruence). lia.
      * exists k'. repeat split; [lia|assumption|].
        intros j Hj. destruct (Nat.eq_dec j start) as [->|]; [assumption|].
        apply Hlt'. lia.
    + exists start. repeat split; [lia|assumption|intros; lia].
Qed.

Lemma some_name_free (l : list string) (start : nat) :
  (forall p, taken p = true -> In p l) ->
  exists k, start <= k < start + S (List.length l) /\ taken (name k) = false.
Proof.
  intros Hfin.
  destruct (forallb (fun k => taken (name k)) (seq start (S (List.length l)))) eqn:Hall.
  - exfalso. rewrite forallb_forall in Hall.
    assert (Hnd : NoDup (map name (seq start (S (List.length l))))).
    { apply NoDup_map_NoDup_ForallPairs; [|apply seq_NoDup].
      intros j k _ _. apply name_inj. }
    apply NoDup_incl_length with (l' := l) in Hnd.
    + rewrite length_map, length_seq in Hnd. lia.
    + intros p Hp. apply in_map_iff in Hp as (k & <- & Hk). auto.
  - apply not_true_iff_false in Hall.
    destruct (existsb (fun k => negb (taken (name k))) (seq start (S (List.length l)))) eqn:Hex.
    + apply existsb_exists in Hex as (k & Hk & Hfree).
      apply in_seq in Hk. exists k. split; [lia|].
      now apply negb_true_iff.
    + exfalso. apply Hall. apply forallb_forall. intros k Hk.
      destruct (taken (name k)) eqn:Ht; [reflexivity|].
      assert (existsb (fun k => negb (taken (name k))) (seq start (S (List.length l))) = true).
      { apply existsb_exists. exists k. now rewrite Ht. }
      congruence.
Qed.

Lemma first_free_exists (l : list string) (start : nat) :
  (forall p, taken p = true -> In p l) ->
  exists k, first_free_from taken name start k.
Proof.
  intros Hfin. eapply first_free_search, some_name_free, Hfin.
Qed.

End FirstFree.

(** ** Runs of the collision loop *)

Lemma observe_observe {fs} (a b : list event) (s : state fs) :
  observe b (observe a s) = observe (a ++ b) s.
Proof. unfold observe; simpl. now rewrite app_assoc. Qed.

Lemma observe_nil {fs} (s : state fs) : observe [] s = s.
Proof. destruct s; unfold observe; simpl. now rewrite app_nil_r. Qed.

Section Runs.

Context {fs : Type} (os : platform fs).

Lemma os_path_exists_run (p : string) (s : state fs) :
  os_path_exists os p s
  = Returns (sys_exists os (disk s) p) (observe [EvExists p (sys_exists os (disk s) p)] s).
Proof. reflexivity. Qed.

(** The loop of [resolve_output_path], unrolled: with the path in hand
    taken and round [count + n] the first to find a free name, it makes
    [n + 2] existence tests and returns that name. *)
Lemma probe_loop_run (output_dir base ext : string) (n : nat) :
  forall (path : string) (count fuel : nat) (s : state fs),
    sys_exists os (disk s) path = true ->
    first_free_from (sys_exists os (disk s)) (numbered_path output_dir base ext)
      count (count + n) ->
    n + 2 <= fuel ->
    while_ fuel
      (fun '(output_path, count) => os_path_exists os output_path)
      (fun '(output_path, count) =>
         ret (numbered_path output_dir base ext count, count + 1))
      (path, count) s
    = Returns (numbered_path output_dir base ext (count + n), count + n + 1)
        (observe (EvExists path true
                    :: taken_probes (numbered_path output_dir base ext) count n
                    ++ [EvExists (numbered_path output_dir base ext (count + n)) false]) s).
Proof.
  induction n as [|n IH]; intros path count fuel s Hpath (Hle & Hfree & Hbelow) Hfuel.
  - destruct fuel as [|[|fuel]]; try lia.
    rewrite Nat.add_0_r in *.
    cbn [while_]. unfold bind at 1. rewrite os_path_exists_run, Hpath.
    unfold bind at 1, ret at 1. cbn [while_].
    unfold bind at 1. rewrite os_path_exists_run.
    cbn [disk observe]. rewrite Hfree. unfold ret.
    rewrite observe_observe. reflexivity.
  - destruct fuel as [|fuel]; try lia.
    cbn [while_]. unfold bind at 1. rewrite os_path_exists_run, Hpath.
    unfold bind at 1, ret at 1.
    rewrite (IH (numbered_path output_dir base ext count) (count + 1) fuel).
    + rewrite observe_observe. unfold taken_probes. cbn [seq map app].
      replace (count + 1) with (S count) by lia.
      replace (S count + n) with (count + S n) by lia. reflexivity.
    + cbn [disk observe]. apply Hbelow. lia.
    + cbn [disk observe]. repeat split; [lia| |].
      * replace (count + 1 + n) with (count + S n) by lia. exact Hfree.
      * intros j Hj. apply Hbelow. lia.
    + lia.
Qed.

(** [resolve_output_path] settles on the path and the tests [resolves]
    describes, and leaves the file system as it was. *)
Lemma resolve_output_path_run (output_dir file out : string) (probes : list event)
  (s : state fs) :
  resolves (sys_exists os (disk s)) output_dir file out probes ->
  exists fuel0, forall fuel, fuel0 <= fuel ->
    resolve_output_path os fuel output_dir file s = Returns out (observe probes s).
Proof.
  intros H. destruct H as [output_path Hfree | k file_name output_path name Htaken Hk].
  - exists 0. intros fuel _. unfold resolve_output_path.
    fold output_path. unfold bind. rewrite os_path_exists_run, Hfree. reflexivity.
  - exists (k + 1). intros fuel Hfuel. unfold resolve_output_path.
    fold file_name. fold output_path. unfold bind at 1.
    rewrite os_path_exists_run, Htaken.
    destruct (posixpath.splitext file_name) as [base ext] eqn:Hsplit.
    cbn [fst snd] in name. unfold bind at 1.
    assert (H1 : 1 <= k) by apply Hk.
    rewrite (probe_loop_run output_dir base ext (k - 1) output_path 1 fuel).
    + unfold ret. cbn [fst]. rewrite observe_observe.
      replace (1 + (k - 1)) with k by lia. reflexivity.
    + exact Htaken.
    + cbn [disk observe]. replace (1 + (k - 1)) with k by lia. exact Hk.
    + lia.
Qed.

(** On a file system of finitely many paths the resolution is defined. *)
Lemma resolves_total (taken : string -> bool) (l : list string) (output_dir file : string) :
  (forall p, taken p = true -> In p l) ->
  exists out probes, resolves taken output_dir file out probes.
Proof.
  intros Hfin.
  destruct (taken (posixpath.join output_dir (posixpath.basename file))) eqn:Ht.
  - destruct (first_free_exists taken
                (numbered_path output_dir
                   (fst (posixpath.splitext (posixpath.basename file)))
                   (snd (posixpath.splitext (posixpath.basename file))))
                (fun j k => numbered_path_inj _ _ _ j k) l 1 Hfin) as (k & Hk).
    eexists _, _. apply (resolves_numbered taken output_dir file k Ht Hk).
  - eexists _, _. apply (resolves_plain taken output_dir file Ht).
Qed.

(** The resolution depends on nothing but which paths exist. *)
Lemma resolves_deterministic (taken taken' : string -> bool) (output_dir file : string)
  (out out' : string) (probes probes' : list event) :
  (forall p, taken p = taken' p) ->
  resolves taken output_dir file out probes ->
  resolves taken' output_dir file out' probes' ->
  out = out' /\ probes = probes'.
Proof.
  intros Heq H H'.
  destruct H as [p Hfree | k file_name p name Htaken Hk];
    destruct H' as [p' Hfree' | k' file_name' p' name' Htaken' Hk'].
  - split; reflexivity.
  - subst p p' file_name'. rewrite Heq in Hfree. congruence.
  - subst p p' file_name. rewrite Heq in Htaken. congruence.
  - assert (k = k').
    { apply (first_free_unique taken' name 1); [|exact Hk'].
      destruct Hk as (H1 & H2 & H3). repeat split; [exact H1| |].
      - now rewrite <- Heq.
      - intros j Hj. rewrite <- Heq. now apply H3. }
    subst k'. split; reflexivity.
Qed.

(** ** Runs of the batch loop *)

(** One round settles, in a state [round] describes. *)
Lemma process_file_run (total : nat) (output_dir : string) (i : nat) (file : string)
  (s : state fs) :
  finite_support os -> total <> 0 ->
  exists s', settles (fun fuel => process_file os fuel total output_dir i file) s tt s'
             /\ round os total output_dir i file s s'.
Proof.
  intros Hfin Htotal.
  destruct (Hfin (disk s)) as (l & Hl).
  destruct (resolves_total _ l output_dir file Hl) as (out & probes & Hres).
  pose (s1 := observe [EvProgressBar (PyFloat.percent (Z.of_nat (i + 1)) (Z.of_nat total));
                       EvStatusLabel (i + 1) total] s).
  destruct (resolve_output_path_run output_dir file out probes s1 Hres) as (fuel0 & Hrun).
  assert (Hstart : forall fuel, fuel0 <= fuel ->
            process_file os fuel total output_dir i file s
            = (try_except
                 (os_link os file out ;;
                  n <- get_success_count ;; set_success_count (n + 1) ;;
                  log_status (Success out))
                 (fun e => n <- get_error_count ;; set_error_count (n + 1) ;;
                           log_status (Failure file e)) ;;
               emit EvRootUpdate) (observe probes s1)).
  { intros fuel Hfuel. unfold process_file, progress_percent.
    apply Nat.eqb_neq in Htotal. rewrite Htotal.
    unfold bind at 1, try_except at 1. unfold bind at 1, ret at 1.
    unfold bind at 1, emit at 1. unfold bind at 1, emit at 1.
    rewrite observe_observe. cbn [app]. fold s1. unfold bind at 1.
    rewrite (Hrun fuel Hfuel). reflexivity. }
  destruct (sys_link os (disk s) file out) as [d'|e] eqn:Hlink.
  - exists (mkState d' (trace s ++ round_events total i file out probes None)
              (success_count s + 1) (error_count s)).
    split.
    + exists fuel0. intros fuel Hfuel. rewrite (Hstart fuel Hfuel).
      unfold bind at 1, try_except, bind at 1, os_link, bind at 1, get_disk.
      cbn [disk observe s1]. rewrite Hlink. cbn. unfold emit, observe. cbn.
      do 2 f_equal. rewrite <- !app_assoc. reflexivity.
    + exists out, probes. split; [exact Hres|]. rewrite Hlink. reflexivity.
  - exists (mkState (disk s) (trace s ++ round_events total i file out probes (Some e))
              (success_count s) (error_count s + 1)).
    split.
    + exists fuel0. intros fuel Hfuel. rewrite (Hstart fuel Hfuel).
      unfold bind at 1, try_except, bind at 1, os_link, bind at 1, get_disk.
      cbn [disk observe s1]. rewrite Hlink. cbn. unfold emit, observe. cbn.
      do 2 f_equal. rewrite <- !app_assoc. reflexivity.
    + exists out, probes. split; [exact Hres|]. rewrite Hlink. reflexivity.
Qed.

(** The loop over [files] settles, having gone through every round. *)
Lemma batch_loop_run (total : nat) (output_dir : string) (files : list string) :
  finite_support os -> List.length files <= total ->
  forall (i : nat) (s : state fs),
  exists s', settles (fun fuel => for_enumerate (process_file os fuel total output_dir) i files)
               s tt s'
             /\ rounds os total output_dir i files s s'.
Proof.
  intros Hfin. induction files as [|file rest IH]; intros Hlen i s.
  - exists s. split; [|constructor]. exists 0. reflexivity.
  - simpl in Hlen.
    destruct (process_file_run total output_dir i file s Hfin) as (s1 & (f1 & H1) & Hround);
      [lia|].
    destruct (IH ltac:(lia) (S i) s1) as (s2 & (f2 & H2) & Hrounds).
    exists s2. split; [|econstructor; eassumption].
    exists (Nat.max f1 f2). intros fuel Hfuel.
    cbn [for_enumerate]. unfold bind. rewrite H1 by lia. apply H2. lia.
Qed.

End Runs.

(** ** What the rounds leave in the trace *)

Lemma link_calls_app (a b : list event) : link_calls (a ++ b) = link_calls a ++ link_calls b.
Proof. apply flat_map_app. Qed.

Lemma log_lines_app (a b : list event) : log_lines (a ++ b) = log_lines a ++ log_lines b.
Proof. apply flat_map_app. Qed.

Lemma progress_values_app (a b : list event) :
  progress_values (a ++ b) = progress_values a ++ progress_values b.
Proof. apply flat_map_app. Qed.

Lemma taken_probes_silent (name : nat -> string) (start n : nat) :
  link_calls (taken_probes name start n) = []
  /\ log_lines (taken_probes name start n) = []
  /\ progress_values (taken_probes name start n) = [].
Proof.
  unfold taken_probes. generalize (seq start n) as l.
  induction l as [|j l IH]; simpl; auto.
Qed.

(** The existence tests of a resolution are neither link calls, nor log
    lines, nor progress updates. *)
Lemma resolves_silent (taken : string -> bool) (output_dir file out : string)
  (probes : list event) :
  resolves taken output_dir file out probes ->
  link_calls probes = [] /\ log_lines probes = [] /\ progress_values probes = [].
Proof.
  intros [p H | k file_name p name H Hk].
  - repeat split; reflexivity.
  - destruct (taken_probes_silent name 1 (k - 1)) as (H1 & H2 & H3).
    change (EvExists p true :: EvExists p true
              :: taken_probes name 1 (k - 1) ++ [EvExists (name k) false])
      with ([EvExists p true; EvExists p true]
              ++ taken_probes name 1 (k - 1) ++ [EvExists (name k) false]).
    rewrite !link_calls_app, !log_lines_app, !progress_values_app, H1, H2, H3.
    repeat split; reflexivity.
Qed.

Lemma round_events_calls (total i : nat) (file out : string) (probes : list event)
  (raised : option exn) :
  link_calls probes = [] -> log_lines probes = [] -> progress_values probes = [] ->
  link_calls (round_events total i file out probes raised) = [(file, out, raised)]
  /\ log_lines (round_events total i file out probes raised)
     = [line_of_call (file, out, raised)]
  /\ progress_values (round_events total i file out probes raised)
     = [PyFloat.percent (Z.of_nat (i + 1)) (Z.of_nat total)].
Proof.
  intros H1 H2 H3. unfold round_events.
  rewrite !link_calls_app, !log_lines_app, !progress_values_app, H1, H2, H3.
  repeat split; reflexivity.
Qed.

(** The path a resolution yields is one of the source's candidate names. *)
Lemma resolves_outcome (taken : string -> bool) (output_dir file out : string)
  (probes : list event) :
  resolves taken output_dir file out probes -> outcome_of output_dir file (Success out).
Proof.
  intros [p H | k file_name p name H Hk]; simpl.
  - left. reflexivity.
  - right. exists k. split; [apply Hk | reflexivity].
Qed.

(** What a run of rounds adds to the trace and to the counters. *)
Lemma rounds_summary {fs} (os : platform fs) (total : nat) (output_dir : string)
  (i : nat) (files : list string) (s s' : state fs) :
  rounds os total output_dir i files s s' ->
  exists evs,
    trace s' = trace s ++ evs
    /\ map (fun call => fst (fst call)) (link_calls evs) = files
    /\ log_lines evs = map line_of_call (link_calls evs)
    /\ progress_values evs
       = map (fun j => PyFloat.percent (Z.of_nat (j + 1)) (Z.of_nat total))
           (seq i (List.length files))
    /\ Forall2 (outcome_of output_dir) files (log_lines evs)
    /\ success_count s' = success_count s + List.length (filter is_success (log_lines evs))
    /\ error_count s' = error_count s + List.length (filter is_failure (log_lines evs)).
Proof.
  induction 1 as [i s | i file rest s s1 s2 Hround Hrounds IH].
  - exists []. rewrite app_nil_r. cbn. repeat split; auto.
  - destruct IH as (evs & Htr & Hsrc & Hlog & Hprog & Hout & Hsc & Hec).
    destruct Hround as (out & probes & Hres & Hlink).
    destruct (resolves_silent _ _ _ _ _ Hres) as (Q1 & Q2 & Q3).
    pose proof (resolves_outcome _ _ _ _ _ Hres) as Hcand.
    assert (Hgen : exists raised,
               trace s1 = trace s ++ round_events total i file out probes raised
               /\ outcome_of output_dir file (line_of_call (file, out, raised))
               /\ success_count s1
                  = success_count s
                    + List.length (filter is_success [line_of_call (file, out, raised)])
               /\ error_count s1
                  = error_count s
                    + List.length (filter is_failure [line_of_call (file, out, raised)])).
    { destruct (sys_link os (disk s) file out) as [d'|e]; subst s1.
      - exists None. cbn. repeat split; auto.
      - exists (Some e). cbn. repeat split; auto. }
    destruct Hgen as (raised & Htr1 & Hout1 & Hsc1 & Hec1).
    destruct (round_events_calls total i file out probes raised Q1 Q2 Q3) as (R1 & R2 & R3).
    exists (round_events total i file out probes raised ++ evs).
    rewrite link_calls_app, log_lines_app, progress_values_app, R1, R2, R3.
    repeat split.
    + rewrite Htr, Htr1. now rewrite app_assoc.
    + cbn. now rewrite Hsrc.
    + cbn. now rewrite Hlog.
    + cbn. now rewrite Hprog.
    + cbn. constructor; assumption.
    + rewrite Hsc, Hsc1, filter_app, length_app. lia.
    + rewrite Hec, Hec1, filter_app, length_app. lia.
Qed.

(** ** Budgets *)

Lemma settles_unique {fs A} (c : nat -> M fs A) (s : state fs) (a a' : A) (s1 s2 : state fs) :
  settles c s a s1 -> settles c s a' s2 -> a = a' /\ s1 = s2.
Proof.
  intros (f1 & H1) (f2 & H2).
  specialize (H1 (Nat.max f1 f2) ltac:(lia)). specialize (H2 (Nat.max f1 f2) ltac:(lia)).
  rewrite H1 in H2. now injection H2.
Qed.

Lemma stable_settles {fs A} (c : nat -> M fs A) (fuel : nat) (s : state fs) (a : A)
  (s' : state fs) :
  stable c -> c fuel s = Returns a s' -> settles c s a s'.
Proof.
  intros Hst Hrun. exists fuel. intros fuel' Hle.
  rewrite (Hst fuel fuel' s Hle); [assumption|]. rewrite Hrun. discriminate.
Qed.

Lemma stable_const {fs A} (c : M fs A) : stable (fun _ : nat => c).
Proof. intros fuel fuel' s _ _. reflexivity. Qed.

Lemma stable_bind {fs A B} (c : nat -> M fs A) (k : nat -> A -> M fs B) :
  stable c -> (forall a, stable (fun fuel => k fuel a)) ->
  stable (fun fuel => bind (c fuel) (k fuel)).
Proof.
  intros Hc Hk fuel fuel' s Hle Hrun. unfold bind in *.
  rewrite (Hc fuel fuel' s Hle).
  - destruct (c fuel s) as [a s'| |]; [|reflexivity|reflexivity].
    now apply (Hk a).
  - intros H. now rewrite H in Hrun.
Qed.

Lemma stable_try {fs A} (c : nat -> M fs A) (h : exn -> M fs A) :
  stable c -> stable (fun fuel => try_except (c fuel) h).
Proof.
  intros Hc fuel fuel' s Hle Hrun. unfold try_except in *.
  rewrite (Hc fuel fuel' s Hle); [reflexivity|].
  intros H. now rewrite H in Hrun.
Qed.

Lemma stable_while {fs A} (cond : A -> M fs bool) (body : A -> M fs A) (a : A) :
  stable (fun fuel => while_ fuel cond body a).
Proof.
  intros fuel. revert a. induction fuel as [|fuel IH]; intros a fuel' s Hle Hrun.
  - now contradiction Hrun.
  - destruct fuel' as [|fuel']; [lia|].
    cbn [while_] in *. unfold bind in *.
    destruct (cond a s) as [[|] s1| |]; try reflexivity.
    destruct (body a s1) as [a' s2| |]; try reflexivity.
    apply IH; [lia|assumption].
Qed.

Lemma stable_for {fs A} (body : nat -> nat -> A -> M fs unit) (l : list A) :
  (forall i x, stable (fun fuel => body fuel i x)) ->
  forall i, stable (fun fuel => for_enumerate (body fuel) i l).
Proof.
  intros Hbody. induction l as [|x l IH]; intros i; cbn [for_enumerate].
  - apply stable_const.
  - apply (stable_bind (fun fuel => body fuel i x)
             (fun fuel _ => for_enumerate (body fuel) (S i) l)); auto.
Qed.

Lemma stable_resolve_output_path {fs} (os : platform fs) (output_dir file : string) :
  stable (fun fuel => resolve_output_path os fuel output_dir file).
Proof.
  unfold resolve_output_path.
  apply (stable_bind (fun _ => os_path_exists os _)); [apply stable_const|].
  intros [|]; [|apply stable_const].
  destruct (posixpath.splitext (posixpath.basename file)) as [base ext].
  apply (stable_bind (fun fuel => while_ fuel _ _ _) (fun _ r => ret (fst r)));
    [apply stable_while | intros; apply stable_const].
Qed.




(** ** Runs of [process_files] *)

Lemma process_files_unfold {fs} (os : platform fs) (fuel : nat) (files : list string)
  (output_dir : string) (s : state fs) :
  process_files os fuel files output_dir s
  = match for_enumerate (process_file os fuel (List.length files) output_dir) 0 files
            (counters_reset s) with
    | Returns _ s' => Returns tt (reported s')
    | Raises e s' => Raises e s'
    | Diverges => Diverges
    end.
Proof.
  unfold process_files, bind. cbn [set_success_count set_error_count].
  cbn [disk trace success_count error_count]. fold (counters_reset s).
  destruct (for_enumerate _ 0 files (counters_reset s)) as [[] s'| |]; try reflexivity.
  cbn. unfold reported, emit. rewrite observe_observe. reflexivity.
Qed.

Lemma process_files_run {fs} (os : platform fs) (files : list string) (output_dir : string)
  (s : state fs) :
  finite_support os ->
  exists s', rounds os (List.length files) output_dir 0 files (counters_reset s) s'
             /\ settles (fun fuel => process_files os fuel files output_dir) s tt (reported s').
Proof.
  intros Hfin.
  destruct (batch_loop_run os (List.length files) output_dir files Hfin (le_n _) 0
              (counters_reset s)) as (s' & (fuel0 & Hrun) & Hrounds).
  exists s'. split; [assumption|].
  exists fuel0. intros fuel Hfuel. rewrite process_files_unfold, Hrun by assumption.
  reflexivity.
Qed.

(** ** The in-memory file system obeys the laws *)

Lemma memfs_finite_support : finite_support MemFS.os.
Proof.
  intros d. exists ("/" :: map fst (MemFS.nodes d)). intros p. cbn.
  unfold MemFS.exists_, MemFS.lookup. intros H.
  apply orb_true_iff in H as [H|H].
  - left. symmetry. now apply String.eqb_eq.
  - right. destruct (find _ (MemFS.nodes d)) as [n|] eqn:Hfind; [|discriminate].
    apply find_some in Hfind as (Hin & Heq). apply String.eqb_eq in Heq. subst p.
    now apply in_map.
Qed.


(** ** Name resolution *)

(** C1. For every source path and output directory, on a file system of
    finitely many paths, the name resolution returns
    [join(output_dir, basename(file))] unchanged when nothing exists at that
    path; when something does, it returns [join(output_dir, stem_k.ext)] for
    the least [k >= 1] whose path is free, having tested the rounds
    [1, 2, ..., k] in this order, none skipped.  The file system is left
    as it was. *)
Theorem resolve_output_path_first_free {fs} (os : platform fs)
  (Hfin : finite_support os) (output_dir file : string) (s : state fs) :
  exists out probes,
    settles (fun fuel => resolve_output_path os fuel output_dir file) s out (observe probes s)
    /\ (sys_exists os (disk s) (posixpath.join output_dir (posixpath.basename file)) = false ->
        out = posixpath.join output_dir (posixpath.basename file)
        /\ probes = [EvExists out false])
    /\ (sys_exists os (disk s) (posixpath.join output_dir (posixpath.basename file)) = true ->
        exists k stem ext,
          posixpath.splitext (posixpath.basename file) = (stem, ext)
          /\ 1 <= k
          /\ out = posixpath.join output_dir (stem ++ "_" ++ PyStr.str k ++ ext)
          /\ sys_exists os (disk s) out = false
          /\ (forall j, 1 <= j < k ->
                sys_exists os (disk s)
                  (posixpath.join output_dir (stem ++ "_" ++ PyStr.str j ++ ext)) = true)
          /\ probes
             = EvExists (posixpath.join output_dir (posixpath.basename file)) true
               :: EvExists (posixpath.join output_dir (posixpath.basename file)) true
               :: map (fun j => EvExists
                                  (posixpath.join output_dir
                                     (stem ++ "_" ++ PyStr.str j ++ ext)) true)
                    (seq 1 (k - 1))
               ++ [EvExists out false]).
Proof.
  destruct (Hfin (disk s)) as (l & Hl).
  destruct (resolves_total _ l output_dir file Hl) as (out & probes & Hres).
  exists out, probes. split; [now apply resolve_output_path_run|].
  destruct Hres as [p Hfree | k file_name p name Htaken Hk].
  - split; [intros _; split; reflexivity|].
    intros H. subst p. congruence.
  - split; [intros H; subst p file_name; congruence|].
    intros _. subst name p file_name.
    destruct (posixpath.splitext (posixpath.basename file)) as [stem ext].
    exists k, stem, ext. destruct Hk as (H1 & H2 & H3).
    repeat split; try assumption.
Qed.

(** The theorem at work: the base name and its first variant are taken,
    the second variant is returned. *)
Lemma resolve_output_path_first_free_witness :
  finite_support MemFS.os
  /\ exists out probes,
    settles (fun fuel => resolve_output_path MemFS.os fuel "/out" "/b/report.txt")
      (MemFS.boot scenario_disk) out (observe probes (MemFS.boot scenario_disk))
    /\ (MemFS.exists_ scenario_disk "/out/report.txt" = false ->
        out = "/out/report.txt" /\ probes = [EvExists out false])
    /\ (MemFS.exists_ scenario_disk "/out/report.txt" = true ->
        exists k stem ext,
          posixpath.splitext "report.txt" = (stem, ext)
          /\ 1 <= k
          /\ out = posixpath.join "/out" (stem ++ "_" ++ PyStr.str k ++ ext)
          /\ MemFS.exists_ scenario_disk out = false
          /\ (forall j, 1 <= j < k ->
                MemFS.exists_ scenario_disk
                  (posixpath.join "/out" (stem ++ "_" ++ PyStr.str j ++ ext)) = true)
          /\ probes
             = EvExists "/out/report.txt" true
               :: EvExists "/out/report.txt" true
               :: map (fun j => EvExists
                                  (posixpath.join "/out"
                                     (stem ++ "_" ++ PyStr.str j ++ ext)) true)
                    (seq 1 (k - 1))
               ++ [EvExists out false]).
Proof.
  split; [exact memfs_finite_support|].
  exact (resolve_output_path_first_free MemFS.os memfs_finite_support
           "/out" "/b/report.txt" (MemFS.boot scenario_disk)).
Defined.

(** The same run, computed: three names are tested beyond the first
    check, and [report_2.txt] is the answer. *)
Example resolve_output_path_scenario :
  resolve_output_path MemFS.os 4 "/out" "/b/report.txt" (MemFS.boot scenario_disk)
  = Returns "/out/report_2.txt"
      (observe [EvExists "/out/report.txt" true; EvExists "/out/report.txt" true;
                EvExists "/out/report_1.txt" true; EvExists "/out/report_2.txt" false]
         (MemFS.boot scenario_disk)).
Proof. reflexivity. Qed.

(** C7. The resolution is deterministic: on two machines whose file systems
    hold the same paths, whatever else differs between them (events seen,
    counters, loop budget), the resolution of the same source into the same
    directory settles on one and the same path after the same tests, and
    any two runs of it that return, return that path. *)
Theorem resolve_output_path_deterministic {fs} (os : platform fs)
  (Hfin : finite_support os) (output_dir file : string) (s1 s2 : state fs)
  (Hsame : forall p, sys_exists os (disk s1) p = sys_exists os (disk s2) p) :
  exists out probes,
    settles (fun fuel => resolve_output_path os fuel output_dir file) s1 out (observe probes s1)
    /\ settles (fun fuel => resolve_output_path os fuel output_dir file) s2 out (observe probes s2)
    /\ forall fuel1 fuel2 out1 out2 s1' s2',
         resolve_output_path os fuel1 output_dir file s1 = Returns out1 s1' ->
         resolve_output_path os fuel2 output_dir file s2 = Returns out2 s2' ->
         out1 = out /\ out2 = out.
Proof.
  destruct (Hfin (disk s1)) as (l1 & Hl1). destruct (Hfin (disk s2)) as (l2 & Hl2).
  destruct (resolves_total _ l1 output_dir file Hl1) as (out & probes & Hres1).
  destruct (resolves_total _ l2 output_dir file Hl2) as (out' & probes' & Hres2).
  destruct (resolves_deterministic _ _ _ _ _ _ _ _ Hsame Hres1 Hres2) as (<- & <-).
  pose proof (resolve_output_path_run os output_dir file out probes s1 Hres1) as Hrun1.
  pose proof (resolve_output_path_run os output_dir file out probes s2 Hres2) as Hrun2.
  exists out, probes. split; [exact Hrun1|]. split; [exact Hrun2|].
  intros fuel1 fuel2 out1 out2 s1' s2' H1 H2.
  apply (stable_settles _ _ _ _ _ (stable_resolve_output_path os output_dir file)) in H1, H2.
  destruct (settles_unique _ _ _ _ _ _ H1 Hrun1) as (-> & _).
  destruct (settles_unique _ _ _ _ _ _ H2 Hrun2) as (-> & _).
  split; reflexivity.
Qed.

(** Two machines with the same paths on disk, different write protection
    and different histories. *)
Lemma resolve_output_path_deterministic_witness :
  finite_support MemFS.os
  /\ (forall p, MemFS.exists_ scenario_disk p = MemFS.exists_ protected_disk p)
  /\ exists out probes,
    settles (fun fuel => resolve_output_path MemFS.os fuel "/out" "/a/report.txt")
      (MemFS.boot scenario_disk) out (observe probes (MemFS.boot scenario_disk))
    /\ settles (fun fuel => resolve_output_path MemFS.os fuel "/out" "/a/report.txt")
         (mkState protected_disk [EvRootUpdate] 3 1) out
         (observe probes (mkState protected_disk [EvRootUpdate] 3 1))
    /\ forall fuel1 fuel2 out1 out2 s1' s2',
         resolve_output_path MemFS.os fuel1 "/out" "/a/report.txt" (MemFS.boot scenario_disk)
         = Returns out1 s1' ->
         resolve_output_path MemFS.os fuel2 "/out" "/a/report.txt"
           (mkState protected_disk [EvRootUpdate] 3 1)
         = Returns out2 s2' ->
         out1 = out /\ out2 = out.
Proof.
  split; [exact memfs_finite_support|]. split; [reflexivity|].
  exact (resolve_output_path_deterministic MemFS.os memfs_finite_support
           "/out" "/a/report.txt" (MemFS.boot scenario_disk)
           (mkState protected_disk [EvRootUpdate] 3 1) (fun p => eq_refl)).
Defined.

(** ** The batch *)

Lemma success_failure_split (lines : list log_line) :
  List.length (filter is_success lines) + List.length (filter is_failure lines)
  = List.length lines.
Proof.
  induction lines as [|[out|f e] lines IH]; cbn; [reflexivity| |]; lia.
Qed.

(** A run that settles on a return never raises, whatever its budget. *)
Lemma settled_never_raises {fs A} (c : nat -> M fs A) (s : state fs) (a : A)
  (s' : state fs) :
  stable c -> settles c s a s' ->
  forall fuel e s'', c fuel s <> Raises e s''.
Proof.
  intros Hst (fuel0 & Hrun) fuel e s'' Hraise.
  pose proof (Hst fuel (Nat.max fuel fuel0) s ltac:(lia)) as H.
  rewrite Hraise, Hrun in H by lia.
  specialize (H ltac:(discriminate)). discriminate.
Qed.



(** The scenario, computed: the second source takes the numbered name, the
    missing one fails, and the dialog shows two successes and one failure. *)
Example process_files_scenario :
  process_files MemFS.os 3 ["/a/report.txt"; "/b/report.txt"; "/missing/file.txt"] "/out"
    (MemFS.boot fresh_disk)
  = Returns tt
      {| disk := MemFS.add (MemFS.add fresh_disk "/out/report.txt" (MemFS.File "one"))
                   "/out/report_1.txt" (MemFS.File "two");
         trace :=
           [EvProgressBar 33; EvStatusLabel 1 3;
            EvExists "/out/report.txt" false;
            EvLink "/a/report.txt" "/out/report.txt" None;
            EvLogStatus (Success "/out/report.txt"); EvRootUpdate;
            EvProgressBar 66; EvStatusLabel 2 3;
            EvExists "/out/report.txt" true; EvExists "/out/report.txt" true;
            EvExists "/out/report_1.txt" false;
            EvLink "/b/report.txt" "/out/report_1.txt" None;
            EvLogStatus (Success "/out/report_1.txt"); EvRootUpdate;
            EvProgressBar 100; EvStatusLabel 3 3;
            EvExists "/out/file.txt" false;
            EvLink "/missing/file.txt" "/out/file.txt" (Some (OSError ENOENT));
            EvLogStatus (Failure "/missing/file.txt" (OSError ENOENT)); EvRootUpdate;
            EvShowInfo 2 1; EvProgressWindow false];
         success_count := 2;
         error_count := 1 |}.
Proof. vm_compute. reflexivity. Qed.

Lemma failures_are_raised_calls (calls : list (string * string * option exn)) :
  List.length (filter is_failure (map line_of_call calls))
  = List.length (filter call_raised calls).
Proof.
  induction calls as [|[[src dst] [e|]] calls IH]; cbn; [reflexivity| |]; lia.
Qed.

(** A batch into a write-protected directory: every link call raises, and
    every source is attempted all the same. *)
Example process_files_protected_scenario :
  process_files MemFS.os 4 ["/a/report.txt"; "/b/report.txt"] "/out" (MemFS.boot protected_disk)
  = Returns tt
      {| disk := protected_disk;
         trace :=
           [EvProgressBar 50; EvStatusLabel 1 2;
            EvExists "/out/report.txt" true; EvExists "/out/report.txt" true;
            EvExists "/out/report_1.txt" true; EvExists "/out/report_2.txt" false;
            EvLink "/a/report.txt" "/out/report_2.txt" (Some (OSError EACCES));
            EvLogStatus (Failure "/a/report.txt" (OSError EACCES)); EvRootUpdate;
            EvProgressBar 100; EvStatusLabel 2 2;
            EvExists "/out/report.txt" true; EvExists "/out/report.txt" true;
            EvExists "/out/report_1.txt" true; EvExists "/out/report_2.txt" false;
            EvLink "/b/report.txt" "/out/report_2.txt" (Some (OSError EACCES));
            EvLogStatus (Failure "/b/report.txt" (OSError EACCES)); EvRootUpdate;
            EvShowInfo 0 2; EvProgressWindow false];
         success_count := 0;
         error_count := 2 |}.
Proof. vm_compute. reflexivity. Qed.



(** The spec's second end-to-end scenario: one missing source. *)
Example process_files_missing_scenario :
  process_files MemFS.os 1 ["/missing/file.txt"] "/out" (MemFS.boot fresh_disk)
  = Returns tt
      {| disk := fresh_disk;
         trace := [EvProgressBar 100; EvStatusLabel 1 1;
                   EvExists "/out/file.txt" false;
                   EvLink "/missing/file.txt" "/out/file.txt" (Some (OSError ENOENT));
                   EvLogStatus (Failure "/missing/file.txt" (OSError ENOENT)); EvRootUpdate;
                   EvShowInfo 0 1; EvProgressWindow false];
         success_count := 0;
         error_count := 1 |}.
Proof. vm_compute. reflexivity. Qed.

(** A source that is missing when the batch starts can exist by the time
    its turn comes: here the first round creates the very path the second
    source names, and the second round succeeds. *)
Example source_created_by_earlier_round :
  MemFS.exists_ fresh_disk "/out/report.txt" = false
  /\ exists s',
       process_files MemFS.os 2 ["/a/report.txt"; "/out/report.txt"] "/out"
         (MemFS.boot fresh_disk) = Returns tt s'
       /\ log_lines (trace s') = [Success "/out/report.txt"; Success "/out/report_1.txt"].
Proof. split; [reflexivity|]. eexists. split; [vm_compute; reflexivity|reflexivity]. Qed.

(** ** Validation *)

Lemma create_hardlinks_validated {fs} (os : platform fs) (fuel : nat)
  (self : HardlinkCreator) (s s' : state fs) :
  validate_inputs os self s = Returns true s' ->
  create_hardlinks os fuel self s
  = process_files os fuel (files_list self) (output_dir self)
      (observe [EvProgressWindow true] s').
Proof. intros H. unfold create_hardlinks, bind at 1. now rewrite H. Qed.

Lemma create_hardlinks_rejected {fs} (os : platform fs) (fuel : nat)
  (self : HardlinkCreator) (s s' : state fs) :
  validate_inputs os self s = Returns false s' ->
  create_hardlinks os fuel self s = Returns tt s'.
Proof. intros H. unfold create_hardlinks, bind at 1. now rewrite H. Qed.

(** C6. Whatever the output directory, validating an empty file list fails
    with [EmptyInput], and the alert is all that happens: no existence
    test, no directory creation, the same answer on any operating system;
    and [create_hardlinks] stops there. *)
Theorem validate_inputs_empty {fs} (os : platform fs) (dir : string) (s : state fs) :
  validate_inputs os {| files_list := []; output_dir := dir |} s
  = Returns false (observe [EvShowError EmptyInput] s)
  /\ disk (observe [EvShowError EmptyInput] s) = disk s
  /\ (forall os' : platform fs,
        validate_inputs os' {| files_list := []; output_dir := dir |} s
        = validate_inputs os {| files_list := []; output_dir := dir |} s)
  /\ (forall fuel,
        create_hardlinks os fuel {| files_list := []; output_dir := dir |} s
        = Returns tt (observe [EvShowError EmptyInput] s)).
Proof.
  assert (H : forall os' : platform fs,
             validate_inputs os' {| files_list := []; output_dir := dir |} s
             = Returns false (observe [EvShowError EmptyInput] s)) by reflexivity.
  split; [apply H|]. split; [reflexivity|].
  split; [intros os'; now rewrite !H|].
  intros fuel. now apply create_hardlinks_rejected.
Qed.

(** C5. With files selected and an output directory named, when that
    directory does not exist, validation calls [os.makedirs] on it - the
    creation that includes the missing parents.  If the call returns,
    validation succeeds on the file system the call left, and the batch
    starts; if it raises, validation fails with [DestinationCreateError],
    the file system is as before, and [create_hardlinks] stops without a
    single round. *)
Theorem validate_inputs_creates_output_dir {fs} (os : platform fs)
  (self : HardlinkCreator) (s : state fs)
  (Hfiles : files_list self <> [])
  (Hdir : output_dir self <> "")
  (Hmissing : sys_exists os (disk s) (output_dir self) = false) :
  (forall d', sys_makedirs os (disk s) (output_dir self) = Ok d' ->
     let s' := mkState d' (trace s ++ [EvExists (output_dir self) false;
                                        EvMakedirs (output_dir self) None])
                 (success_count s) (error_count s) in
     validate_inputs os self s = Returns true s'
     /\ forall fuel,
          create_hardlinks os fuel self s
          = process_files os fuel (files_list self) (output_dir self)
              (observe [EvProgressWindow true] s'))
  /\ (forall e, sys_makedirs os (disk s) (output_dir self) = Raise e ->
        let s' := observe [EvExists (output_dir self) false;
                           EvMakedirs (output_dir self) (Some e);
                           EvShowError (DestinationCreateError e)] s in
        validate_inputs os self s = Returns false s'
        /\ forall fuel, create_hardlinks os fuel self s = Returns tt s').
Proof.
  assert (Hlen : (List.length (files_list self) =? 0)%nat = false).
  { destruct (files_list self); [contradiction|reflexivity]. }
  apply String.eqb_neq in Hdir.
  assert (Hstart : validate_inputs os self s
                   = try_except (os_makedirs os (output_dir self) ;; ret true)
                       (fun e => emit (EvShowError (DestinationCreateError e)) ;; ret false)
                       (observe [EvExists (output_dir self) false] s)).
  { unfold validate_inputs. rewrite Hlen, Hdir. unfold bind at 1.
    rewrite os_path_exists_run, Hmissing. reflexivity. }
  split.
  - intros d' Hmk s'.
    assert (Hv : validate_inputs os self s = Returns true s').
    { rewrite Hstart. unfold try_except, bind at 1, os_makedirs, bind at 1, get_disk.
      cbn [disk observe]. rewrite Hmk. cbn. unfold s'. now rewrite <- app_assoc. }
    split; [exact Hv|]. intros fuel. now apply create_hardlinks_validated.
  - intros e Hmk s'.
    assert (Hv : validate_inputs os self s = Returns false s').
    { rewrite Hstart. unfold try_except, bind at 1, os_makedirs, bind at 1, get_disk.
      cbn [disk observe]. rewrite Hmk. cbn. unfold s', observe. cbn.
      now rewrite <- !app_assoc. }
    split; [exact Hv|]. intros fuel. now apply create_hardlinks_rejected.
Qed.

Lemma validate_inputs_creates_output_dir_witness :
  files_list deep_request <> []
  /\ output_dir deep_request <> ""
  /\ MemFS.exists_ fresh_disk (output_dir deep_request) = false
  /\ (forall d', MemFS.makedirs fresh_disk (output_dir deep_request) = Ok d' ->
        let s' := mkState d' (trace (MemFS.boot fresh_disk)
                                ++ [EvExists (output_dir deep_request) false;
                                    EvMakedirs (output_dir deep_request) None])
                    (success_count (MemFS.boot fresh_disk))
                    (error_count (MemFS.boot fresh_disk)) in
        validate_inputs MemFS.os deep_request (MemFS.boot fresh_disk) = Returns true s'
        /\ forall fuel,
             create_hardlinks MemFS.os fuel deep_request (MemFS.boot fresh_disk)
             = process_files MemFS.os fuel (files_list deep_request) (output_dir deep_request)
                 (observe [EvProgressWindow true] s'))
  /\ (forall e, MemFS.makedirs fresh_disk (output_dir deep_request) = Raise e ->
        let s' := observe [EvExists (output_dir deep_request) false;
                           EvMakedirs (output_dir deep_request) (Some e);
                           EvShowError (DestinationCreateError e)] (MemFS.boot fresh_disk) in
        validate_inputs MemFS.os deep_request (MemFS.boot fresh_disk) = Returns false s'
        /\ forall fuel,
             create_hardlinks MemFS.os fuel deep_request (MemFS.boot fresh_disk)
             = Returns tt s').
Proof.
  split; [discriminate|]. split; [discriminate|]. split; [reflexivity|].
  exact (validate_inputs_creates_output_dir MemFS.os deep_request (MemFS.boot fresh_disk)
           ltac:(discriminate) ltac:(discriminate) eq_refl).
Defined.

(** On the in-memory file system the call creates the directory and both
    missing parents, validation succeeds, and the batch links into the new
    directory. *)
Example validate_inputs_deep_scenario :
  validate_inputs MemFS.os deep_request (MemFS.boot fresh_disk)
  = Returns true
      {| disk := MemFS.add (MemFS.add (MemFS.add fresh_disk "/x" MemFS.Dir) "/x/y" MemFS.Dir)
                   "/x/y/z" MemFS.Dir;
         trace := [EvExists "/x/y/z" false; EvMakedirs "/x/y/z" None];
         success_count := 0;
         error_count := 0 |}
  /\ exists s', create_hardlinks MemFS.os 1 deep_request (MemFS.boot fresh_disk) = Returns tt s'
                /\ log_lines (trace s') = [Success "/x/y/z/report.txt"].
Proof.
  split; [vm_compute; reflexivity|].
  eexists. split; [vm_compute; reflexivity|reflexivity].
Qed.

(** An output directory below a regular file cannot be created: the alert
    is raised and no round is run. *)
Example validate_inputs_uncreatable_scenario :
  create_hardlinks MemFS.os 1
    {| files_list := ["/a/report.txt"]; output_dir := "/a/report.txt/sub" |}
    (MemFS.boot fresh_disk)
  = Returns tt
      (observe [EvExists "/a/report.txt/sub" false;
                EvMakedirs "/a/report.txt/sub" (Some (OSError ENOTDIR));
                EvShowError (DestinationCreateError (OSError ENOTDIR))]
         (MemFS.boot fresh_disk)).
Proof. vm_compute. reflexivity. Qed.

(** The two checks that come before the existence test. *)
Example validate_inputs_no_destination :
  validate_inputs MemFS.os {| files_list := ["/a/report.txt"]; output_dir := "" |}
    (MemFS.boot fresh_disk)
  = Returns false (observe [EvShowError NoDestination] (MemFS.boot fresh_disk)).
Proof. reflexivity. Qed.

Lemma validated_has_files {fs} (os : platform fs) (self : HardlinkCreator)
  (s s' : state fs) :
  validate_inputs os self s = Returns true s' -> 1 <= List.length (files_list self).
Proof.
  unfold validate_inputs. destruct (files_list self) as [|x l]; cbn; [discriminate|lia].
Qed.

(** C10. Once validation has succeeded the file list has at least one row,
    so the progress computation [int((i + 1) / total * 100)], whose
    [total] is the length of that list, never divides by zero: it returns
    its value in every round.  In the batch that follows, one progress
    value is set per source, and every failure logged is the failure of a
    link call. *)
Theorem progress_never_divides_by_zero {fs} (os : platform fs) (Hfin : finite_support os)
  (self : HardlinkCreator) (s s' : state fs)
  (Hvalid : validate_inputs os self s = Returns true s') :
  1 <= List.length (files_list self)
  /\ (forall (i : nat) (s0 : state fs),
        progress_percent i (List.length (files_list self)) s0
        = Returns (PyFloat.percent (Z.of_nat (i + 1))
                     (Z.of_nat (List.length (files_list self)))) s0)
  /\ exists s'' evs,
       settles (fun fuel => create_hardlinks os fuel self) s tt s''
       /\ trace s'' = trace s' ++ EvProgressWindow true :: evs
                        ++ [EvShowInfo (success_count s'') (error_count s'');
                            EvProgressWindow false]
       /\ progress_values evs
          = map (fun i => PyFloat.percent (Z.of_nat (i + 1))
                            (Z.of_nat (List.length (files_list self))))
              (seq 0 (List.length (files_list self)))
       /\ log_lines evs = map line_of_call (link_calls evs).
Proof.
  pose proof (validated_has_files os self s s' Hvalid) as Hlen.
  split; [exact Hlen|]. split.
  - intros i s0. unfold progress_percent.
    destruct (List.length (files_list self)); [lia|reflexivity].
  - destruct (process_files_run os (files_list self) (output_dir self)
                (observe [EvProgressWindow true] s') Hfin) as (s2 & Hrounds & fuel0 & Hrun).
    destruct (rounds_summary _ _ _ _ _ _ _ Hrounds)
      as (evs & Htr & Hsrc & Hlog & Hprog & _).
    exists (reported s2), evs. split.
    + exists fuel0. intros fuel Hfuel.
      rewrite (create_hardlinks_validated os fuel self s s' Hvalid). now apply Hrun.
    + cbn in *. rewrite Htr, <- !app_assoc. repeat split; assumption.
Qed.

Lemma progress_never_divides_by_zero_witness :
  finite_support MemFS.os
  /\ validate_inputs MemFS.os deep_request (MemFS.boot fresh_disk)
     = Returns true
         {| disk := MemFS.add (MemFS.add (MemFS.add fresh_disk "/x" MemFS.Dir) "/x/y" MemFS.Dir)
                      "/x/y/z" MemFS.Dir;
            trace := [EvExists "/x/y/z" false; EvMakedirs "/x/y/z" None];
            success_count := 0;
            error_count := 0 |}
  /\ 1 <= List.length (files_list deep_request)
  /\ (forall (i : nat) (s0 : state MemFS.t),
        progress_percent i (List.length (files_list deep_request)) s0
        = Returns (PyFloat.percent (Z.of_nat (i + 1))
                     (Z.of_nat (List.length (files_list deep_request)))) s0)
  /\ exists s'' evs,
       settles (fun fuel => create_hardlinks MemFS.os fuel deep_request)
         (MemFS.boot fresh_disk) tt s''
       /\ trace s'' = [EvExists "/x/y/z" false; EvMakedirs "/x/y/z" None]
                        ++ EvProgressWindow true :: evs
                        ++ [EvShowInfo (success_count s'') (error_count s'');
                            EvProgressWindow false]
       /\ progress_values evs
          = map (fun i => PyFloat.percent (Z.of_nat (i + 1))
                            (Z.of_nat (List.length (files_list deep_request))))
              (seq 0 (List.length (files_list deep_request)))
       /\ log_lines evs = map line_of_call (link_calls evs).
Proof.
  split; [exact memfs_finite_support|]. split; [vm_compute; reflexivity|].
  exact (progress_never_divides_by_zero MemFS.os memfs_finite_support deep_request
           (MemFS.boot fresh_disk) _ eq_refl).
Defined.

(** The progress values are those of binary64 arithmetic: [29 / 100 * 100]
    truncates to [28]. *)
Example progress_percent_rounding :
  PyFloat.percent 29 100 = 28%Z /\ PyFloat.percent 1 3 = 33%Z /\ PyFloat.percent 3 3 = 100%Z.
Proof. vm_compute. repeat split. Qed.

(** ** The recent-paths list *)

(** C9. When the recent-paths file is missing, or cannot be read, or holds
    text that is not JSON, [load_recent_paths] returns the empty list: it
    returns, so no exception reaches the caller, and it leaves the file
    system as it was. *)
Theorem load_recent_paths_falls_back {fs} (os : platform fs) (self : RecentPathManager)
  (s : state fs)
  (Hbad : sys_exists os (disk s) (file_path self) = false
          \/ (exists e, sys_read os (disk s) (file_path self) = Raise e)
          \/ (exists text e, sys_read os (disk s) (file_path self) = Ok text
                             /\ json_loads os text = Raise e)) :
  exists evs,
    load_recent_paths os self s = Returns (JArray []) (observe evs s)
    /\ disk (observe evs s) = disk s.
Proof.
  unfold load_recent_paths, bind at 1, try_except, bind at 1.
  rewrite os_path_exists_run.
  destruct (sys_exists os (disk s) (file_path self)) eqn:Hex.
  - destruct Hbad as [Hbad | [(e & Hread) | (text & e & Hread & Hjson)]]; [discriminate| |].
    + unfold bind at 1, read_file, bind at 1, get_disk. cbn [disk observe].
      rewrite Hread. cbn. unfold emit. rewrite !observe_observe. eexists. split; reflexivity.
    + unfold bind at 1, read_file, bind at 1, get_disk. cbn [disk observe].
      rewrite Hread. cbn. unfold json_load. rewrite Hjson. cbn.
      unfold emit. rewrite !observe_observe. eexists. split; reflexivity.
  - eexists. split; reflexivity.
Qed.

(** The corrupt file of the scenario disk. *)
Lemma load_recent_paths_falls_back_witness :
  (MemFS.exists_ scenario_disk (file_path recent_file) = false
   \/ (exists e, MemFS.read scenario_disk (file_path recent_file) = Raise e)
   \/ (exists text e, MemFS.read scenario_disk (file_path recent_file) = Ok text
                      /\ MemFS.loads text = Raise e))
  /\ exists evs,
       load_recent_paths MemFS.os recent_file (MemFS.boot scenario_disk)
       = Returns (JArray []) (observe evs (MemFS.boot scenario_disk))
       /\ disk (observe evs (MemFS.boot scenario_disk)) = disk (MemFS.boot scenario_disk).
Proof.
  assert (H : MemFS.exists_ scenario_disk (file_path recent_file) = false
              \/ (exists e, MemFS.read scenario_disk (file_path recent_file) = Raise e)
              \/ (exists text e, MemFS.read scenario_disk (file_path recent_file) = Ok text
                                 /\ MemFS.loads text = Raise e)).
  { right. right. exists "{oops", JSONDecodeError. split; reflexivity. }
  split; [exact H|].
  exact (load_recent_paths_falls_back MemFS.os recent_file (MemFS.boot scenario_disk) H).
Defined.

(** The three cases, computed: corrupt, missing, unreadable; and a file
    that decodes. *)
Example load_recent_paths_corrupt :
  load_recent_paths MemFS.os recent_file (MemFS.boot scenario_disk)
  = Returns (JArray [])
      (observe [EvExists "recent_paths.json" true; EvRead "recent_paths.json" None;
                EvLoggingError JSONDecodeError] (MemFS.boot scenario_disk)).
Proof. reflexivity. Qed.

Example load_recent_paths_missing :
  load_recent_paths MemFS.os recent_file (MemFS.boot fresh_disk)
  = Returns (JArray []) (observe [EvExists "recent_paths.json" false] (MemFS.boot fresh_disk)).
Proof. reflexivity. Qed.

Example load_recent_paths_unreadable :
  let d := {| MemFS.nodes := [("recent_paths.json", MemFS.File "[]")];
              MemFS.readonly := [];
              MemFS.unreadable := ["recent_paths.json"] |} in
  load_recent_paths MemFS.os recent_file (MemFS.boot d)
  = Returns (JArray [])
      (observe [EvExists "recent_paths.json" true;
                EvRead "recent_paths.json" (Some (OSError EACCES));
                EvLoggingError (OSError EACCES)] (MemFS.boot d)).
Proof. reflexivity. Qed.

Example load_recent_paths_decodes :
  let d := MemFS.plain [("recent_paths.json", MemFS.File (MemFS.dumps ["/out"; "/x/y"]))] in
  load_recent_paths MemFS.os recent_file (MemFS.boot d)
  = Returns (JArray [JString "/out"; JString "/x/y"])
      (observe [EvExists "recent_paths.json" true; EvRead "recent_paths.json" None]
         (MemFS.boot d)).
Proof. vm_compute. reflexivity. Qed.

Lemma list_contains_In (x : string) (l : list string) :
  list_contains x l = true <-> In x l.
Proof.
  unfold list_contains. rewrite existsb_exists. split.
  - intros (y & Hy & Heq). apply String.eqb_eq in Heq. now subst.
  - intros H. exists x. split; [assumption|apply String.eqb_refl].
Qed.

Lemma list_remove_length (x : string) (l : list string) :
  In x l -> S (List.length (list_remove x l)) = List.length l.
Proof.
  induction l as [|y l IH]; [contradiction|]. intros H. cbn.
  destruct (String.eqb_spec x y) as [->|Hne]; [reflexivity|].
  cbn. f_equal. apply IH. destruct H; [congruence|assumption].
Qed.

Lemma list_remove_count (x : string) (l : list string) :
  In x l -> S (count_occ string_dec (list_remove x l) x) = count_occ string_dec l x.
Proof.
  induction l as [|y l IH]; [contradiction|]. intros H. cbn.
  destruct (String.eqb_spec x y) as [->|Hne].
  - now destruct (string_dec y y).
  - cbn. destruct (string_dec y x) as [->|_]; [congruence|].
    apply IH. destruct H; [congruence|assumption].
Qed.

Lemma In_removelast (x : string) (l : list string) : In x (removelast l) -> In x l.
Proof.
  induction l as [|y [|z l] IH]; cbn; [tauto|tauto|].
  intros [H|H]; [now left|right; now apply IH].
Qed.

Lemma removelast_length (l : list string) :
  List.length (removelast l) = List.length l - 1.
Proof.
  induction l as [|y [|z l] IH]; [reflexivity|reflexivity|].
  cbn [removelast List.length] in *. rewrite IH. lia.
Qed.

(** [save_recent_paths] returns whatever the write does. *)
Lemma save_recent_paths_returns {fs} (os : platform fs) (self : RecentPathManager)
  (s : state fs) :
  exists s', save_recent_paths os self s = Returns tt s'.
Proof.
  unfold save_recent_paths, try_except, write_file, bind, get_disk.
  destruct (sys_write os (disk s) _ _); cbn; eexists; reflexivity.
Qed.

(** The list [add_path] leaves, for a starting list within the bound. *)
Lemma add_path_list (N : Z) (path : string) (l l2 : list string) :
  (Z.of_nat (List.length l) <= N)%Z ->
  l2 = (let paths := if list_contains path l then list_remove path l else l in
        let paths := path :: paths in
        if (Z.of_nat (List.length paths) >? N)%Z then removelast paths else paths) ->
  (Z.of_nat (List.length l2) <= N)%Z
  /\ ((1 <= N)%Z ->
      hd_error l2 = Some path
      /\ count_occ string_dec l2 path = Nat.max 1 (count_occ string_dec l path)
      /\ (count_occ string_dec l path <= 1 -> count_occ string_dec l2 path = 1)).
Proof.
  intros Hbound ->. cbv zeta.
  set (l1 := if list_contains path l then list_remove path l else l).
  assert (Hcount1 : count_occ string_dec (path :: l1) path
                    = Nat.max 1 (count_occ string_dec l path)
                    /\ (In path l -> List.length (path :: l1) = List.length l)
                    /\ (~ In path l -> l1 = l)).
  { unfold l1. destruct (list_contains path l) eqn:Hc.
    - apply list_contains_In in Hc.
      pose proof (list_remove_count path l Hc). pose proof (list_remove_length path l Hc).
      rewrite count_occ_cons_eq by reflexivity. cbn [List.length].
      repeat split; [lia|lia|tauto].
    - assert (Hnot : ~ In path l).
      { intros H. apply list_contains_In in H. congruence. }
      rewrite count_occ_cons_eq by reflexivity.
      rewrite (proj1 (count_occ_not_In string_dec l path) Hnot).
      repeat split; tauto. }
  destruct Hcount1 as (Hc1 & Hlen1 & Hfresh).
  destruct (Z.of_nat (List.length (path :: l1)) >? N)%Z eqn:Hgt.
  - apply Z.gtb_lt in Hgt.
    assert (Hnot : ~ In path l).
    { intros H. rewrite (Hlen1 H) in Hgt. lia. }
    rewrite (Hfresh Hnot) in *. split.
    + rewrite removelast_length. cbn [List.length]. lia.
    + intros HN. destruct l as [|a l']; [cbn in Hgt; lia|].
      change (removelast (path :: a :: l')) with (path :: removelast (a :: l')).
      assert (H0 : count_occ string_dec (removelast (a :: l')) path = 0).
      { apply count_occ_not_In. intros H. apply Hnot. now apply In_removelast. }
      rewrite count_occ_cons_eq by reflexivity. rewrite H0.
      rewrite (proj1 (count_occ_not_In string_dec (a :: l') path) Hnot).
      repeat split; reflexivity.
  - rewrite Z.gtb_ltb in Hgt. apply Z.ltb_ge in Hgt.
    assert (Hlen : (Z.of_nat (List.length (path :: l1)) <= N)%Z) by exact Hgt.
    split; [exact Hlen|].
    intros _. split; [reflexivity|]. split; [exact Hc1|].
    intros Hle. rewrite Hc1. lia.
Qed.

(** C8, as the code has it.  For every starting list within the bound
    [max_entries], [add_path] returns with a list within the bound.  When
    [max_entries] is at least one the added path is at the front, and it
    occurs as often as before, or once if it did not occur: exactly once,
    then, when the starting list held it at most once. *)
Theorem add_path_bounded {fs} (os : platform fs) (self : RecentPathManager)
  (path : string) (s : state fs)
  (Hbound : (Z.of_nat (List.length (recent_paths self)) <= max_entries self)%Z) :
  exists self' s',
    add_path os self path s = Returns self' s'
    /\ file_path self' = file_path self
    /\ max_entries self' = max_entries self
    /\ (Z.of_nat (List.length (recent_paths self')) <= max_entries self)%Z
    /\ ((1 <= max_entries self)%Z ->
        hd_error (recent_paths self') = Some path
        /\ count_occ string_dec (recent_paths self') path
           = Nat.max 1 (count_occ string_dec (recent_paths self) path)
        /\ (count_occ string_dec (recent_paths self) path <= 1 ->
            count_occ string_dec (recent_paths self') path = 1)).
Proof.
  unfold add_path. cbv zeta.
  match goal with
  | |- context [save_recent_paths os ?m] =>
      destruct (save_recent_paths_returns os m s) as (s' & Hsave); exists m, s'
  end.
  unfold bind. rewrite Hsave. cbn [ret file_path max_entries recent_paths].
  split; [reflexivity|]. split; [reflexivity|]. split; [reflexivity|].
  exact (add_path_list (max_entries self) path (recent_paths self) _ Hbound eq_refl).
Qed.

Lemma In_list_remove (x y : string) (l : list string) :
  In y (list_remove x l) -> In y l.
Proof.
  induction l as [|z l IH]; cbn; [tauto|].
  destruct (String.eqb x z); cbn; tauto.
Qed.

Lemma NoDup_list_remove (x : string) (l : list string) :
  NoDup l -> NoDup (list_remove x l) /\ ~ In x (list_remove x l).
Proof.
  induction 1 as [|z l Hz Hnd IH]; cbn.
  - split; [constructor|tauto].
  - destruct (String.eqb_spec x z) as [->|Hne].
    + split; assumption.
    + destruct IH as (IH1 & IH2). split.
      * constructor; [|assumption]. intros H. apply Hz. eapply In_list_remove, H.
      * cbn. intros [H|H]; [congruence|tauto].
Qed.

Lemma NoDup_removelast (l : list string) : NoDup l -> NoDup (removelast l).
Proof.
  induction 1 as [|z l Hz Hnd IH]; [constructor|].
  destruct l as [|y l]; [constructor|].
  change (removelast (z :: y :: l)) with (z :: removelast (y :: l)).
  constructor; [|assumption]. intros H. apply Hz. now apply In_removelast.
Qed.

(** The invariant the list lives by: a list without duplicates stays
    without duplicates, whatever path is added. *)
Lemma add_path_preserves_NoDup {fs} (os : platform fs) (self : RecentPathManager)
  (path : string) (s : state fs) :
  NoDup (recent_paths self) ->
  exists self' s',
    add_path os self path s = Returns self' s' /\ NoDup (recent_paths self').
Proof.
  intros Hnd. unfold add_path. cbv zeta.
  match goal with
  | |- context [save_recent_paths os ?m] =>
      destruct (save_recent_paths_returns os m s) as (s' & Hsave); exists m, s'
  end.
  unfold bind. rewrite Hsave. split; [reflexivity|]. cbn [recent_paths].
  assert (H : NoDup (path :: (if list_contains path (recent_paths self)
                              then list_remove path (recent_paths self)
                              else recent_paths self))).
  { destruct (list_contains path (recent_paths self)) eqn:Hc.
    - destruct (NoDup_list_remove path _ Hnd). now constructor.
    - constructor; [|assumption]. intros H. apply list_contains_In in H. congruence. }
  destruct (_ >? _)%Z; [now apply NoDup_removelast|assumption].
Qed.

Lemma add_path_bounded_witness :
  (Z.of_nat (List.length (recent_paths recent_three)) <= max_entries recent_three)%Z
  /\ exists self' s',
    add_path MemFS.os recent_three "/b" (MemFS.boot fresh_disk) = Returns self' s'
    /\ file_path self' = file_path recent_three
    /\ max_entries self' = max_entries recent_three
    /\ (Z.of_nat (List.length (recent_paths self')) <= max_entries recent_three)%Z
    /\ ((1 <= max_entries recent_three)%Z ->
        hd_error (recent_paths self') = Some "/b"
        /\ count_occ string_dec (recent_paths self') "/b"
           = Nat.max 1 (count_occ string_dec (recent_paths recent_three) "/b")
        /\ (count_occ string_dec (recent_paths recent_three) "/b" <= 1 ->
            count_occ string_dec (recent_paths self') "/b" = 1)).
Proof.
  assert (H : (Z.of_nat (List.length (recent_paths recent_three))
               <= max_entries recent_three)%Z) by (vm_compute; discriminate).
  split; [exact H|].
  exact (add_path_bounded MemFS.os recent_three "/b" (MemFS.boot fresh_disk) H).
Defined.

(** A full list drops its oldest entry; a path already listed moves to the
    front. *)
Example add_path_full_list :
  exists s', add_path MemFS.os recent_three "/b" (MemFS.boot fresh_disk)
             = Returns {| file_path := "recent_paths.json"; max_entries := 3;
                          recent_paths := ["/b"; "/out"; "/x/y"] |} s'.
Proof. eexists. vm_compute. reflexivity. Qed.

Example add_path_moves_to_front :
  exists s', add_path MemFS.os recent_three "/x/y" (MemFS.boot fresh_disk)
             = Returns {| file_path := "recent_paths.json"; max_entries := 3;
                          recent_paths := ["/x/y"; "/out"; "/a"] |} s'.
Proof. eexists. vm_compute. reflexivity. Qed.

(** C8 as stated fails on the code.  A starting list within the bound that
    holds the path twice still holds it twice afterwards: [remove] drops one
    occurrence only.  And with [max_entries = 0] the empty list stays
    empty: the added path is popped at once and is not at the front. *)
Lemma add_path_keeps_duplicate :
  (exists self' s',
     add_path MemFS.os {| file_path := "recent_paths.json"; max_entries := 10;
                          recent_paths := ["/out"; "/out"] |} "/out" (MemFS.boot fresh_disk)
     = Returns self' s'
     /\ (Z.of_nat (List.length ["/out"; "/out"]) <= 10)%Z
     /\ recent_paths self' = ["/out"; "/out"]
     /\ count_occ string_dec (recent_paths self') "/out" = 2)
  /\ (exists self' s',
        add_path MemFS.os {| file_path := "recent_paths.json"; max_entries := 0;
                             recent_paths := [] |} "/out" (MemFS.boot fresh_disk)
        = Returns self' s'
        /\ (Z.of_nat (List.length (@nil string)) <= 0)%Z
        /\ recent_paths self' = []
        /\ hd_error (recent_paths self') <> Some "/out").
Proof.
  split.
  - eexists _, _. split; [vm_compute; reflexivity|].
    split; [vm_compute; discriminate|]. split; reflexivity.
  - eexists _, _. split; [vm_compute; reflexivity|].
    split; [vm_compute; discriminate|]. split; [reflexivity|discriminate].
Qed.

(** ** The recent-paths list over a history of uses *)

Lemma filter_others_absent (p : string) (l : list string) :
  ~ In p l -> filter (fun x => negb (String.eqb p x)) l = l.
Proof.
  induction l as [|y l IH]; [reflexivity|]. intros H. cbn.
  destruct (String.eqb_spec p y) as [->|_]; [exfalso; apply H; now left|].
  cbn. f_equal. apply IH. intros Hin. apply H. now right.
Qed.

Lemma list_remove_filter (p : string) (l : list string) :
  NoDup l -> list_remove p l = filter (fun x => negb (String.eqb p x)) l.
Proof.
  induction 1 as [|y l Hy Hnd IH]; [reflexivity|]. cbn.
  destruct (String.eqb_spec p y) as [->|_]; cbn.
  - symmetry. now apply filter_others_absent.
  - now rewrite IH.
Qed.

Lemma In_firstn_le (x : string) (l : list string) :
  forall n m, n <= m -> In x (firstn n l) -> In x (firstn m l).
Proof.
  induction l as [|y l IH]; intros n m Hle H.
  - now rewrite firstn_nil in H.
  - destruct n as [|n]; [contradiction|]. destruct m as [|m]; [lia|].
    cbn [firstn] in *. destruct H as [H|H]; [now left|].
    right. apply (IH n m); [lia|assumption].
Qed.

Lemma In_firstn_all (x : string) (l : list string) (n : nat) :
  In x (firstn n l) -> In x l.
Proof.
  intros H. rewrite <- (firstn_all l).
  destruct (Nat.le_ge_cases n (List.length l)) as [Hle|Hge].
  - now apply (In_firstn_le x l n).
  - rewrite firstn_all2 in H by assumption. now rewrite firstn_all.
Qed.

Lemma firstn_filter_present (p : string) (D : list string) :
  NoDup D -> forall n, In p (firstn n D) ->
  filter (fun x => negb (String.eqb p x)) (firstn n D)
  = firstn (n - 1) (filter (fun x => negb (String.eqb p x)) D).
Proof.
  induction 1 as [|y D Hy Hnd IH]; intros n Hin.
  - destruct n; contradiction.
  - destruct n as [|n]; [contradiction|]. cbn [firstn filter Nat.sub] in *.
    rewrite Nat.sub_0_r.
    destruct (String.eqb_spec p y) as [->|Hne]; cbn [negb].
    + rewrite (filter_others_absent y D Hy). apply filter_others_absent.
      intros H. apply Hy. eapply In_firstn_all, H.
    + destruct Hin as [Heq|Hin]; [congruence|].
      rewrite (IH n Hin). destruct n as [|n]; [contradiction|].
      cbn [Nat.sub firstn]. now rewrite Nat.sub_0_r.
Qed.

Lemma firstn_filter_absent (p : string) (D : list string) :
  forall m, ~ In p (firstn m D) ->
  firstn m (filter (fun x => negb (String.eqb p x)) D) = firstn m D.
Proof.
  induction D as [|y D IH]; intros m Hout; [reflexivity|].
  destruct m as [|m]; [reflexivity|]. cbn [firstn filter] in *.
  destruct (String.eqb_spec p y) as [->|Hne]; [exfalso; apply Hout; now left|].
  cbn [negb firstn]. f_equal. apply IH. intros H. apply Hout. now right.
Qed.

Lemma nodup_snoc (p : string) (history : list string) :
  nodup string_dec (history ++ [p])
  = filter (fun x => negb (String.eqb p x)) (nodup string_dec history) ++ [p].
Proof.
  induction history as [|y h IH]; [reflexivity|]. cbn [app nodup].
  destruct (in_dec string_dec y (h ++ [p])) as [Hin|Hout];
    destruct (in_dec string_dec y h) as [Hin'|Hout'].
  - exact IH.
  - apply in_app_or in Hin as [Hin|[<-|[]]]; [contradiction|].
    rewrite IH. cbn [filter]. now rewrite String.eqb_refl.
  - exfalso. apply Hout. apply in_or_app. now left.
  - cbn [filter]. destruct (String.eqb_spec p y) as [->|Hne].
    + exfalso. apply Hout. apply in_or_app. right. now left.
    + cbn [negb app]. now rewrite IH.
Qed.

Lemma filter_rev_others (p : string) (l : list string) :
  filter (fun x => negb (String.eqb p x)) (rev l)
  = rev (filter (fun x => negb (String.eqb p x)) l).
Proof.
  induction l as [|y l IH]; [reflexivity|]. cbn [rev filter].
  rewrite filter_app, IH. cbn [filter].
  destruct (negb (String.eqb p y)); cbn [rev]; [reflexivity|now rewrite app_nil_r].
Qed.

(** One more use puts its path first and drops the path's older place. *)
Lemma most_recent_first_snoc (p : string) (history : list string) :
  most_recent_first (history ++ [p])
  = p :: filter (fun x => negb (String.eqb p x)) (most_recent_first history).
Proof.
  unfold most_recent_first. rewrite nodup_snoc, rev_app_distr. cbn [rev app].
  now rewrite filter_rev_others.
Qed.

Lemma most_recent_first_NoDup (history : list string) : NoDup (most_recent_first history).
Proof. unfold most_recent_first. apply NoDup_rev, NoDup_nodup. Qed.

(** The list [add_path] computes, on the first [n] of a duplicate-free
    list [D]: the first [n] of [D] with the path moved to its front. *)
Lemma add_path_list_recent (N : Z) (p : string) (D : list string) :
  NoDup D ->
  (let paths := if list_contains p (firstn (Z.to_nat N) D)
                then list_remove p (firstn (Z.to_nat N) D)
                else firstn (Z.to_nat N) D in
   let paths := p :: paths in
   if (Z.of_nat (List.length paths) >? N)%Z then removelast paths else paths)
  = firstn (Z.to_nat N) (p :: filter (fun x => negb (String.eqb p x)) D).
Proof.
  intros Hnd. cbv zeta. set (n := Z.to_nat N). set (L := firstn n D).
  assert (HL : NoDup L).
  { unfold L. rewrite <- (firstn_skipn n D) in Hnd. eapply NoDup_app_remove_r, Hnd. }
  assert (Hlen : List.length L <= n) by apply firstn_le_length.
  destruct (list_contains p L) eqn:Hc.
  - apply list_contains_In in Hc.
    pose proof (list_remove_length p L Hc) as Hrem.
    assert (Hn : 1 <= n) by (destruct L; [contradiction|cbn in Hlen; lia]).
    assert (Hno : (Z.of_nat (List.length (p :: list_remove p L)) >? N)%Z = false).
    { rewrite Z.gtb_ltb. apply Z.ltb_ge. cbn [List.length]. lia. }
    rewrite Hno, (list_remove_filter p L HL). unfold L.
    rewrite (firstn_filter_present p D Hnd n Hc).
    destruct n as [|n']; [lia|]. cbn [firstn Nat.sub]. now rewrite Nat.sub_0_r.
  - assert (Hout : ~ In p L).
    { intros H. apply list_contains_In in H. congruence. }
    destruct (Z.of_nat (List.length (p :: L)) >? N)%Z eqn:Hgt.
    + apply Z.gtb_lt in Hgt. cbn [List.length] in Hgt.
      destruct (Z.le_gt_cases 0 N) as [HN|HN].
      * assert (HLn : List.length L = n) by lia.
        destruct n as [|n'].
        { destruct L; [reflexivity|discriminate]. }
        destruct L as [|a L'] eqn:HLeq; [discriminate|].
        change (removelast (p :: a :: L')) with (p :: removelast (a :: L')).
        cbn [firstn]. f_equal. rewrite <- HLeq in *.
        rewrite removelast_firstn_len, HLn. cbn [Nat.pred].
        rewrite firstn_filter_absent.
        -- unfold L. rewrite firstn_firstn. f_equal. lia.
        -- intros H. apply Hout. unfold L.
           apply (In_firstn_le p D n' (S n')); [lia|assumption].
      * assert (Hn0 : n = 0) by lia. unfold L. rewrite Hn0. reflexivity.
    + rewrite Z.gtb_ltb in Hgt. apply Z.ltb_ge in Hgt. cbn [List.length] in Hgt.
      assert (Hshort : List.length D < n).
      { unfold L in Hgt. rewrite length_firstn in Hgt. lia. }
      assert (HD : L = D) by (unfold L; apply firstn_all2; lia).
      rewrite HD in *. rewrite (filter_others_absent p D Hout).
      destruct n as [|n']; [lia|]. cbn [firstn]. f_equal.
      symmetry. apply firstn_all2. lia.
Qed.

(** [add_path] returns the manager with the list it computed, whatever
    the write does: a write that returns leaves its file system, a write
    that raises is logged. *)
Lemma add_path_run {fs} (os : platform fs) (self : RecentPathManager) (path : string)
  (s : state fs) :
  let paths := if list_contains path (recent_paths self)
               then list_remove path (recent_paths self) else recent_paths self in
  let paths := path :: paths in
  let paths := if (Z.of_nat (List.length paths) >? max_entries self)%Z
               then removelast paths else paths in
  let self' := {| file_path := file_path self; max_entries := max_entries self;
                  recent_paths := paths |} in
  add_path os self path s
  = Returns self'
      match sys_write os (disk s) (file_path self) (json_dumps os paths) with
      | Ok d' => mkState d' (trace s ++ [EvWrite (file_path self) (json_dumps os paths) None])
                   (success_count s) (error_count s)
      | Raise e => observe [EvWrite (file_path self) (json_dumps os paths) (Some e);
                            EvLoggingError e] s
      end.
Proof.
  cbv zeta. unfold add_path. cbv zeta.
  unfold bind at 1, save_recent_paths, try_except, write_file, bind at 1, get_disk.
  cbn [file_path recent_paths].
  destruct (sys_write os (disk s) (file_path self) _) as [d'|e]; cbn.
  - reflexivity.
  - unfold emit. now rewrite observe_observe.
Qed.

(** X1. Starting from the empty list, after any series of [add_path] calls
    the list holds the distinct paths used, most recently used first, cut
    to [max_entries] (to nothing when [max_entries] is zero or less); the
    calls never raise, whatever the writes do. *)
Theorem add_paths_most_recent_first {fs} (os : platform fs) (file : string) (N : Z)
  (paths : list string) (s : state fs) :
  exists s',
    add_paths os {| file_path := file; max_entries := N; recent_paths := [] |} paths s
    = Returns {| file_path := file; max_entries := N;
                 recent_paths := firstn (Z.to_nat N) (most_recent_first paths) |} s'.
Proof.
  assert (H : forall rest history s0,
             exists s',
               add_paths os {| file_path := file; max_entries := N;
                               recent_paths := firstn (Z.to_nat N) (most_recent_first history) |}
                 rest s0
               = Returns {| file_path := file; max_entries := N;
                            recent_paths :=
                              firstn (Z.to_nat N) (most_recent_first (history ++ rest)) |} s').
  { induction rest as [|p rest IH]; intros history s0.
    - exists s0. now rewrite app_nil_r.
    - cbn [add_paths]. unfold bind. rewrite add_path_run.
      cbv zeta. cbn [file_path max_entries recent_paths].
      pose proof (add_path_list_recent N p _ (most_recent_first_NoDup history)) as Hl.
      cbv zeta in Hl. rewrite !Hl.
      rewrite <- most_recent_first_snoc.
      match goal with |- context [add_paths os _ rest ?st] => destruct (IH (history ++ [p]) st) as (s' & Hs') end.
      exists s'. rewrite Hs', <- app_assoc. reflexivity. }
  destruct (H paths [] s) as (s' & Hs'). exists s'.
  rewrite firstn_nil in Hs'. exact Hs'.
Qed.

(** A history with a repeated path, on a list of three. *)
Example add_paths_scenario :
  exists s',
    add_paths MemFS.os {| file_path := "recent_paths.json"; max_entries := 3;
                          recent_paths := [] |}
      ["/a"; "/b"; "/c"; "/a"; "/d"] (MemFS.boot fresh_disk)
    = Returns {| file_path := "recent_paths.json"; max_entries := 3;
                 recent_paths := ["/d"; "/a"; "/c"] |} s'.
Proof. eexists. vm_compute. reflexivity. Qed.

(** X3. What [save_recent_paths] writes is what [load_recent_paths] reads
    back: where the file system returns the text just written and the
    decoder inverts the encoder on the list, loading after saving yields
    the saved paths, in order, as a JSON array of strings. *)
Theorem save_then_load {fs} (os : platform fs) (self : RecentPathManager) (s : state fs)
  (d' : fs)
  (Hwrite : sys_write os (disk s) (file_path self) (json_dumps os (recent_paths self)) = Ok d')
  (Hexists : sys_exists os d' (file_path self) = true)
  (Hread : sys_read os d' (file_path self) = Ok (json_dumps os (recent_paths self)))
  (Hcodec : json_loads os (json_dumps os (recent_paths self))
            = Ok (JArray (map JString (recent_paths self)))) :
  exists s1 s2,
    save_recent_paths os self s = Returns tt s1
    /\ load_recent_paths os self s1 = Returns (JArray (map JString (recent_paths self))) s2
    /\ disk s2 = d'
    /\ trace s2 = trace s ++ [EvWrite (file_path self) (json_dumps os (recent_paths self)) None;
                              EvExists (file_path self) true;
                              EvRead (file_path self) None].
Proof.
  eexists _, _. split; [|split; [|split]].
  - unfold save_recent_paths, try_except, write_file, bind, get_disk.
    rewrite Hwrite. cbn. reflexivity.
  - unfold load_recent_paths, bind at 1, try_except, bind at 1.
    rewrite os_path_exists_run. cbn [disk]. rewrite Hexists.
    unfold bind at 1, read_file, bind at 1, get_disk. cbn [disk observe].
    rewrite Hread. cbn. unfold json_load. rewrite Hcodec. cbn. reflexivity.
  - reflexivity.
  - cbn. now rewrite <- !app_assoc.
Qed.

Lemma save_then_load_witness :
  MemFS.write fresh_disk (file_path recent_three) (MemFS.dumps (recent_paths recent_three))
  = Ok (MemFS.add fresh_disk "recent_paths.json"
          (MemFS.File (MemFS.dumps ["/out"; "/x/y"; "/a"])))
  /\ MemFS.exists_ (MemFS.add fresh_disk "recent_paths.json"
                      (MemFS.File (MemFS.dumps ["/out"; "/x/y"; "/a"])))
       (file_path recent_three) = true
  /\ MemFS.read (MemFS.add fresh_disk "recent_paths.json"
                   (MemFS.File (MemFS.dumps ["/out"; "/x/y"; "/a"])))
       (file_path recent_three)
     = Ok (MemFS.dumps (recent_paths recent_three))
  /\ MemFS.loads (MemFS.dumps (recent_paths recent_three))
     = Ok (JArray (map JString (recent_paths recent_three)))
  /\ exists s1 s2,
    save_recent_paths MemFS.os recent_three (MemFS.boot fresh_disk) = Returns tt s1
    /\ load_recent_paths MemFS.os recent_three s1
       = Returns (JArray (map JString (recent_paths recent_three))) s2
    /\ disk s2 = MemFS.add fresh_disk "recent_paths.json"
                   (MemFS.File (MemFS.dumps ["/out"; "/x/y"; "/a"]))
    /\ trace s2 = trace (MemFS.boot fresh_disk)
                    ++ [EvWrite (file_path recent_three)
                          (MemFS.dumps (recent_paths recent_three)) None;
                        EvExists (file_path recent_three) true;
                        EvRead (file_path recent_three) None].
Proof.
  split; [vm_compute; reflexivity|]. split; [vm_compute; reflexivity|].
  split; [vm_compute; reflexivity|]. split; [vm_compute; reflexivity|].
  exact (save_then_load MemFS.os recent_three (MemFS.boot fresh_disk)
           (MemFS.add fresh_disk "recent_paths.json"
              (MemFS.File (MemFS.dumps ["/out"; "/x/y"; "/a"])))
           eq_refl eq_refl eq_refl eq_refl).
Defined.

(** ** Validation, case by case *)

(** [validate_inputs] by its checks, in their order. *)
Lemma validate_inputs_run {fs} (os : platform fs) (self : HardlinkCreator) (s : state fs) :
  validate_inputs os self s
  = match files_list self with
    | [] => Returns false (observe [EvShowError EmptyInput] s)
    | _ :: _ =>
        if String.eqb (output_dir self) "" then
          Returns false (observe [EvShowError NoDestination] s)
        else if sys_exists os (disk s) (output_dir self) then
          Returns true (observe [EvExists (output_dir self) true] s)
        else
          match sys_makedirs os (disk s) (output_dir self) with
          | Ok d' =>
              Returns true
                (mkState d' (trace s ++ [EvExists (output_dir self) false;
                                         EvMakedirs (output_dir self) None])
                   (success_count s) (error_count s))
          | Raise e =>
              Returns false
                (observe [EvExists (output_dir self) false;
                          EvMakedirs (output_dir self) (Some e);
                          EvShowError (DestinationCreateError e)] s)
          end
    end.
Proof.
  unfold validate_inputs. destruct (files_list self) as [|f rest]; [reflexivity|].
  cbn [List.length Nat.eqb].
  destruct (String.eqb (output_dir self) ""); [reflexivity|].
  unfold bind at 1. rewrite os_path_exists_run.
  destruct (sys_exists os (disk s) (output_dir self)); [reflexivity|].
  cbn [negb]. unfold try_except, bind at 1, os_makedirs, bind at 1, get_disk.
  cbn [disk observe].
  destruct (sys_makedirs os (disk s) (output_dir self)) as [d'|e]; cbn.
  - now rewrite <- app_assoc.
  - unfold observe. cbn. now rewrite <- !app_assoc.
Qed.

Lemma validate_inputs_returns {fs} (os : platform fs) (self : HardlinkCreator)
  (s : state fs) :
  exists b s', validate_inputs os self s = Returns b s'.
Proof.
  rewrite validate_inputs_run.
  destruct (files_list self); [eexists _, _; reflexivity|].
  destruct (String.eqb (output_dir self) ""); [eexists _, _; reflexivity|].
  destruct (sys_exists os (disk s) (output_dir self)); [eexists _, _; reflexivity|].
  destruct (sys_makedirs os (disk s) (output_dir self)); eexists _, _; reflexivity.
Qed.

(** X4. [validate_inputs] never raises.  It accepts exactly when files
    are listed, the output entry is filled in, and the output directory
    exists or [os.makedirs] creates it.  It shows an alert exactly when it
    rejects, as its last act, and the first failing check decides which:
    the empty file list before the empty entry, the empty entry before
    the directory. *)
Theorem validate_inputs_verdict {fs} (os : platform fs) (self : HardlinkCreator)
  (s : state fs) :
  exists b s' evs,
    validate_inputs os self s = Returns b s'
    /\ trace s' = trace s ++ evs
    /\ (b = true <->
        files_list self <> [] /\ output_dir self <> ""
        /\ (sys_exists os (disk s) (output_dir self) = true
            \/ exists d', sys_makedirs os (disk s) (output_dir self) = Ok d'))
    /\ (b = true -> forall a, ~ In (EvShowError a) evs)
    /\ (b = false ->
        exists a, last evs EvRootUpdate = EvShowError a
          /\ (a = EmptyInput <-> files_list self = [])
          /\ (a = NoDestination <-> files_list self <> [] /\ output_dir self = "")
          /\ (forall e, a = DestinationCreateError e <->
                files_list self <> [] /\ output_dir self <> ""
                /\ sys_exists os (disk s) (output_dir self) = false
                /\ sys_makedirs os (disk s) (output_dir self) = Raise e)).
Proof.
  rewrite validate_inputs_run.
  destruct (files_list self) as [|f rest] eqn:Hfiles.
  { eexists _, _, _. split; [reflexivity|]. split; [reflexivity|].
    split; [split; [discriminate|intros (H & _); congruence]|].
    split; [discriminate|]. intros _. exists EmptyInput. cbn.
    repeat split; try congruence; try discriminate; intros; intuition congruence. }
  destruct (String.eqb_spec (output_dir self) "") as [Hdir|Hdir].
  { eexists _, _, _. split; [reflexivity|]. split; [reflexivity|].
    split; [split; [discriminate|intros (_ & H & _); congruence]|].
    split; [discriminate|]. intros _. exists NoDestination. cbn.
    repeat split; try congruence; try discriminate; intros; intuition congruence. }
  destruct (sys_exists os (disk s) (output_dir self)) eqn:Hex.
  { eexists _, _, _. split; [reflexivity|]. split; [reflexivity|].
    split; [split; [intros _; repeat split; (congruence || tauto)|reflexivity]|].
    split; [|discriminate]. intros _ a [H|[]]. discriminate. }
  destruct (sys_makedirs os (disk s) (output_dir self)) as [d'|e] eqn:Hmk.
  - eexists _, _, _. split; [reflexivity|]. split; [reflexivity|].
    split; [split; [intros _; repeat split; try congruence; right; now exists d'|reflexivity]|].
    split; [|discriminate]. intros _ a [H|[H|[]]]; discriminate.
  - eexists _, _, _. split; [reflexivity|]. split; [reflexivity|].
    split.
    + split; [discriminate|]. intros (_ & _ & [H|(d' & H)]); congruence.
    + split; [discriminate|]. intros _. exists (DestinationCreateError e). cbn.
      repeat split; try congruence; try discriminate; intros; intuition congruence.
Qed.

(** X5. What [validate_inputs] leaves alone: it makes no link call, logs
    no outcome, writes no file and keeps the counters; the only call that
    can change the file system is [os.makedirs], made on the output
    directory and only when the existence test just before found nothing
    there; otherwise the file system is as before. *)
Theorem validate_inputs_frame {fs} (os : platform fs) (self : HardlinkCreator)
  (s : state fs) :
  exists b s' evs,
    validate_inputs os self s = Returns b s'
    /\ trace s' = trace s ++ evs
    /\ link_calls evs = []
    /\ log_lines evs = []
    /\ (forall p text r, ~ In (EvWrite p text r) evs)
    /\ success_count s' = success_count s
    /\ error_count s' = error_count s
    /\ (forall p r, In (EvMakedirs p r) evs ->
          p = output_dir self /\ sys_exists os (disk s) p = false
          /\ In (EvExists p false) evs)
    /\ (disk s' = disk s
        \/ (In (EvMakedirs (output_dir self) None) evs
            /\ sys_makedirs os (disk s) (output_dir self) = Ok (disk s'))).
Proof.
  rewrite validate_inputs_run.
  destruct (files_list self) as [|f rest];
    [|destruct (String.eqb (output_dir self) "");
      [|destruct (sys_exists os (disk s) (output_dir self)) eqn:Hex;
        [|destruct (sys_makedirs os (disk s) (output_dir self)) as [d'|e] eqn:Hmk]]];
    eexists _, _, _; (split; [reflexivity|]); (split; [reflexivity|]);
    (split; [reflexivity|]); (split; [reflexivity|]);
    (split; [intros p text r H; cbn in H; intuition discriminate|]);
    (split; [reflexivity|]); (split; [reflexivity|]).
  - split; [intros p r H; cbn in H; intuition discriminate|now left].
  - split; [intros p r H; cbn in H; intuition discriminate|now left].
  - split; [intros p r H; cbn in H; intuition discriminate|now left].
  - split.
    + intros p r [H|[H|[]]]; [discriminate|]. injection H as <- <-.
      repeat split; [assumption|now left].
    + right. split; [right; now left|reflexivity].
  - split.
    + intros p r [H|[H|[H|[]]]]; try discriminate. injection H as <- <-.
      repeat split; [assumption|now left].
    + now left.
Qed.

(** ** The batch beside widgets that can fail *)

Section TkRuns.

Context {world : Type} (os : platform world) (tk : toolkit world).

Lemma call_run (op : world -> result world) (evs : list event) (s : state world)
  (d' : world) :
  op (disk s) = Ok d' ->
  Tk.call op evs s
  = Returns tt (mkState d' (trace s ++ evs) (success_count s) (error_count s)).
Proof. intros H. unfold Tk.call. now rewrite H. Qed.

(** [log_status] by its three calls. *)
Lemma log_status_run (line : log_line) (s : state world) (d1 d2 d3 : world) :
  text_insert tk (disk s) line = Ok d1 ->
  text_see tk d1 = Ok d2 ->
  logging_info tk d2 line = Ok d3 ->
  Tk.log_status tk line s
  = Returns tt (mkState d3 (trace s ++ [EvLogStatus line]) (success_count s) (error_count s)).
Proof.
  intros H1 H2 H3. unfold Tk.log_status, bind.
  rewrite (call_run _ _ s d1 H1).
  rewrite (call_run (text_see tk) _ _ d2) by exact H2.
  cbn [disk trace success_count error_count].
  rewrite (call_run (fun d => logging_info tk d line) _ _ d3) by exact H3.
  cbn [disk trace success_count error_count].
  now rewrite !app_nil_r.
Qed.

(** With widgets that answer, [log_status] shows its line and returns. *)
Lemma log_status_returns (line : log_line) (s : state world) :
  toolkit_returns tk ->
  exists d', Tk.log_status tk line s
             = Returns tt (mkState d' (trace s ++ [EvLogStatus line])
                             (success_count s) (error_count s)).
Proof.
  intros (_ & _ & Hins & Hsee & Hlog & _).
  destruct (Hins (disk s) line) as (d1 & H1).
  destruct (Hsee d1) as (d2 & H2).
  destruct (Hlog d2 line) as (d3 & H3).
  exists d3. now apply (log_status_run line s d1 d2 d3).
Qed.

(** One round settles, with the events of a round of the program that has
    no failing widget. *)
Lemma tk_process_file_run (total : nat) (output_dir : string) (i : nat) (file : string)
  (s : state world) :
  toolkit_returns tk -> finite_support os -> total <> 0 ->
  exists s' out probes raised,
    settles (fun fuel => Tk.process_file os tk fuel total output_dir i file) s tt s'
    /\ trace s' = trace s ++ round_events total i file out probes raised
    /\ link_calls probes = [] /\ log_lines probes = [] /\ progress_values probes = []
    /\ success_count s'
       = success_count s + List.length (filter is_success [line_of_call (file, out, raised)])
    /\ error_count s'
       = error_count s + List.length (filter is_failure [line_of_call (file, out, raised)]).
Proof.
  intros Htk Hfin Htotal.
  pose proof Htk as (Hbar & Hlab & Hins & Hsee & Hlog & Hupd & _).
  set (v := PyFloat.percent (Z.of_nat (i + 1)) (Z.of_nat total)).
  destruct (Hbar (disk s) v) as (d1 & Hd1).
  destruct (Hlab d1 (i + 1) total) as (d2 & Hd2).
  pose (s2 := mkState d2 (trace s ++ [EvProgressBar v; EvStatusLabel (i + 1) total])
                (success_count s) (error_count s)).
  destruct (Hfin d2) as (l & Hl).
  destruct (resolves_total _ l output_dir file Hl) as (out & probes & Hres).
  destruct (resolves_silent _ _ _ _ _ Hres) as (Q1 & Q2 & Q3).
  destruct (resolve_output_path_run os output_dir file out probes s2 Hres) as (fuel0 & Hrun).
  assert (Hstart : forall fuel, fuel0 <= fuel ->
            Tk.process_file os tk fuel total output_dir i file s
            = (try_except
                 (os_link os file out ;;
                  n <- get_success_count ;; set_success_count (n + 1) ;;
                  Tk.log_status tk (Success out))
                 (fun e => n <- get_error_count ;; set_error_count (n + 1) ;;
                           Tk.log_status tk (Failure file e)) ;;
               Tk.call (root_update tk) [EvRootUpdate]) (observe probes s2)).
  { intros fuel Hfuel. unfold Tk.process_file, progress_percent.
    apply Nat.eqb_neq in Htotal. rewrite Htotal.
    unfold bind at 1, try_except at 1. unfold bind at 1, ret at 1. fold v.
    unfold bind at 1. rewrite (call_run _ _ s d1 Hd1).
    unfold bind at 1.
    rewrite (call_run (fun d => label_set tk d (i + 1) total) _ _ d2) by exact Hd2.
    cbn [disk trace success_count error_count]. rewrite <- app_assoc. cbn [app]. fold s2.
    unfold bind at 1. rewrite (Hrun fuel Hfuel). reflexivity. }
  destruct (sys_link os d2 file out) as [d3|e] eqn:Hlink.
  - destruct (Hins d3 (Success out)) as (d4 & Hd4).
    destruct (Hsee d4) as (d5 & Hd5).
    destruct (Hlog d5 (Success out)) as (d6 & Hd6).
    destruct (Hupd d6) as (d7 & Hd7).
    exists (mkState d7 (trace s ++ round_events total i file out probes None)
              (success_count s + 1) (error_count s)), out, probes, None.
    split; [|cbn; repeat split; auto].
    exists fuel0. intros fuel Hfuel. rewrite (Hstart fuel Hfuel).
    unfold bind at 1, try_except, bind at 1, os_link, bind at 1, get_disk.
    cbn [disk observe s2]. rewrite Hlink.
    unfold bind at 1, emit, set_disk. unfold bind at 1, get_success_count.
    unfold bind at 1, set_success_count.
    cbn [disk trace success_count error_count observe].
    rewrite (log_status_run _ _ d4 d5 d6) by assumption.
    rewrite (call_run (root_update tk) _ _ d7) by exact Hd7.
    unfold round_events. fold v. subst s2.
    cbn [disk trace success_count error_count line_of_call].
    do 2 f_equal. rewrite <- !app_assoc. reflexivity.
  - destruct (Hins d2 (Failure file e)) as (d4 & Hd4).
    destruct (Hsee d4) as (d5 & Hd5).
    destruct (Hlog d5 (Failure file e)) as (d6 & Hd6).
    destruct (Hupd d6) as (d7 & Hd7).
    exists (mkState d7 (trace s ++ round_events total i file out probes (Some e))
              (success_count s) (error_count s + 1)), out, probes, (Some e).
    split; [|cbn; repeat split; auto].
    exists fuel0. intros fuel Hfuel. rewrite (Hstart fuel Hfuel).
    unfold bind at 1, try_except, bind at 1, os_link, bind at 1, get_disk.
    cbn [disk observe s2]. rewrite Hlink.
    unfold bind at 1, emit, raise. unfold bind at 1, get_error_count.
    unfold bind at 1, set_error_count.
    cbn [disk trace success_count error_count observe].
    rewrite (log_status_run _ _ d4 d5 d6) by assumption.
    rewrite (call_run (root_update tk) _ _ d7) by exact Hd7.
    unfold round_events. fold v. subst s2.
    cbn [disk trace success_count error_count line_of_call].
    do 2 f_equal. rewrite <- !app_assoc. reflexivity.
Qed.

(** The loop over [files] settles, having made one link call per file. *)
Lemma tk_batch_loop_run (total : nat) (output_dir : string) (files : list string) :
  toolkit_returns tk -> finite_support os -> List.length files <= total ->
  forall (i : nat) (s : state world),
  exists s' evs,
    settles (fun fuel => for_enumerate (Tk.process_file os tk fuel total output_dir) i files)
      s tt s'
    /\ trace s' = trace s ++ evs
    /\ map (fun call => fst (fst call)) (link_calls evs) = files
    /\ log_lines evs = map line_of_call (link_calls evs)
    /\ success_count s' = success_count s + List.length (filter is_success (log_lines evs))
    /\ error_count s' = error_count s + List.length (filter is_failure (log_lines evs)).
Proof.
  intros Htk Hfin. induction files as [|file rest IH]; intros Hlen i s.
  - exists s, []. split; [exists 0; reflexivity|].
    rewrite app_nil_r. cbn. repeat split; lia.
  - simpl in Hlen.
    destruct (tk_process_file_run total output_dir i file s Htk Hfin ltac:(lia))
      as (s1 & out & probes & raised & (f1 & H1) & Htr1 & Q1 & Q2 & Q3 & Hsc1 & Hec1).
    destruct (IH ltac:(lia) (S i) s1)
      as (s2 & evs & (f2 & H2) & Htr & Hsrc & Hlog & Hsc & Hec).
    destruct (round_events_calls total i file out probes raised Q1 Q2 Q3) as (R1 & R2 & R3).
    exists s2, (round_events total i file out probes raised ++ evs).
    rewrite link_calls_app, log_lines_app, R1, R2.
    split.
    { exists (Nat.max f1 f2). intros fuel Hfuel.
      cbn [for_enumerate]. unfold bind. rewrite H1 by lia. apply H2. lia. }
    repeat split.
    + rewrite Htr, Htr1. now rewrite app_assoc.
    + cbn. now rewrite Hsrc.
    + cbn. now rewrite Hlog.
    + rewrite Hsc, Hsc1, filter_app, length_app. lia.
    + rewrite Hec, Hec1, filter_app, length_app. lia.
Qed.

(** The batch settles: every source has had its link call, every call its
    line, and the dialog and the window's end come last. *)
Lemma tk_process_files_run (files : list string) (output_dir : string) (s : state world) :
  toolkit_returns tk -> finite_support os ->
  exists s' evs,
    settles (fun fuel => Tk.process_files os tk fuel files output_dir) s tt s'
    /\ trace s' = trace s ++ evs
                    ++ [EvShowInfo (success_count s') (error_count s'); EvProgressWindow false]
    /\ map (fun call => fst (fst call)) (link_calls evs) = files
    /\ log_lines evs = map line_of_call (link_calls evs)
    /\ success_count s' = List.length (filter is_success (log_lines evs))
    /\ error_count s' = List.length (filter is_failure (log_lines evs)).
Proof.
  intros Htk Hfin.
  pose proof Htk as (_ & _ & _ & _ & _ & _ & Hinfo & Hdestroy).
  destruct (tk_batch_loop_run (List.length files) output_dir files Htk Hfin (le_n _) 0
              (counters_reset s))
    as (s1 & evs & (fuel0 & Hrun) & Htr & Hsrc & Hlog & Hsc & Hec).
  destruct (Hinfo (disk s1) (success_count s1) (error_count s1)) as (d2 & Hd2).
  destruct (Hdestroy d2) as (d3 & Hd3).
  exists (mkState d3
            (trace s1 ++ [EvShowInfo (success_count s1) (error_count s1);
                          EvProgressWindow false])
            (success_count s1) (error_count s1)), evs.
  cbn [trace success_count error_count]. cbn in Htr, Hsc, Hec.
  split; [|rewrite Htr, <- app_assoc; repeat split; assumption].
  exists fuel0. intros fuel Hfuel. unfold Tk.process_files.
  unfold bind at 1, set_success_count. unfold bind at 1, set_error_count.
  cbn [disk trace success_count error_count]. fold (counters_reset s).
  unfold bind at 1. rewrite (Hrun fuel Hfuel).
  unfold bind at 1, get_success_count. unfold bind at 1, get_error_count.
  unfold bind at 1.
  rewrite (call_run (fun d => showinfo tk d (success_count s1) (error_count s1)) _ _ d2)
    by exact Hd2.
  rewrite (call_run (window_destroy tk) _ _ d3) by exact Hd3.
  cbn [disk trace success_count error_count].
  now rewrite <- app_assoc.
Qed.

Lemma stable_tk_process_file (total : nat) (output_dir : string) (i : nat) (file : string) :
  stable (fun fuel => Tk.process_file os tk fuel total output_dir i file).
Proof.
  unfold Tk.process_file.
  apply (stable_bind (fun fuel => try_except _ _)
           (fun _ _ => Tk.call (root_update tk) [EvRootUpdate]));
    [|intros; apply stable_const].
  apply stable_try.
  apply (stable_bind (fun _ => progress_percent i total)); [apply stable_const|].
  intros progress.
  apply (stable_bind (fun _ => Tk.call _ _)); [apply stable_const|]. intros _.
  apply (stable_bind (fun _ => Tk.call _ _)); [apply stable_const|]. intros _.
  apply (stable_bind (fun fuel => resolve_output_path os fuel output_dir file)
           (fun _ output_path => os_link os file output_path ;;
              n <- get_success_count ;; set_success_count (n + 1) ;;
              Tk.log_status tk (Success output_path))).
  - apply stable_resolve_output_path.
  - intros; apply stable_const.
Qed.

Lemma stable_tk_process_files (files : list string) (output_dir : string) :
  stable (fun fuel => Tk.process_files os tk fuel files output_dir).
Proof.
  unfold Tk.process_files.
  apply (stable_bind (fun _ => set_success_count 0)); [apply stable_const|]. intros _.
  apply (stable_bind (fun _ => set_error_count 0)); [apply stable_const|]. intros _.
  apply (stable_bind
           (fun fuel => for_enumerate
                          (Tk.process_file os tk fuel (List.length files) output_dir) 0 files)
           (fun _ _ =>
              success <- get_success_count ;;
              failure <- get_error_count ;;
              Tk.call (fun d => showinfo tk d success failure) [EvShowInfo success failure] ;;
              Tk.call (window_destroy tk) [EvProgressWindow false])).
  - apply (stable_for (fun fuel => Tk.process_file os tk fuel (List.length files) output_dir)).
    intros; apply stable_tk_process_file.
  - intros; apply stable_const.
Qed.

(** With widgets that answer, nothing raised inside a round leaves it:
    what the [try] block raises reaches the handler, and the handler's
    [log_status] and the window update return. *)
Lemma tk_process_file_never_raises (fuel total : nat) (output_dir : string) (i : nat)
  (file : string) (s0 s1 : state world) (e : exn) :
  toolkit_returns tk ->
  Tk.process_file os tk fuel total output_dir i file s0 <> Raises e s1.
Proof.
  intros Htk. pose proof Htk as (_ & _ & _ & _ & _ & Hupd & _).
  unfold Tk.process_file, bind at 1, try_except.
  match goal with |- context [match ?body s0 with _ => _ end] =>
    destruct (body s0) as [[] s2|e2 s2|] end.
  - destruct (Hupd (disk s2)) as (d & Hd).
    rewrite (call_run (root_update tk) _ _ d) by exact Hd. discriminate.
  - unfold bind at 1, get_error_count. unfold bind at 1, set_error_count.
    match goal with |- context [Tk.log_status tk ?line ?st] =>
      destruct (log_status_returns line st Htk) as (d & ->) end.
    destruct (Hupd d) as (d' & Hd).
    rewrite (call_run (root_update tk) _ _ d') by exact Hd. discriminate.
  - discriminate.
Qed.

End TkRuns.

(** ** The two embeddings of the batch agree while the windows stay open *)

Lemma bind_ext {fs A B} (c c' : M fs A) (k k' : A -> M fs B) (s : state fs) :
  c s = c' s -> (forall a s1, k a s1 = k' a s1) -> bind c k s = bind c' k' s.
Proof.
  intros Hc Hk. unfold bind. rewrite Hc.
  destruct (c' s); [apply Hk|reflexivity|reflexivity].
Qed.

Lemma try_except_ext {fs A} (c c' : M fs A) (h h' : exn -> M fs A) (s : state fs) :
  c s = c' s -> (forall e s1, h e s1 = h' e s1) -> try_except c h s = try_except c' h' s.
Proof.
  intros Hc Hh. unfold try_except. rewrite Hc.
  destruct (c' s); [reflexivity|apply Hh|reflexivity].
Qed.

Lemma for_enumerate_ext {fs A} (body body' : nat -> A -> M fs unit) (l : list A) :
  (forall i x s, body i x s = body' i x s) ->
  forall i s, for_enumerate body i l s = for_enumerate body' i l s.
Proof.
  intros Hbody. induction l as [|x l IH]; intros i s; [reflexivity|].
  cbn [for_enumerate]. apply bind_ext; [apply Hbody|]. intros _ s1. apply IH.
Qed.

Lemma log_status_steady {world} (line : log_line) (s : state world) :
  Tk.log_status steady line s = log_status line s.
Proof.
  unfold Tk.log_status, log_status, emit, bind, Tk.call, observe. cbn.
  now rewrite !app_nil_r.
Qed.

Lemma process_file_steady {world} (os : platform world) (fuel total : nat)
  (output_dir : string) (i : nat) (file : string) (s : state world) :
  Tk.process_file os steady fuel total output_dir i file s
  = process_file os fuel total output_dir i file s.
Proof.
  unfold Tk.process_file, process_file.
  apply bind_ext; [|reflexivity].
  apply try_except_ext.
  - apply bind_ext; [reflexivity|]. intros progress s1.
    apply bind_ext; [reflexivity|]. intros _ s2.
    apply bind_ext; [reflexivity|]. intros _ s3.
    apply bind_ext; [reflexivity|]. intros output_path s4.
    apply bind_ext; [reflexivity|]. intros _ s5.
    apply bind_ext; [reflexivity|]. intros n s6.
    apply bind_ext; [reflexivity|]. intros _ s7.
    apply log_status_steady.
  - intros e s1.
    apply bind_ext; [reflexivity|]. intros n s2.
    apply bind_ext; [reflexivity|]. intros _ s3.
    apply log_status_steady.
Qed.

(** The batch embedded first is the batch of [Tk] beside windows that stay
    open. *)
Lemma process_files_steady {world} (os : platform world) (fuel : nat)
  (files : list string) (output_dir : string) (s : state world) :
  Tk.process_files os steady fuel files output_dir s
  = process_files os fuel files output_dir s.
Proof.
  unfold Tk.process_files, process_files.
  apply bind_ext; [reflexivity|]. intros _ s1.
  apply bind_ext; [reflexivity|]. intros _ s2.
  apply bind_ext; [|reflexivity].
  apply for_enumerate_ext. intros i x s3. apply process_file_steady.
Qed.

Lemma steady_returns {world} : toolkit_returns (@steady world).
Proof. repeat split; intros; eexists; reflexivity. Qed.

(** ** The desk obeys the laws *)

Lemma desk_finite_support : finite_support Desk.os.
Proof.
  intros d. destruct (memfs_finite_support (Desk.files d)) as (l & Hl).
  exists l. exact Hl.
Qed.

Lemma desk_toolkit_returns : toolkit_returns (Desk.tk Desk.all_open).
Proof. repeat split; intros; eexists; reflexivity. Qed.

(** ** Failures of single files *)

(** C3. Provided the widget and logging calls of the batch return: no
    exception raised while one file is processed leaves that file's round,
    and none leaves the batch, whatever the operating system answers.
    Every source is attempted (one link call per source, in input order),
    every call is logged as the success or the failure it was, the failure
    counter counts the calls that raised, and the final dialog comes after
    the rounds of all sources. *)
Theorem process_files_isolates_link_failures {world} (os : platform world)
  (tk : toolkit world) (Hfin : finite_support os) (Htk : toolkit_returns tk)
  (files : list string) (output_dir : string) (s : state world) :
  exists s' evs,
    settles (fun fuel => Tk.process_files os tk fuel files output_dir) s tt s'
    /\ (forall fuel e s'', Tk.process_files os tk fuel files output_dir s <> Raises e s'')
    /\ (forall fuel total i file s0 e s1,
          Tk.process_file os tk fuel total output_dir i file s0 <> Raises e s1)
    /\ trace s' = trace s ++ evs
                    ++ [EvShowInfo (success_count s') (error_count s'); EvProgressWindow false]
    /\ map (fun call => fst (fst call)) (link_calls evs) = files
    /\ log_lines evs = map line_of_call (link_calls evs)
    /\ error_count s' = List.length (filter call_raised (link_calls evs)).
Proof.
  destruct (tk_process_files_run os tk files output_dir s Htk Hfin)
    as (s' & evs & Hrun & Htr & Hsrc & Hlog & Hsc & Hec).
  exists s', evs. split; [exact Hrun|].
  split; [exact (settled_never_raises _ _ _ _
                   (stable_tk_process_files os tk files output_dir) Hrun)|].
  split; [intros; now apply tk_process_file_never_raises|].
  split; [exact Htr|]. split; [exact Hsrc|]. split; [exact Hlog|].
  rewrite Hec, Hlog. apply failures_are_raised_calls.
Qed.

(** A batch into a write-protected directory, all windows open: every link
    call raises, and every source is attempted all the same. *)
Lemma process_files_isolates_link_failures_witness :
  finite_support Desk.os
  /\ toolkit_returns (Desk.tk Desk.all_open)
  /\ exists s' evs,
    settles (fun fuel => Tk.process_files Desk.os (Desk.tk Desk.all_open) fuel
                           ["/a/report.txt"; "/b/report.txt"] "/out")
      (Desk.boot protected_disk) tt s'
    /\ (forall fuel e s'',
          Tk.process_files Desk.os (Desk.tk Desk.all_open) fuel
            ["/a/report.txt"; "/b/report.txt"] "/out" (Desk.boot protected_disk)
          <> Raises e s'')
    /\ (forall fuel total i file s0 e s1,
          Tk.process_file Desk.os (Desk.tk Desk.all_open) fuel total "/out" i file s0
          <> Raises e s1)
    /\ trace s' = trace (Desk.boot protected_disk) ++ evs
                    ++ [EvShowInfo (success_count s') (error_count s'); EvProgressWindow false]
    /\ map (fun call => fst (fst call)) (link_calls evs) = ["/a/report.txt"; "/b/report.txt"]
    /\ log_lines evs = map line_of_call (link_calls evs)
    /\ error_count s' = List.length (filter call_raised (link_calls evs)).
Proof.
  split; [exact desk_finite_support|]. split; [exact desk_toolkit_returns|].
  exact (process_files_isolates_link_failures Desk.os (Desk.tk Desk.all_open)
           desk_finite_support desk_toolkit_returns
           ["/a/report.txt"; "/b/report.txt"] "/out" (Desk.boot protected_disk)).
Defined.

(** The same batch, computed: the log file has the two failures too. *)
Example tk_process_files_protected_scenario :
  Tk.process_files Desk.os (Desk.tk Desk.all_open) 4 ["/a/report.txt"; "/b/report.txt"] "/out"
    (Desk.boot protected_disk)
  = Returns tt
      {| disk := {| Desk.files := protected_disk;
                    Desk.log_file := [Failure "/a/report.txt" (OSError EACCES);
                                      Failure "/b/report.txt" (OSError EACCES)] |};
         trace :=
           [EvProgressBar 50; EvStatusLabel 1 2;
            EvExists "/out/report.txt" true; EvExists "/out/report.txt" true;
            EvExists "/out/report_1.txt" true; EvExists "/out/report_2.txt" false;
            EvLink "/a/report.txt" "/out/report_2.txt" (Some (OSError EACCES));
            EvLogStatus (Failure "/a/report.txt" (OSError EACCES)); EvRootUpdate;
            EvProgressBar 100; EvStatusLabel 2 2;
            EvExists "/out/report.txt" true; EvExists "/out/report.txt" true;
            EvExists "/out/report_1.txt" true; EvExists "/out/report_2.txt" false;
            EvLink "/b/report.txt" "/out/report_2.txt" (Some (OSError EACCES));
            EvLogStatus (Failure "/b/report.txt" (OSError EACCES)); EvRootUpdate;
            EvShowInfo 0 2; EvProgressWindow false];
         success_count := 0;
         error_count := 2 |}.
Proof. vm_compute. reflexivity. Qed.

(** Without the proviso the claim fails.  On the fresh disk both sources
    can be linked.  With the progress window closed, each write to the
    progress bar raises inside the [try]: both files are logged as
    failures and no source is attempted, not one link call is made.  With
    the main window gone as well, the handler's [log_status] raises: the
    exception leaves the first file's round and the batch, which logs
    nothing, attempts no later source and shows no report. *)
Lemma closed_windows_break_isolation :
  let files := ["/a/report.txt"; "/b/report.txt"] in
  let progress_closed := {| Desk.progress_window := false; Desk.main_window := true |} in
  let all_closed := {| Desk.progress_window := false; Desk.main_window := false |} in
  (forall fuel,
     exists s',
       Tk.process_files Desk.os (Desk.tk progress_closed) fuel files "/out"
         (Desk.boot fresh_disk) = Returns tt s'
       /\ link_calls (trace s') = []
       /\ log_lines (trace s')
          = [Failure "/a/report.txt" TclError; Failure "/b/report.txt" TclError]
       /\ success_count s' = 0 /\ error_count s' = 2)
  /\ ~ (exists s' evs,
          settles (fun fuel => Tk.process_files Desk.os (Desk.tk progress_closed) fuel
                                 files "/out")
            (Desk.boot fresh_disk) tt s'
          /\ trace s' = trace (Desk.boot fresh_disk) ++ evs
                          ++ [EvShowInfo (success_count s') (error_count s');
                              EvProgressWindow false]
          /\ map (fun call => fst (fst call)) (link_calls evs) = files)
  /\ (forall fuel,
        exists s1,
          Tk.process_file Desk.os (Desk.tk all_closed) fuel 2 "/out" 0 "/a/report.txt"
            (Desk.boot fresh_disk) = Raises TclError s1)
  /\ (forall fuel,
        exists s',
          Tk.process_files Desk.os (Desk.tk all_closed) fuel files "/out"
            (Desk.boot fresh_disk) = Raises TclError s'
          /\ link_calls (trace s') = [] /\ log_lines (trace s') = []
          /\ forall a b, ~ In (EvShowInfo a b) (trace s')).
Proof.
  cbv zeta. split; [|split; [|split]].
  - intros fuel. eexists. split; [vm_compute; reflexivity|]. repeat split.
  - intros (s' & evs & (fuel0 & Hrun) & Htr & Hsrc).
    specialize (Hrun fuel0 (le_n _)). vm_compute in Hrun.
    injection Hrun as <-. apply (f_equal link_calls) in Htr.
    rewrite !link_calls_app, app_nil_r in Htr. cbn in Htr.
    rewrite <- Htr in Hsrc. discriminate.
  - intros fuel. eexists. vm_compute. reflexivity.
  - intros fuel. eexists. split; [vm_compute; reflexivity|].
    repeat split. intros a b [].
Qed.

(** The same batch with all windows open: both sources are linked, and the
    log file has both lines. *)
Example tk_process_files_scenario :
  exists s',
    Tk.process_files Desk.os (Desk.tk Desk.all_open) 3 ["/a/report.txt"; "/b/report.txt"]
      "/out" (Desk.boot fresh_disk) = Returns tt s'
    /\ link_calls (trace s')
       = [("/a/report.txt", "/out/report.txt", None);
          ("/b/report.txt", "/out/report_1.txt", None)]
    /\ Desk.log_file (disk s') = [Success "/out/report.txt"; Success "/out/report_1.txt"]
    /\ success_count s' = 2 /\ error_count s' = 0.
Proof. eexists. split; [vm_compute; reflexivity|]. repeat split. Qed.

(** ** [create_hardlinks] from end to end *)

(** X6. [create_hardlinks] returns at once and never raises, whatever the
    lists, the entry and the operating system.  When validation rejects,
    it stops right after the alert and starts no thread: no progress
    window, no link call, no outcome.  When validation accepts, it opens
    the progress window and starts one worker thread, whose target is
    [process_files] over the rows and the entry text as they were read.
    Whenever that worker then runs to its end, and provided the widget and
    logging calls return, it never raises, makes one link call per listed
    file, logs one outcome per file, and shows in the final dialog
    counters that add up to the number of files. *)
Theorem create_hardlinks_end_to_end {world} (os : platform world) (tk : toolkit world)
  (Hfin : finite_support os) (Htk : toolkit_returns tk)
  (self : HardlinkCreator) (s : state world) :
  exists b s1,
    validate_inputs os self s = Returns b s1
    /\ (b = false -> Tk.create_hardlinks os tk self s = Returns None s1)
    /\ (b = true ->
        exists worker,
          Tk.create_hardlinks os tk self s
          = Returns (Some worker) (observe [EvProgressWindow true] s1)
          /\ (forall fuel, worker fuel
                           = Tk.process_files os tk fuel (files_list self) (output_dir self))
          /\ forall s2, exists s' evs,
               settles worker s2 tt s'
               /\ (forall fuel e s'', worker fuel s2 <> Raises e s'')
               /\ trace s' = trace s2 ++ evs
                               ++ [EvShowInfo (success_count s') (error_count s');
                                   EvProgressWindow false]
               /\ List.length (log_lines evs) = List.length (files_list self)
               /\ map (fun call => fst (fst call)) (link_calls evs) = files_list self
               /\ success_count s' + error_count s' = List.length (files_list self)).
Proof.
  destruct (validate_inputs_returns os self s) as (b & s1 & Hv).
  exists b, s1. split; [exact Hv|]. split.
  - intros ->. unfold Tk.create_hardlinks, bind. rewrite Hv. reflexivity.
  - intros ->.
    exists (fun fuel => Tk.process_files os tk fuel (files_list self) (output_dir self)).
    split; [unfold Tk.create_hardlinks, bind; rewrite Hv; reflexivity|].
    split; [reflexivity|].
    intros s2.
    destruct (tk_process_files_run os tk (files_list self) (output_dir self) s2 Htk Hfin)
      as (s' & evs & Hrun & Htr & Hsrc & Hlog & Hsc & Hec).
    assert (Hlen : List.length (log_lines evs) = List.length (files_list self)).
    { rewrite Hlog, <- Hsrc, !length_map. reflexivity. }
    exists s', evs. split; [exact Hrun|].
    split; [exact (settled_never_raises _ _ _ _
                     (stable_tk_process_files os tk (files_list self) (output_dir self))
                     Hrun)|].
    split; [exact Htr|]. split; [exact Hlen|]. split; [exact Hsrc|].
    rewrite Hsc, Hec, success_failure_split. exact Hlen.
Qed.

(** The deep request again, all windows open: validation creates the
    directory, the worker links into it. *)
Lemma create_hardlinks_end_to_end_witness :
  finite_support Desk.os
  /\ toolkit_returns (Desk.tk Desk.all_open)
  /\ exists b s1,
    validate_inputs Desk.os deep_request (Desk.boot fresh_disk) = Returns b s1
    /\ (b = false ->
        Tk.create_hardlinks Desk.os (Desk.tk Desk.all_open) deep_request (Desk.boot fresh_disk)
        = Returns None s1)
    /\ (b = true ->
        exists worker,
          Tk.create_hardlinks Desk.os (Desk.tk Desk.all_open) deep_request
            (Desk.boot fresh_disk)
          = Returns (Some worker) (observe [EvProgressWindow true] s1)
          /\ (forall fuel, worker fuel
                           = Tk.process_files Desk.os (Desk.tk Desk.all_open) fuel
                               (files_list deep_request) (output_dir deep_request))
          /\ forall s2, exists s' evs,
               settles worker s2 tt s'
               /\ (forall fuel e s'', worker fuel s2 <> Raises e s'')
               /\ trace s' = trace s2 ++ evs
                               ++ [EvShowInfo (success_count s') (error_count s');
                                   EvProgressWindow false]
               /\ List.length (log_lines evs) = List.length (files_list deep_request)
               /\ map (fun call => fst (fst call)) (link_calls evs) = files_list deep_request
               /\ success_count s' + error_count s' = List.length (files_list deep_request)).
Proof.
  split; [exact desk_finite_support|]. split; [exact desk_toolkit_returns|].
  exact (create_hardlinks_end_to_end Desk.os (Desk.tk Desk.all_open)
           desk_finite_support desk_toolkit_returns deep_request (Desk.boot fresh_disk)).
Defined.

(** The deep request, computed: the handler's part, then the worker's. *)
Example create_hardlinks_deep_scenario :
  exists worker s1,
    Tk.create_hardlinks Desk.os (Desk.tk Desk.all_open) deep_request (Desk.boot fresh_disk)
    = Returns (Some worker) s1
    /\ trace s1 = [EvExists "/x/y/z" false; EvMakedirs "/x/y/z" None; EvProgressWindow true]
    /\ exists s2,
         worker 1 s1 = Returns tt s2
         /\ trace s2 = trace s1
                         ++ [EvProgressBar 100; EvStatusLabel 1 1;
                             EvExists "/x/y/z/report.txt" false;
                             EvLink "/a/report.txt" "/x/y/z/report.txt" None;
                             EvLogStatus (Success "/x/y/z/report.txt"); EvRootUpdate;
                             EvShowInfo 1 0; EvProgressWindow false]
         /\ Desk.log_file (disk s2) = [Success "/x/y/z/report.txt"].
Proof.
  eexists _, _. split; [vm_compute; reflexivity|]. split; [reflexivity|].
  eexists. split; [vm_compute; reflexivity|]. split; reflexivity.
Qed.

(** ** Where the links go *)

Lemma occurs_append (c : ascii) (a b : string) :
  occurs c (a ++ b) = occurs c a || occurs c b.
Proof.
  induction a as [|x a IH]; [reflexivity|]. cbn. rewrite IH. now rewrite orb_assoc.
Qed.

Lemma take_drop (n : nat) (s : string) : (PyStr.take n s ++ PyStr.drop n s)%string = s.
Proof.
  revert n. induction s as [|x s IH]; intros [|n]; cbn; try reflexivity.
  now rewrite IH.
Qed.

Lemma rfind_none (c : ascii) (s : string) : PyStr.rfind s c = None -> occurs c s = false.
Proof.
  induction s as [|x s IH]; [reflexivity|]. cbn.
  destruct (PyStr.rfind s c); [discriminate|].
  destruct (Ascii.eqb x c); [discriminate|]. intros _. now apply IH.
Qed.

Lemma rfind_some (c : ascii) (s : string) (i : nat) :
  PyStr.rfind s c = Some i ->
  occurs c (PyStr.drop (S i) s) = false
  /\ exists rest, PyStr.drop i s = String c rest.
Proof.
  revert i. induction s as [|x s IH]; intros i; [discriminate|]. cbn [PyStr.rfind].
  destruct (PyStr.rfind s c) as [j|] eqn:Hr.
  - intros H. injection H as <-. destruct (IH j eq_refl) as (H1 & H2).
    split; [exact H1|exact H2].
  - destruct (Ascii.eqb_spec x c) as [->|_]; [|discriminate].
    intros H. injection H as <-. split; [now apply rfind_none|now exists s].
Qed.

(** A base name holds no separator. *)
Lemma basename_no_sep (p : string) : occurs posixpath.sep (posixpath.basename p) = false.
Proof.
  unfold posixpath.basename, posixpath.after_last_sep.
  destruct (PyStr.rfind p posixpath.sep) as [i|] eqn:Hr.
  - now apply rfind_some in Hr as (H & _).
  - now apply rfind_none.
Qed.

(** [splitext] cuts its argument in two, and the extension, if any,
    starts with the dot. *)
Lemma splitext_parts (p : string) :
  (fst (posixpath.splitext p) ++ snd (posixpath.splitext p))%string = p
  /\ (snd (posixpath.splitext p) = ""
      \/ exists rest, snd (posixpath.splitext p) = String posixpath.extsep rest).
Proof.
  unfold posixpath.splitext.
  destruct (PyStr.rfind p posixpath.extsep) as [dotIndex|] eqn:Hr.
  - destruct (_ && _); cbn [fst snd].
    + split; [apply take_drop|]. right. now apply rfind_some in Hr as (_ & H).
    + split; [|now left]. clear. induction p; cbn; congruence.
  - cbn [fst snd]. split; [|now left]. clear. induction p; cbn; congruence.
Qed.

Lemma str_no_sep (n : nat) : occurs posixpath.sep (PyStr.str n) = false.
Proof.
  unfold PyStr.str. generalize (Nat.to_uint n) as d.
  induction d; cbn; auto.
Qed.

Lemma join_child (a name : string) :
  occurs posixpath.sep name = false ->
  posixpath.join a name = (a ++ name)%string
  \/ posixpath.join a name = (a ++ "/" ++ name)%string.
Proof.
  intros Hname. unfold posixpath.join.
  assert (Hs : PyStr.startswith name posixpath.sep = false).
  { destruct name as [|x name]; [reflexivity|]. cbn in *.
    now apply orb_false_iff in Hname as (H & _). }
  rewrite Hs. destruct (_ || _); [now left|now right].
Qed.

Lemma resolves_lands_in (taken : string -> bool) (output_dir file out : string)
  (probes : list event) :
  resolves taken output_dir file out probes -> lands_in output_dir file out.
Proof.
  pose proof (basename_no_sep file) as Hbase.
  intros [p Hfree | k file_name p name Htaken Hk].
  - exists (posixpath.basename file). split; [exact Hbase|].
    split; [now apply join_child|now left].
  - subst name p file_name.
    destruct (splitext_parts (posixpath.basename file)) as (Happ & Hext).
    set (stem := fst (posixpath.splitext (posixpath.basename file))) in *.
    set (ext := snd (posixpath.splitext (posixpath.basename file))) in *.
    assert (Hparts : occurs posixpath.sep stem = false /\ occurs posixpath.sep ext = false).
    { rewrite <- Happ, occurs_append in Hbase. now apply orb_false_iff in Hbase. }
    destruct Hparts as (Hstem & Hex).
    assert (Hname : occurs posixpath.sep (stem ++ "_" ++ PyStr.str k ++ ext) = false).
    { rewrite !occurs_append, Hstem, Hex, str_no_sep. reflexivity. }
    exists (stem ++ "_" ++ PyStr.str k ++ ext)%string. split; [exact Hname|].
    split; [now apply join_child|].
    right. exists k, stem, ext. repeat split; try assumption. apply Hk.
Qed.

Lemma resolves_free (taken : string -> bool) (output_dir file out : string)
  (probes : list event) :
  resolves taken output_dir file out probes -> taken out = false.
Proof.
  intros [p Hfree | k file_name p name Htaken Hk]; [assumption|apply Hk].
Qed.

Lemma resolves_reads_only (taken : string -> bool) (output_dir file out : string)
  (probes : list event) :
  resolves taken output_dir file out probes ->
  forallb (fun ev => negb (is_foreign_write ev)) probes = true.
Proof.
  intros [p Hfree | k file_name p name Htaken Hk]; [reflexivity|].
  cbn. rewrite forallb_app. cbn. rewrite andb_true_r.
  unfold taken_probes. apply forallb_forall. intros ev Hev.
  apply in_map_iff in Hev as (j & <- & _). reflexivity.
Qed.

Lemma linked_paths_app (a b : list event) :
  linked_paths (a ++ b) = linked_paths a ++ linked_paths b.
Proof. unfold linked_paths. now rewrite link_calls_app, flat_map_app. Qed.

Lemma round_events_reads_only (total i : nat) (file out : string) (probes : list event)
  (raised : option exn) :
  forallb (fun ev => negb (is_foreign_write ev)) probes = true ->
  forallb (fun ev => negb (is_foreign_write ev)) (round_events total i file out probes raised)
  = true.
Proof.
  intros H. unfold round_events. rewrite !forallb_app, H. reflexivity.
Qed.

(** What the rounds do to the file system, and where their links go. *)
Lemma rounds_destinations {fs} (os : platform fs) (total : nat) (output_dir : string)
  (i : nat) (files : list string) (s s' : state fs) :
  rounds os total output_dir i files s s' ->
  exists evs,
    trace s' = trace s ++ evs
    /\ Forall (fun call => lands_in output_dir (fst (fst call)) (snd (fst call)))
         (link_calls evs)
    /\ forallb (fun ev => negb (is_foreign_write ev)) evs = true
    /\ (linked_paths evs = [] -> disk s' = disk s).
Proof.
  induction 1 as [i s | i file rest s s1 s2 Hround Hrounds IH].
  - exists []. rewrite app_nil_r. repeat split; auto.
  - destruct IH as (evs & Htr & Hland & Hread & Hsame).
    destruct Hround as (out & probes & Hres & Hlink).
    destruct (resolves_silent _ _ _ _ _ Hres) as (Q1 & Q2 & Q3).
    pose proof (resolves_lands_in _ _ _ _ _ Hres) as Hin.
    pose proof (resolves_reads_only _ _ _ _ _ Hres) as Hro.
    assert (Hgen : exists raised,
               trace s1 = trace s ++ round_events total i file out probes raised
               /\ (raised <> None -> disk s1 = disk s)).
    { destruct (sys_link os (disk s) file out) as [d'|e]; subst s1.
      - exists None. split; [reflexivity|congruence].
      - exists (Some e). split; reflexivity. }
    destruct Hgen as (raised & Htr1 & Hdisk1).
    destruct (round_events_calls total i file out probes raised Q1 Q2 Q3) as (R1 & _).
    exists (round_events total i file out probes raised ++ evs).
    rewrite link_calls_app, linked_paths_app, forallb_app, R1.
    rewrite (round_events_reads_only total i file out probes raised Hro), Hread.
    unfold linked_paths at 1. rewrite R1.
    repeat split.
    + rewrite Htr, Htr1. now rewrite app_assoc.
    + constructor; assumption.
    + intros Hnone. destruct raised as [e|]; [|discriminate].
      cbn in Hnone. rewrite (Hsame Hnone). apply Hdisk1. discriminate.
Qed.

(** With links that add their destination, the destinations of the links
    made are new, lasting and pairwise distinct. *)
Lemma rounds_links {fs} (os : platform fs) (total : nat) (output_dir : string)
  (i : nat) (files : list string) (s s' : state fs) :
  link_adds_destination os ->
  rounds os total output_dir i files s s' ->
  exists evs,
    trace s' = trace s ++ evs
    /\ NoDup (linked_paths evs)
    /\ (forall dst, In dst (linked_paths evs) ->
          sys_exists os (disk s) dst = false /\ sys_exists os (disk s') dst = true)
    /\ (forall p, sys_exists os (disk s) p = true -> sys_exists os (disk s') p = true)
    /\ success_count s' = success_count s + List.length (linked_paths evs).
Proof.
  intros Hlaw. induction 1 as [i s | i file rest s s1 s2 Hround Hrounds IH].
  - exists []. rewrite app_nil_r. cbn. repeat split; auto; try constructor; contradiction.
  - destruct IH as (evs & Htr & Hnd & Hnew & Hmono & Hsc).
    destruct Hround as (out & probes & Hres & Hlink).
    destruct (resolves_silent _ _ _ _ _ Hres) as (Q1 & Q2 & Q3).
    pose proof (resolves_free _ _ _ _ _ Hres) as Hfree.
    destruct (sys_link os (disk s) file out) as [d'|e] eqn:Hl; subst s1;
      cbn [disk trace success_count] in *.
    + destruct (Hlaw _ _ _ _ Hl) as (Hdst & Hkeep).
      destruct (round_events_calls total i file out probes None Q1 Q2 Q3) as (R1 & _).
      exists (round_events total i file out probes None ++ evs).
      rewrite linked_paths_app. unfold linked_paths at 1 3 5. rewrite R1. cbn [flat_map app].
      repeat split.
      * rewrite Htr. now rewrite app_assoc.
      * constructor; [|assumption]. intros Hin. apply Hnew in Hin as (Hno & _). congruence.
      * destruct H as [<-|Hin]; [assumption|].
        apply Hnew in Hin as (Hno & _).
        destruct (sys_exists os (disk s) dst) eqn:Hex; [|reflexivity].
        apply Hkeep in Hex. congruence.
      * destruct H as [<-|Hin]; [now apply Hmono|now apply Hnew].
      * intros p Hp. now apply Hmono, Hkeep.
      * rewrite Hsc. cbn [List.length]. lia.
    + destruct (round_events_calls total i file out probes (Some e) Q1 Q2 Q3) as (R1 & _).
      exists (round_events total i file out probes (Some e) ++ evs).
      rewrite linked_paths_app. unfold linked_paths at 1 3 5. rewrite R1. cbn [flat_map app].
      repeat split; try assumption.
      * rewrite Htr. now rewrite app_assoc.
      * now apply Hnew.
      * now apply Hnew.
Qed.

Lemma memfs_link_adds_destination : link_adds_destination MemFS.os.
Proof.
  intros d src dst d'. cbn. unfold MemFS.link.
  destruct (MemFS.lookup d src) as [[|text]|]; try discriminate.
  destruct (MemFS.check_create d dst); [discriminate|].
  intros H. injection H as <-. split.
  - unfold MemFS.exists_, MemFS.lookup, MemFS.add. cbn.
    rewrite String.eqb_refl. apply orb_true_r.
  - intros p. unfold MemFS.exists_, MemFS.lookup, MemFS.add. cbn.
    destruct (String.eqb dst p); [intros _; apply orb_true_r|exact (fun H => H)].
Qed.

Lemma memfs_listed (d : MemFS.t) (p : string) :
  MemFS.exists_ d p = true -> In p ("/" :: map fst (MemFS.nodes d)).
Proof.
  unfold MemFS.exists_, MemFS.lookup. intros H.
  apply orb_true_iff in H as [H|H].
  - left. symmetry. now apply String.eqb_eq.
  - right. destruct (find _ (MemFS.nodes d)) as [n|] eqn:Hfind; [|discriminate].
    apply find_some in Hfind as (Hin & Heq). apply String.eqb_eq in Heq. subst p.
    now apply in_map.
Qed.

(** X7. The path handed to [os.link] is free: in every round, whatever
    the source, the link call's destination is a path at which nothing
    existed when the round began, so a round never aims at an existing
    file. *)
Theorem link_target_is_free {fs} (os : platform fs) (Hfin : finite_support os)
  (total : nat) (output_dir : string) (i : nat) (file : string) (s : state fs)
  (Htotal : total <> 0) :
  exists s' out raised evs,
    settles (fun fuel => process_file os fuel total output_dir i file) s tt s'
    /\ trace s' = trace s ++ evs
    /\ link_calls evs = [(file, out, raised)]
    /\ sys_exists os (disk s) out = false.
Proof.
  destruct (process_file_run os total output_dir i file s Hfin Htotal)
    as (s' & Hrun & out & probes & Hres & Hstate).
  destruct (resolves_silent _ _ _ _ _ Hres) as (Q1 & Q2 & Q3).
  pose proof (resolves_free _ _ _ _ _ Hres) as Hfree.
  destruct (sys_link os (disk s) file out) as [d'|e]; subst s'.
  - destruct (round_events_calls total i file out probes None Q1 Q2 Q3) as (R1 & _).
    eexists _, out, None, (round_events total i file out probes None).
    split; [exact Hrun|]. repeat split; assumption.
  - destruct (round_events_calls total i file out probes (Some e) Q1 Q2 Q3) as (R1 & _).
    eexists _, out, (Some e), (round_events total i file out probes (Some e)).
    split; [exact Hrun|]. repeat split; assumption.
Qed.

Lemma link_target_is_free_witness :
  finite_support MemFS.os
  /\ 2 <> 0
  /\ exists s' out raised evs,
    settles (fun fuel => process_file MemFS.os fuel 2 "/out" 1 "/b/report.txt")
      (MemFS.boot scenario_disk) tt s'
    /\ trace s' = trace (MemFS.boot scenario_disk) ++ evs
    /\ link_calls evs = [("/b/report.txt", out, raised)]
    /\ MemFS.exists_ scenario_disk out = false.
Proof.
  split; [exact memfs_finite_support|]. split; [discriminate|].
  exact (link_target_is_free MemFS.os memfs_finite_support 2 "/out" 1 "/b/report.txt"
           (MemFS.boot scenario_disk) ltac:(discriminate)).
Defined.

(** X8. On a file system where a link that returns leaves its destination
    in existence and removes nothing, the links one batch makes go to
    pairwise distinct paths, none of which existed before the batch and
    all of which exist after it; no path that existed is lost, and the
    success counter is the number of links made. *)
Theorem process_files_links_are_new {fs} (os : platform fs) (Hfin : finite_support os)
  (Hlaw : link_adds_destination os)
  (files : list string) (output_dir : string) (s : state fs) :
  exists s' evs,
    settles (fun fuel => process_files os fuel files output_dir) s tt s'
    /\ trace s' = trace s ++ evs
                    ++ [EvShowInfo (success_count s') (error_count s'); EvProgressWindow false]
    /\ NoDup (linked_paths evs)
    /\ (forall dst, In dst (linked_paths evs) ->
          sys_exists os (disk s) dst = false /\ sys_exists os (disk s') dst = true)
    /\ (forall p, sys_exists os (disk s) p = true -> sys_exists os (disk s') p = true)
    /\ success_count s' = List.length (linked_paths evs).
Proof.
  destruct (process_files_run os files output_dir s Hfin) as (s2 & Hrounds & Hrun).
  destruct (rounds_links os _ _ _ _ _ _ Hlaw Hrounds) as (evs & Htr & Hnd & Hnew & Hmono & Hsc).
  cbn in Htr, Hnew, Hmono, Hsc.
  exists (reported s2), evs. split; [exact Hrun|].
  cbn. rewrite Htr, <- app_assoc. repeat split; try assumption; now apply Hnew.
Qed.

(** Two sources of one base name, linked under two names. *)
Lemma process_files_links_are_new_witness :
  finite_support MemFS.os
  /\ link_adds_destination MemFS.os
  /\ exists s' evs,
    settles (fun fuel => process_files MemFS.os fuel ["/a/report.txt"; "/b/report.txt"] "/out")
      (MemFS.boot fresh_disk) tt s'
    /\ trace s' = trace (MemFS.boot fresh_disk) ++ evs
                    ++ [EvShowInfo (success_count s') (error_count s'); EvProgressWindow false]
    /\ NoDup (linked_paths evs)
    /\ (forall dst, In dst (linked_paths evs) ->
          MemFS.exists_ fresh_disk dst = false /\ MemFS.exists_ (disk s') dst = true)
    /\ (forall p, MemFS.exists_ fresh_disk p = true -> MemFS.exists_ (disk s') p = true)
    /\ success_count s' = List.length (linked_paths evs).
Proof.
  split; [exact memfs_finite_support|]. split; [exact memfs_link_adds_destination|].
  exact (process_files_links_are_new MemFS.os memfs_finite_support memfs_link_adds_destination
           ["/a/report.txt"; "/b/report.txt"] "/out" (MemFS.boot fresh_disk)).
Defined.

(** X10. Every link of a batch lands directly in the output directory:
    its destination is the output directory, at most one separator, and a
    name without separator - the source's base name, or that name with
    [_k] inserted before its extension, the extension kept as it was. *)
Theorem process_files_lands_in_output_dir {fs} (os : platform fs)
  (Hfin : finite_support os) (files : list string) (output_dir : string) (s : state fs) :
  exists s' evs,
    settles (fun fuel => process_files os fuel files output_dir) s tt s'
    /\ trace s' = trace s ++ evs
                    ++ [EvShowInfo (success_count s') (error_count s'); EvProgressWindow false]
    /\ Forall (fun call => lands_in output_dir (fst (fst call)) (snd (fst call)))
         (link_calls evs).
Proof.
  destruct (process_files_run os files output_dir s Hfin) as (s2 & Hrounds & Hrun).
  destruct (rounds_destinations os _ _ _ _ _ _ Hrounds) as (evs & Htr & Hland & _).
  cbn in Htr. exists (reported s2), evs. split; [exact Hrun|].
  cbn. rewrite Htr, <- app_assoc. split; [reflexivity|exact Hland].
Qed.

Lemma process_files_lands_in_output_dir_witness :
  finite_support MemFS.os
  /\ exists s' evs,
    settles (fun fuel => process_files MemFS.os fuel ["/a/report.txt"; "/b/report.txt"] "/out")
      (MemFS.boot scenario_disk) tt s'
    /\ trace s' = trace (MemFS.boot scenario_disk) ++ evs
                    ++ [EvShowInfo (success_count s') (error_count s'); EvProgressWindow false]
    /\ Forall (fun call => lands_in "/out" (fst (fst call)) (snd (fst call)))
         (link_calls evs).
Proof.
  split; [exact memfs_finite_support|].
  exact (process_files_lands_in_output_dir MemFS.os memfs_finite_support
           ["/a/report.txt"; "/b/report.txt"] "/out" (MemFS.boot scenario_disk)).
Defined.

Lemma first_free_bound (taken : string -> bool) (name : nat -> string)
  (l : list string) (start k : nat) :
  (forall i j, name i = name j -> i = j) ->
  (forall p, taken p = true -> In p l) ->
  first_free_from taken name start k -> k <= start + List.length l.
Proof.
  intros Hinj Hl (Hk & Hfree & Hbelow).
  destruct (some_name_free taken name Hinj l start Hl) as (j & Hj & Hjfree).
  destruct (Nat.le_gt_cases k j) as [Hle|Hgt]; [lia|].
  rewrite Hbelow in Hjfree by lia. discriminate.
Qed.

(** X11. The name resolution asks the file system at most three times
    more than it holds paths: with every existing path among the [n]
    paths of a list, the resolution makes at most [n + 3] existence
    tests. *)
Theorem resolve_output_path_probe_bound {fs} (os : platform fs)
  (output_dir file : string) (s : state fs) (l : list string)
  (Hl : forall p, sys_exists os (disk s) p = true -> In p l) :
  exists out probes,
    settles (fun fuel => resolve_output_path os fuel output_dir file) s out (observe probes s)
    /\ List.length probes <= List.length l + 3.
Proof.
  destruct (resolves_total _ l output_dir file Hl) as (out & probes & Hres).
  exists out, probes. split; [now apply resolve_output_path_run|].
  destruct Hres as [p Hfree | k file_name p name Htaken Hk].
  - cbn. lia.
  - pose proof (first_free_bound _ name l 1 k
                  (fun i j => numbered_path_inj _ _ _ i j) Hl Hk) as Hb.
    cbn [List.length]. rewrite length_app. unfold taken_probes.
    rewrite length_map, length_seq. cbn [List.length]. lia.
Qed.

Lemma resolve_output_path_probe_bound_witness :
  (forall p, MemFS.exists_ scenario_disk p = true ->
             In p ("/" :: map fst (MemFS.nodes scenario_disk)))
  /\ exists out probes,
    settles (fun fuel => resolve_output_path MemFS.os fuel "/out" "/b/report.txt")
      (MemFS.boot scenario_disk) out (observe probes (MemFS.boot scenario_disk))
    /\ List.length probes <= List.length ("/" :: map fst (MemFS.nodes scenario_disk)) + 3.
Proof.
  split; [exact (memfs_listed scenario_disk)|].
  exact (resolve_output_path_probe_bound MemFS.os "/out" "/b/report.txt"
           (MemFS.boot scenario_disk) ("/" :: map fst (MemFS.nodes scenario_disk))
           (memfs_listed scenario_disk)).
Defined.

(** ** The list boxes *)

Lemma for_each_insert_end (files rows : list string) :
  for_each listbox_insert_end files rows = rows ++ files.
Proof.
  unfold for_each. revert rows. induction files as [|f files IH]; intros rows; cbn.
  - now rewrite app_nil_r.
  - rewrite IH. unfold listbox_insert_end. now rewrite <- app_assoc.
Qed.

(** X12. [add_files] and [on_drop] put the new paths after the rows
    already listed, in the order given and with repetitions kept; the
    output entry and the recent paths are not touched.  Adding in two
    steps is adding the concatenation. *)
Theorem add_files_appends (files more : list string) (w : Window) :
  get_all_files (add_files files w) = get_all_files w ++ files
  /\ get_all_files (on_drop files w) = get_all_files w ++ files
  /\ output_dir (creator (add_files files w)) = output_dir (creator w)
  /\ recent_manager (add_files files w) = recent_manager w
  /\ recent_listbox (add_files files w) = recent_listbox w
  /\ add_files more (add_files files w) = add_files (files ++ more) w
  /\ on_drop more (add_files files w) = add_files (files ++ more) w.
Proof.
  unfold add_files, on_drop, get_all_files, with_files. cbn.
  rewrite !for_each_insert_end, <- app_assoc. repeat split; reflexivity.
Qed.

Lemma unselected_rows_skip (o : nat) (selection : list nat) (rows : list string) :
  forall o', o < o' ->
  unselected_rows (o :: selection) o' rows = unselected_rows selection o' rows.
Proof.
  induction rows as [|r rows IH]; intros o' Hlt; [reflexivity|]. cbn.
  destruct (Nat.eqb_spec o' o) as [->|_]; [lia|]. cbn.
  rewrite IH by lia. reflexivity.
Qed.

Lemma listbox_delete_unselected (selection : list nat) (rows : list string) :
  forall o i, (forall j, In j selection -> o + i < j) ->
  listbox_delete i (unselected_rows selection o rows)
  = unselected_rows ((o + i) :: selection) o rows.
Proof.
  induction rows as [|r rows IH]; intros o i Hlater.
  - destruct i; reflexivity.
  - assert (Hfresh : forall o', o' <= o + i -> existsb (Nat.eqb o') selection = false).
    { intros o' Hle. apply not_true_iff_false. intros H.
      apply existsb_exists in H as (j & Hj & Heq). apply Nat.eqb_eq in Heq. subst j.
      specialize (Hlater o' Hj). lia. }
    cbn [unselected_rows existsb]. rewrite (Hfresh o) by lia.
    destruct i as [|i].
    + rewrite Nat.add_0_r, Nat.eqb_refl. cbn [orb listbox_delete].
      symmetry. apply unselected_rows_skip. lia.
    + destruct (Nat.eqb_spec o (o + S i)) as [Heq|_]; [lia|]. cbn [orb listbox_delete].
      f_equal. rewrite (IH (S o) i).
      * now replace (S o + i) with (o + S i) by lia.
      * intros j Hj. specialize (Hlater j Hj). lia.
Qed.

(** X13. With the selection as [curselection()] gives it - indices in
    increasing order - [remove_selected] removes exactly the selected rows:
    the rows left are the unselected ones, in their order; the output
    entry and the recent paths are not touched. *)
Theorem remove_selected_removes_selection (selection : list nat) (w : Window)
  (Hsorted : StronglySorted lt selection) :
  get_all_files (remove_selected selection w)
  = unselected_rows selection 0 (get_all_files w)
  /\ output_dir (creator (remove_selected selection w)) = output_dir (creator w)
  /\ recent_manager (remove_selected selection w) = recent_manager w
  /\ recent_listbox (remove_selected selection w) = recent_listbox w.
Proof.
  split; [|repeat split].
  unfold remove_selected, get_all_files, with_files, for_each. cbn.
  rewrite <- (fold_left_rev_right (fun index rows => listbox_delete index rows)
                (rev selection)), rev_involutive.
  generalize (files_list (creator w)) as rows. intros rows.
  induction Hsorted as [|i selection Hs IH Hall]; cbn [fold_right].
  - assert (H : forall o, unselected_rows [] o rows = rows).
    { clear. induction rows as [|r rows IH]; intros o; cbn; [reflexivity|now rewrite IH]. }
    now rewrite H.
  - rewrite IH. rewrite (listbox_delete_unselected selection rows 0 i); [reflexivity|].
    intros j Hj. rewrite Forall_forall in Hall. cbn. now apply Hall.
Qed.

Lemma remove_selected_removes_selection_witness :
  StronglySorted lt [1; 3; 4]
  /\ get_all_files (remove_selected [1; 3; 4] five_rows)
     = unselected_rows [1; 3; 4] 0 (get_all_files five_rows)
  /\ output_dir (creator (remove_selected [1; 3; 4] five_rows)) = output_dir (creator five_rows)
  /\ recent_manager (remove_selected [1; 3; 4] five_rows) = recent_manager five_rows
  /\ recent_listbox (remove_selected [1; 3; 4] five_rows) = recent_listbox five_rows.
Proof.
  assert (H : StronglySorted lt [1; 3; 4]).
  { repeat (constructor; [|repeat constructor]). constructor. }
  split; [exact H|].
  exact (remove_selected_removes_selection [1; 3; 4] five_rows H).
Defined.

(** The rows left, computed; and why the order of the selection matters:
    deleting the same indices in increasing order removes other rows. *)
Example remove_selected_scenario :
  get_all_files (remove_selected [1; 3; 4] five_rows) = ["/a"; "/c"]
  /\ for_each listbox_delete [1; 3; 4] (get_all_files five_rows) = ["/a"; "/c"; "/d"].
Proof. split; reflexivity. Qed.

Lemma seq_sorted (n : nat) : forall o, StronglySorted lt (seq o n).
Proof.
  induction n as [|n IH]; intros o; cbn; constructor; [apply IH|].
  apply Forall_forall. intros j Hj. apply in_seq in Hj. lia.
Qed.

Lemma unselected_rows_all (selection : list nat) (rows : list string) :
  forall o, (forall j, o <= j < o + List.length rows -> In j selection) ->
  unselected_rows selection o rows = [].
Proof.
  induction rows as [|r rows IH]; intros o Hall; [reflexivity|]. cbn in *.
  assert (Hsel : existsb (Nat.eqb o) selection = true).
  { apply existsb_exists. exists o. split; [apply Hall; lia|apply Nat.eqb_refl]. }
  rewrite Hsel. apply IH. intros j Hj. apply Hall. lia.
Qed.

(** X17. An emptied file list stops [create_hardlinks] at once: after
    [clear_all], or after [remove_selected] with every row selected, no
    file is listed, the output entry is as it was, and [create_hardlinks]
    shows the [EmptyInput] alert and does nothing else, whatever the
    output entry holds and whatever the operating system would answer. *)
Theorem emptied_list_is_rejected {fs} (os : platform fs) (w : Window) (s : state fs) :
  get_all_files (clear_all w) = []
  /\ get_all_files (remove_selected (seq 0 (List.length (get_all_files w))) w) = []
  /\ output_dir (creator (clear_all w)) = output_dir (creator w)
  /\ (forall fuel,
        create_hardlinks os fuel (creator (clear_all w)) s
        = Returns tt (observe [EvShowError EmptyInput] s))
  /\ (forall fuel,
        create_hardlinks os fuel
          (creator (remove_selected (seq 0 (List.length (get_all_files w))) w)) s
        = Returns tt (observe [EvShowError EmptyInput] s)).
Proof.
  assert (Hrem : get_all_files (remove_selected (seq 0 (List.length (get_all_files w))) w)
                 = []).
  { unfold remove_selected, get_all_files, with_files, for_each. cbn.
    rewrite <- (fold_left_rev_right (fun index rows => listbox_delete index rows)
                  (rev (seq 0 (List.length (files_list (creator w)))))), rev_involutive.
    generalize (files_list (creator w)) as rows. intros rows.
    assert (Hgen : forall selection, StronglySorted lt selection ->
              fold_right (fun index rows0 => listbox_delete index rows0) rows selection
              = unselected_rows selection 0 rows).
    { intros selection Hsorted.
      induction Hsorted as [|i selection Hs IH Hall]; cbn [fold_right].
      - assert (H : forall o, unselected_rows [] o rows = rows).
        { clear. induction rows as [|r rows IH]; intros o; cbn;
            [reflexivity|now rewrite IH]. }
        now rewrite H.
      - rewrite IH. rewrite (listbox_delete_unselected selection rows 0 i); [reflexivity|].
        intros j Hj. rewrite Forall_forall in Hall. cbn. now apply Hall. }
    rewrite (Hgen _ (seq_sorted _ 0)). apply unselected_rows_all.
    intros j Hj. apply in_seq. lia. }
  split; [reflexivity|]. split; [exact Hrem|]. split; [reflexivity|].
  split; intros fuel; apply create_hardlinks_rejected; rewrite validate_inputs_run.
  - reflexivity.
  - unfold get_all_files in *. now rewrite Hrem.
Qed.

Lemma hd_error_removelast_cons (x : string) (l : list string) :
  l <> [] -> hd_error (removelast (x :: l)) = Some x.
Proof. destruct l; [congruence|reflexivity]. Qed.

(** X14. In a window whose manager holds a list of strings,
    [select_output_dir] returns.  A cancelled dialog (the empty string)
    changes nothing and touches nothing.  A chosen directory becomes the
    text of the output entry, goes through [add_path], and the
    recent-paths list box is rebuilt to show the manager's list row for
    row - the chosen directory on top when [max_entries] is at least one;
    the file list is left alone. *)
Theorem select_output_dir_updates {fs} (os : platform fs) (dir_path : string) (w : Window)
  (s : state fs) :
  exists w' s',
    select_output_dir os dir_path w s = Returns w' s'
    /\ files_list (creator w') = files_list (creator w)
    /\ (dir_path = "" -> w' = w /\ s' = s)
    /\ (dir_path <> "" ->
        output_dir (creator w') = dir_path
        /\ add_path os (recent_manager w) dir_path s = Returns (recent_manager w') s'
        /\ recent_listbox w' = recent_paths (recent_manager w')
        /\ ((1 <= max_entries (recent_manager w))%Z ->
            hd_error (recent_listbox w') = Some dir_path)).
Proof.
  unfold select_output_dir.
  destruct (String.eqb_spec dir_path "") as [->|Hne]; cbn [negb].
  - exists w, s. repeat split; congruence.
  - pose proof (add_path_run os (recent_manager w) dir_path s) as Hrun. cbv zeta in Hrun.
    unfold bind. rewrite Hrun. eexists _, _. split; [reflexivity|].
    split; [reflexivity|]. split; [congruence|]. intros _.
    split; [reflexivity|]. split; [reflexivity|].
    unfold update_recent_paths, listbox_delete_all.
    cbn [recent_listbox recent_manager recent_paths].
    rewrite for_each_insert_end. cbn [app].
    split; [reflexivity|]. intros HN.
    destruct (_ >? _)%Z eqn:Hgt; [|reflexivity].
    apply Z.gtb_lt in Hgt. cbn [List.length] in Hgt.
    apply hd_error_removelast_cons. intros Hnil. rewrite Hnil in Hgt. cbn in Hgt. lia.
Qed.

(** A choice that is already listed moves to the top, in the list box as
    in the manager; a cancelled dialog leaves the window as it is. *)
Example select_output_dir_scenario :
  (exists s',
     select_output_dir MemFS.os "/x/y" five_rows (MemFS.boot fresh_disk)
     = Returns {| creator := {| files_list := ["/a"; "/b"; "/c"; "/d"; "/e"];
                                output_dir := "/x/y" |};
                  recent_manager := {| file_path := "recent_paths.json"; max_entries := 3;
                                       recent_paths := ["/x/y"; "/out"; "/a"] |};
                  recent_listbox := ["/x/y"; "/out"; "/a"] |} s')
  /\ select_output_dir MemFS.os "" five_rows (MemFS.boot fresh_disk)
     = Returns five_rows (MemFS.boot fresh_disk).
Proof. split; [eexists; vm_compute; reflexivity|reflexivity]. Qed.

(** ** Themes *)

Import ThemeManager.

Lemma widget_forall (P : widget -> Prop) :
  (forall k o children, Forall P children -> P (Widget k o children)) ->
  forall w, P w.
Proof.
  intros H. fix IH 1. intros [k o children]. apply H.
  induction children as [|c children IHc]; constructor; [apply IH|exact IHc].
Qed.

Lemma recolour_last_wins (k : kind) (th th' : theme) (o : options) :
  configure_listbox k th (try_bg_fg k th (configure_listbox k th' (try_bg_fg k th' o)))
  = configure_listbox k th (try_bg_fg k th o).
Proof. destruct k as [|[|] [|]]; reflexivity. Qed.

(** Of two themes applied one after the other, only the last shows. *)
Lemma update_widget_colors_last_wins (th th' : theme) (w : widget) :
  _update_widget_colors (_update_widget_colors w th') th = _update_widget_colors w th.
Proof.
  induction w as [k o children IH] using widget_forall. cbn.
  rewrite recolour_last_wins, map_map. f_equal.
  apply map_ext_Forall. exact IH.
Qed.

Lemma widgets_updated (th : theme) (w : widget) :
  widgets (_update_widget_colors w th)
  = map (fun ko => (fst ko, configure_listbox (fst ko) th (try_bg_fg (fst ko) th (snd ko))))
      (widgets w).
Proof.
  induction w as [k o children IH] using widget_forall. cbn. f_equal.
  induction IH as [|c children Hc _ IHc]; [reflexivity|].
  cbn. now rewrite map_app, Hc, IHc.
Qed.

Lemma shape_updated (th : theme) (w : widget) :
  shape (_update_widget_colors w th) = shape w.
Proof.
  induction w as [k o children IH] using widget_forall. cbn. f_equal.
  rewrite map_map. apply map_ext_Forall. exact IH.
Qed.

(** X15. [_update_widget_colors] keeps the widget tree as it is and
    recolours every widget in it, each by its own kind: a list box ends
    with the theme's entry and selection colours, not with [bg] and [fg];
    a widget that accepts [bg] and [fg] gets both; one that accepts [bg]
    only gets [bg]; and a widget that rejects [bg] keeps all its colours,
    its [fg] too, since the rejected [bg] ends the [try] block. *)
Theorem update_widget_colors_recolours (th : theme) (w : widget) :
  shape (_update_widget_colors w th) = shape w
  /\ Forall2 (recoloured th) (widgets w) (widgets (_update_widget_colors w th)).
Proof.
  split; [apply shape_updated|]. rewrite widgets_updated.
  induction (widgets w) as [|[k o] l IH]; constructor; [|exact IH].
  split; [reflexivity|]. destruct k as [|[|] [|]]; reflexivity.
Qed.

(** X16. [toggle_theme] flips the mode and never recolours the root window
    itself.  Whatever the colours were, a third toggle gives exactly what
    the first gave - mode, style table and every widget colour - so the
    look depends on the mode alone once a toggle has happened; and two
    toggles bring the mode back. *)
Theorem toggle_theme_period_two (x : bool * style * widget) :
  fst (fst (toggled x)) = negb (fst (fst x))
  /\ fst (fst (toggled (toggled x))) = fst (fst x)
  /\ toggled (toggled (toggled x)) = toggled x
  /\ shape (snd (toggled x)) = shape (snd x)
  /\ (forall k o children, snd x = Widget k o children ->
        exists children', snd (toggled x) = Widget k o children').
Proof.
  destruct x as [[m st] [k o children]]. unfold toggled, toggle_theme. cbn.
  rewrite !negb_involutive.
  assert (Hmap : forall th th' th'',
             map (fun widget => _update_widget_colors widget th)
               (map (fun widget => _update_widget_colors widget th')
                  (map (fun widget => _update_widget_colors widget th'') children))
             = map (fun widget => _update_widget_colors widget th) children).
  { intros th th' th''. rewrite !map_map. apply map_ext. intros c.
    now rewrite !update_widget_colors_last_wins. }
  repeat split.
  - now rewrite Hmap.
  - f_equal. rewrite map_map. apply map_ext. intros c. apply shape_updated.
  - intros k' o' children' H. injection H as <- <- <-. eexists. reflexivity.
Qed.

(** A window with a frame that takes [bg] only, a label widget of the
    themed set that takes neither, and a list box inside the frame. *)
Example toggle_theme_scenario :
  let plain := {| background := "grey"; foreground := "black";
                  selectbackground := "blue"; selectforeground := "white" |} in
  let root := Widget (Other true false) plain
                [Widget (Other true false) plain [Widget Listbox plain []];
                 Widget (Other false true) plain []] in
  snd (toggle_theme false
         {| TFrame_background := ""; TLabel_background := ""; TLabel_foreground := "";
            TButton_background := ""; TButton_foreground := "";
            TEntry_fieldbackground := ""; TEntry_foreground := "" |} root)
  = Widget (Other true false) plain
      [Widget (Other true false) (set_bg "#2d2d2d" plain)
         [Widget Listbox {| background := "#1e1e1e"; foreground := "#ffffff";
                            selectbackground := "#0078d7"; selectforeground := "#ffffff" |} []];
       Widget (Other false true) plain []].
Proof. reflexivity. Qed.
